(** * SF Game Engine: a shallow embedding of the Vulkan resource layer

    The development follows the C++ sources of the engine's graphics
    module: command buffers, VMA-backed buffers, uniform/storage
    handlers, physical-device scoring, queue-family selection, the
    shader bundle container and SPIR-V reflection.

    Conventions.
    - A [uint32_t] or [uint64_t] is a [Z]; every operation that can wrap
      in C++ is written with its [mod].  Bit masks use [Z.land]/[Z.lor].
    - A Vulkan handle or a [void*] is a [Z]; [VK_NULL_HANDLE] and
      [nullptr] are [0].
    - A [std::string] is a [string]; raw memory is a [list byte].
    - Calls into the driver or into the allocator are recorded in a
      trace, and the value the driver answers with is an argument of the
      function that makes the call. *)

From Stdlib Require Import ZArith List Lia Bool String Ascii.
From Stdlib.Strings Require Import Byte.
From stdpp Require Import base option list gmap strings.

Local Open Scope Z_scope.

(** ** Outcomes and traced effects *)

(** A C++ call either returns or leaves by [throw]. *)
Inductive outcome (A : Type) : Type :=
| Return (a : A)
| Throw (what : string).
Arguments Return {A} a.
Arguments Throw {A} what.

(** A computation that appends to a trace of events of type [E]. *)
Definition Eff (E A : Type) : Type := list E → outcome A * list E.

Definition ret {E A} (a : A) : Eff E A := λ tr, (Return a, tr).

Definition bind {E A B} (m : Eff E A) (k : A → Eff E B) : Eff E B :=
  λ tr, match m tr with
        | (Return a, tr') => k a tr'
        | (Throw w, tr') => (Throw w, tr')
        end.

Definition emit {E} (e : E) : Eff E unit := λ tr, (Return tt, tr ++ [e]).

Definition raise {E A} (what : string) : Eff E A := λ tr, (Throw what, tr).

Definition run {E A} (m : Eff E A) : outcome A * list E := m [].

Notation "'let!' x ':=' m 'in' k" := (bind m (λ x, k))
  (at level 10, x pattern, m at level 100, k at level 200).
Notation "'do!' m 'in' k" := (bind m (λ _, k))
  (at level 10, m at level 100, k at level 200).

(** ** Vulkan constants used by the sources *)

Module Vk.
Definition VK_NULL_HANDLE : Z := 0.
Definition nullptr : Z := 0.
Definition VK_SUCCESS : Z := 0.

Definition UINT32_MOD : Z := 2 ^ 32.
Definition UINT64_MOD : Z := 2 ^ 64.
Definition u32 (x : Z) : Z := x mod UINT32_MOD.
Definition u64 (x : Z) : Z := x mod UINT64_MOD.

(* VkQueueFlagBits *)
Definition VK_QUEUE_GRAPHICS_BIT : Z := 1.
Definition VK_QUEUE_COMPUTE_BIT : Z := 2.
Definition VK_QUEUE_TRANSFER_BIT : Z := 4.

(* VkShaderStageFlagBits *)
Definition VK_SHADER_STAGE_VERTEX_BIT : Z := 1.
Definition VK_SHADER_STAGE_FRAGMENT_BIT : Z := 16.
Definition VK_SHADER_STAGE_COMPUTE_BIT : Z := 32.

(* VkPhysicalDeviceType *)
Definition VK_PHYSICAL_DEVICE_TYPE_OTHER : Z := 0.
Definition VK_PHYSICAL_DEVICE_TYPE_INTEGRATED_GPU : Z := 1.
Definition VK_PHYSICAL_DEVICE_TYPE_DISCRETE_GPU : Z := 2.
Definition VK_PHYSICAL_DEVICE_TYPE_VIRTUAL_GPU : Z := 3.
Definition VK_PHYSICAL_DEVICE_TYPE_CPU : Z := 4.

(* VkMemoryPropertyFlagBits, VkMemoryHeapFlagBits *)
Definition VK_MEMORY_PROPERTY_HOST_VISIBLE_BIT : Z := 2.
Definition VK_MEMORY_PROPERTY_HOST_COHERENT_BIT : Z := 4.
Definition VK_MEMORY_PROPERTY_HOST_CACHED_BIT : Z := 8.
Definition VK_MEMORY_HEAP_DEVICE_LOCAL_BIT : Z := 1.
Definition VK_WHOLE_SIZE : Z := 2 ^ 64 - 1.

(* VkDescriptorType / SpvReflectDescriptorType *)
Definition VK_DESCRIPTOR_TYPE_UNIFORM_BUFFER : Z := 6.
Definition VK_DESCRIPTOR_TYPE_STORAGE_BUFFER : Z := 7.

(* vk_mem_alloc.h *)
Definition VMA_MEMORY_USAGE_AUTO : Z := 7.
Definition VMA_MEMORY_USAGE_AUTO_PREFER_HOST : Z := 9.
Definition VMA_ALLOCATION_CREATE_MAPPED_BIT : Z := 4.
Definition VMA_ALLOCATION_CREATE_HOST_ACCESS_SEQUENTIAL_WRITE_BIT : Z := 1024.
Definition VMA_ALLOCATION_CREATE_HOST_ACCESS_RANDOM_BIT : Z := 2048.

Definition VK_KHR_SWAPCHAIN_EXTENSION_NAME : string := "VK_KHR_swapchain".

(** A C++ integer used as a condition. *)
Definition truthy (x : Z) : bool := negb (x =? 0).
Arguments truthy : simpl never.
End Vk.
Import Vk.

(** ** RenderSystem::CheckVkResult *)

Module RenderSystem.
(** Modelled from the spec: the body of [RenderSystem::CheckVkResult]
    is not part of the sources at hand, only its declaration
    ("Check Vulkan result and throw on error").  The specification
    says that a result other than success is escalated at once. *)
Definition CheckVkResult {E} (result : Z) : Eff E unit :=
  if result =? VK_SUCCESS then ret tt else raise "Vulkan error".
End RenderSystem.

(** ** Graphics/Commands/CommandBuffer.cpp *)

Module CommandBuffer.

Inductive Call :=
| vkBeginCommandBuffer (commandBuffer flags : Z)
| vkEndCommandBuffer (commandBuffer : Z).

Record CommandBuffer := mk {
  commandBuffer : Z;
  queueType : Z;
  running : bool
}.

Definition set_running (r : bool) (cb : CommandBuffer) : CommandBuffer :=
  {| commandBuffer := commandBuffer cb; queueType := queueType cb; running := r |}.

(** [Begin usage]; [driver] is what [vkBeginCommandBuffer] answers. *)
Definition Begin (driver : Z) (usage : Z) (cb : CommandBuffer) : Eff Call CommandBuffer :=
  if running cb then ret cb
  else
    do! emit (vkBeginCommandBuffer (commandBuffer cb) usage) in
    do! RenderSystem.CheckVkResult driver in
    ret (set_running true cb).

(** [End]; [driver] is what [vkEndCommandBuffer] answers. *)
Definition End_ (driver : Z) (cb : CommandBuffer) : Eff Call CommandBuffer :=
  if negb (running cb) then ret cb
  else
    do! emit (vkEndCommandBuffer (commandBuffer cb)) in
    do! RenderSystem.CheckVkResult driver in
    ret (set_running false cb).

End CommandBuffer.

(** [SubmitIdle], [Submit] and [GetQueue], which also call the device
    and the queue. *)

Module CommandSubmit.
Import CommandBuffer.

(** A call made while recording, or one of the device and queue calls
    of a submission.  [vkQueueSubmit] is recorded with the queue, the
    command buffer, the wait and signal semaphores of the one
    [VkSubmitInfo], and the fence. *)
Inductive Call :=
| recording (c : CommandBuffer.Call)
| vkCreateFence
| vkResetFences (fence : Z)
| vkQueueSubmit (queue commandBuffer : Z) (waitSemaphores signalSemaphores : list Z) (fence : Z)
| vkWaitForFences (fence timeout : Z)
| vkDestroyFence (fence : Z).

(** What the driver answers to each call of a submission. *)
Record Driver := mkDriver {
  end_result : Z;
  createFence_result : Z;
  created_fence : Z;
  resetFences_result : Z;
  queueSubmit_result : Z;
  waitForFences_result : Z
}.

(** The queues of the logical device. *)
Record Queues := mkQueues {
  GetGraphicsQueue : Z;
  GetComputeQueue : Z
}.

(** Runs a computation of the recording interface inside a submission. *)
Definition lift {A} (m : Eff CommandBuffer.Call A) : Eff Call A :=
  λ tr, let (o, calls) := run m in (o, tr ++ (recording <$> calls)).

(** [GetQueue()] *)
Definition GetQueue (logicalDevice : Queues) (cb : CommandBuffer) : Z :=
  if queueType cb =? VK_QUEUE_GRAPHICS_BIT then GetGraphicsQueue logicalDevice
  else if queueType cb =? VK_QUEUE_COMPUTE_BIT then GetComputeQueue logicalDevice
  else nullptr.

Definition UINT64_MAX : Z := 2 ^ 64 - 1.

(** [SubmitIdle()] *)
Definition SubmitIdle (d : Driver) (logicalDevice : Queues) (cb : CommandBuffer)
    : Eff Call CommandBuffer :=
  let queueSelected := GetQueue logicalDevice cb in
  let! cb := (if running cb then lift (End_ (end_result d) cb) else ret cb) in
  do! emit vkCreateFence in
  do! RenderSystem.CheckVkResult (createFence_result d) in
  let fence := created_fence d in
  do! emit (vkResetFences fence) in
  do! RenderSystem.CheckVkResult (resetFences_result d) in
  do! emit (vkQueueSubmit queueSelected (commandBuffer cb) [] [] fence) in
  do! RenderSystem.CheckVkResult (queueSubmit_result d) in
  do! emit (vkWaitForFences fence UINT64_MAX) in
  do! RenderSystem.CheckVkResult (waitForFences_result d) in
  do! emit (vkDestroyFence fence) in
  ret cb.

(** [Submit(waitSemaphore, signalSemaphore, fence)] *)
Definition Submit (d : Driver) (logicalDevice : Queues)
    (waitSemaphore signalSemaphore fence : Z) (cb : CommandBuffer) : Eff Call CommandBuffer :=
  let queueSelected := GetQueue logicalDevice cb in
  let! cb := (if running cb then lift (End_ (end_result d) cb) else ret cb) in
  let waitSemaphores :=
    if negb (waitSemaphore =? VK_NULL_HANDLE) then [waitSemaphore] else [] in
  let signalSemaphores :=
    if negb (signalSemaphore =? VK_NULL_HANDLE) then [signalSemaphore] else [] in
  do! (if negb (fence =? VK_NULL_HANDLE) then
         do! emit (vkResetFences fence) in
         RenderSystem.CheckVkResult (resetFences_result d)
       else ret tt) in
  do! emit (vkQueueSubmit queueSelected (commandBuffer cb) waitSemaphores signalSemaphores
              fence) in
  do! RenderSystem.CheckVkResult (queueSubmit_result d) in
  ret cb.

Definition is_submit (c : Call) : bool :=
  match c with vkQueueSubmit _ _ _ _ _ => true | _ => false end.

Definition is_fence_create (c : Call) : bool :=
  match c with vkCreateFence => true | _ => false end.

Definition is_fence_destroy (c : Call) : bool :=
  match c with vkDestroyFence _ => true | _ => false end.

End CommandSubmit.

(** ** Graphics/Buffers/Buffer.cpp *)

Module Buffer.

(** [Buffer::Status] *)
Inductive Status := Reset | Changed | Normal | OverFlow.

#[global] Instance Status_eq_dec : EqDecision Status.
Proof. solve_decision. Defined.

(** The two fields of [VmaAllocationInfo] the constructor reads.
    [memoryType] is the index of the memory type the allocation came
    from. *)
Record VmaAllocationInfo := mkInfo {
  memoryType : Z;
  pMappedData : Z
}.

(** Calls into the allocator and the bulk operations on mapped memory. *)
Inductive Call :=
| vmaCreateBuffer (size usage : Z) (queueFamilyIndices : list Z) (flags memoryUsage : Z)
| vmaMapMemory (allocation : Z)
| vmaUnmapMemory (allocation : Z)
| vmaFlushAllocation (allocation offset size : Z)
| vmaDestroyBuffer (buffer allocation : Z)
| ranges_copy (dest : Z) (bytes : list byte)
| ranges_equal (dest : Z) (bytes : list byte).

Record Buffer := mk {
  size_ : Z;
  buffer_ : Z;
  allocation_ : Z;
  mappedData_ : Z;
  persistentlyMapped_ : bool
}.

Definition set_mappedData (p : Z) (b : Buffer) : Buffer :=
  mk (size_ b) (buffer_ b) (allocation_ b) p (persistentlyMapped_ b).

Definition set_handles (buf alloc : Z) (b : Buffer) : Buffer :=
  mk (size_ b) buf alloc (mappedData_ b) (persistentlyMapped_ b).

(** What the allocator answers to the calls of one constructor run. *)
Record Allocator := mkAllocator {
  create_result : Z;
  created_buffer : Z;
  created_allocation : Z;
  created_info : VmaAllocationInfo;
  map_result : Z;
  map_pointer : Z;
  flush_result : Z
}.

(** [MapMemory(void **data)]; the result is the object and [*data]. *)
Definition MapMemory (result pointer : Z) (b : Buffer) : Eff Call (Buffer * Z) :=
  if truthy (mappedData_ b) then ret (b, mappedData_ b)
  else
    do! emit (vmaMapMemory (allocation_ b)) in
    do! RenderSystem.CheckVkResult result in
    if negb (persistentlyMapped_ b) then ret (set_mappedData pointer b, pointer)
    else ret (b, pointer).

Definition UnmapMemory (b : Buffer) : Eff Call Buffer :=
  if persistentlyMapped_ b then ret b
  else if truthy (mappedData_ b) then
    do! emit (vmaUnmapMemory (allocation_ b)) in
    ret (set_mappedData nullptr b)
  else ret b.

Definition FlushMemory (result : Z) (offset size : Z) (b : Buffer) : Eff Call unit :=
  do! emit (vmaFlushAllocation (allocation_ b) offset size) in
  RenderSystem.CheckVkResult result.

(** [Buffer::Buffer(size, usage, memoryUsage, allocationFlags, data)].
    [queueFamily] holds the graphics, present and compute family of
    the logical device. *)
Definition Buffer_ctor (vma : Allocator) (queueFamily : list Z)
    (size usage memoryUsage allocationFlags : Z) (data : list byte) : Eff Call Buffer :=
  let host :=
    (memoryUsage =? VMA_MEMORY_USAGE_AUTO_PREFER_HOST)
    || truthy (Z.land allocationFlags VMA_ALLOCATION_CREATE_HOST_ACCESS_SEQUENTIAL_WRITE_BIT)
    || truthy (Z.land allocationFlags VMA_ALLOCATION_CREATE_HOST_ACCESS_RANDOM_BIT) in
  let flags := if host then Z.lor allocationFlags VMA_ALLOCATION_CREATE_MAPPED_BIT
               else allocationFlags in
  let persistentlyMapped := host in
  do! emit (vmaCreateBuffer size usage queueFamily flags memoryUsage) in
  do! RenderSystem.CheckVkResult (create_result vma) in
  let allocationInfo := created_info vma in
  let this :=
    mk size (created_buffer vma) (created_allocation vma)
       (if persistentlyMapped then pMappedData allocationInfo else nullptr)
       persistentlyMapped in
  match data with
  | [] => ret this
  | _ :: _ =>
      let mapped := mappedData_ this in
      let! (this, mapped) :=
        (if negb (truthy mapped) then MapMemory (map_result vma) (map_pointer vma) this
         else ret (this, mapped)) in
      do! emit (ranges_copy mapped data) in
      do! (if negb (truthy (Z.land (memoryType allocationInfo) VK_MEMORY_PROPERTY_HOST_COHERENT_BIT))
           then FlushMemory (flush_result vma) 0 VK_WHOLE_SIZE this
           else ret tt) in
      if negb (persistentlyMapped_ this) then UnmapMemory this else ret this
  end.

(** [Buffer::~Buffer()]: the trace and the members as the body leaves them. *)
Definition Buffer_dtor (b : Buffer) : Eff Call Buffer :=
  if negb (buffer_ b =? VK_NULL_HANDLE) then
    let! b := (if truthy (mappedData_ b) && negb (persistentlyMapped_ b)
               then UnmapMemory b else ret b) in
    do! emit (vmaDestroyBuffer (buffer_ b) (allocation_ b)) in
    ret (set_handles VK_NULL_HANDLE VK_NULL_HANDLE b)
  else ret b.

(** [Buffer::Buffer(Buffer &&other)]: the new object and [other] afterwards. *)
Definition Buffer_move (other : Buffer) : Buffer * Buffer :=
  let this := mk (size_ other) (buffer_ other) (allocation_ other)
                 (mappedData_ other) (persistentlyMapped_ other) in
  let other := mk 0 VK_NULL_HANDLE VK_NULL_HANDLE nullptr (persistentlyMapped_ other) in
  (this, other).

(** [IsMapped()] *)
Definition IsMapped (b : Buffer) : bool := truthy (mappedData_ b).

(** How often the trace frees a given buffer handle. *)
Definition destroys (h : Z) (c : Call) : bool :=
  match c with vmaDestroyBuffer b _ => b =? h | _ => false end.

Definition frees (h : Z) (tr : list Call) : nat :=
  length (List.filter (destroys h) tr).

Definition is_destroy (c : Call) : bool :=
  match c with vmaDestroyBuffer _ _ => true | _ => false end.

(** [VkPhysicalDeviceMemoryProperties::memoryTypes[i].propertyFlags],
    as a list indexed by memory type. *)
Definition host_coherent (memoryTypes : list Z) (info : VmaAllocationInfo) : bool :=
  match memoryTypes !! Z.to_nat (memoryType info) with
  | Some propertyFlags => truthy (Z.land propertyFlags VK_MEMORY_PROPERTY_HOST_COHERENT_BIT)
  | None => false
  end.

(** The initialisation sequence in the words of the specification: map
    unless persistently mapped, copy, flush when the memory type is
    not host-coherent, unmap unless persistent. *)
Definition initial_data_sequence_spec (memoryTypes : list Z) (persistent : bool)
    (allocation pointer : Z) (info : VmaAllocationInfo) (data : list byte) : list Call :=
  (if persistent then [] else [vmaMapMemory allocation])
  ++ [ranges_copy pointer data]
  ++ (if host_coherent memoryTypes info then [] else [vmaFlushAllocation allocation 0 VK_WHOLE_SIZE])
  ++ (if persistent then [] else [vmaUnmapMemory allocation]).

(** A device whose memory type 4 is host-visible and host-cached but
    not host-coherent, and an allocator that places a persistently
    mapped allocation there. *)
Definition cached_memoryTypes : list Z := [1; 6; 7; 14; 10].
Definition cached_allocator : Allocator :=
  mkAllocator VK_SUCCESS 11 22 (mkInfo 4 4096) VK_SUCCESS 4096 VK_SUCCESS.

(** On the same device, an allocator that places the allocation in
    memory type 1, which is host-visible and host-coherent. *)
Definition coherent_allocator : Allocator :=
  mkAllocator VK_SUCCESS 11 22 (mkInfo 1 4096) VK_SUCCESS 4096 VK_SUCCESS.

(** [Buffer &operator=(Buffer &&other)] for [this != &other]: the
    object and [other] afterwards.  (For [this == &other] the body is
    skipped.) *)
Definition Buffer_move_assign (this other : Buffer) : Eff Call (Buffer * Buffer) :=
  do! (if negb (buffer_ this =? VK_NULL_HANDLE) then
         let! this := (if truthy (mappedData_ this) && negb (persistentlyMapped_ this)
                       then UnmapMemory this else ret this) in
         emit (vmaDestroyBuffer (buffer_ this) (allocation_ this))
       else ret tt) in
  ret (mk (size_ other) (buffer_ other) (allocation_ other) (mappedData_ other)
          (persistentlyMapped_ other),
       mk 0 VK_NULL_HANDLE VK_NULL_HANDLE nullptr (persistentlyMapped_ other)).

(** [StorageBuffer::Update(std::span<const std::byte>)] and
    [InstanceBuffer::Update], which have the same body: map, copy,
    unmap. *)
Definition Update (map_result map_pointer : Z) (newData : list byte) (b : Buffer)
    : Eff Call Buffer :=
  let! (b, data) := MapMemory map_result map_pointer b in
  do! emit (ranges_copy data newData) in
  UnmapMemory b.

(** Whether the constructor asks for a persistently mapped allocation. *)
Definition host_access (memoryUsage allocationFlags : Z) : bool :=
  (memoryUsage =? VMA_MEMORY_USAGE_AUTO_PREFER_HOST)
  || truthy (Z.land allocationFlags VMA_ALLOCATION_CREATE_HOST_ACCESS_SEQUENTIAL_WRITE_BIT)
  || truthy (Z.land allocationFlags VMA_ALLOCATION_CREATE_HOST_ACCESS_RANDOM_BIT).

End Buffer.

(** ** Graphics/Devices/LogicalDevice.cpp *)

Module LogicalDevice.

(** [LogicalDevice::DeviceExtensions] *)
Definition DeviceExtensions : list string := [VK_KHR_SWAPCHAIN_EXTENSION_NAME].

Record VkQueueFamilyProperties := mkFamily {
  queueFlags : Z;
  queueCount : Z
}.

Definition has_flag (bit : Z) (q : VkQueueFamilyProperties) : bool :=
  truthy (Z.land (queueFlags q) bit).

(** The members that queue selection writes. *)
Record LogicalDevice := mk {
  supportedQueues : Z;
  GraphicsFamily : Z;
  presentFamily : Z;
  computeFamily : Z;
  transferFamily : Z
}.

(** Member initialisers of the class. *)
Definition initial : LogicalDevice := mk 0 0 0 0 0.

Definition GetGraphicsFamily (d : LogicalDevice) : Z := GraphicsFamily d.
Definition GetPresentFamily (d : LogicalDevice) : Z := presentFamily d.
Definition GetComputeFamily (d : LogicalDevice) : Z := computeFamily d.
Definition GetTransferFamily (d : LogicalDevice) : Z := transferFamily d.

(** The six [std::optional<uint32_t>] locals of [CreateQueueIndices]. *)
Record Locals := mkLocals {
  l_graphics : option Z;
  l_present : option Z;
  l_compute : option Z;
  l_transfer : option Z;
  l_dedicatedTransfer : option Z;
  l_dedicatedCompute : option Z
}.

Definition no_locals : Locals := mkLocals None None None None None None.

(** [if (opt)] on a [std::optional]. *)
Definition has_value (o : option Z) : bool :=
  match o with Some _ => true | None => false end.

Definition endl : string := String "010"%char EmptyString.

Inductive LogMsg := Info (text : string) | Warning (text : string).

(** One iteration of the loop over the queue families. *)
Definition visit (i : Z) (q : VkQueueFamilyProperties) (st : LogicalDevice * Locals)
    : LogicalDevice * Locals :=
  let '(this, loc) := st in
  let '(this, loc) :=
    if has_flag VK_QUEUE_GRAPHICS_BIT q && negb (has_value (l_graphics loc)) then
      (mk (Z.lor (supportedQueues this) VK_QUEUE_GRAPHICS_BIT) i (presentFamily this)
          (computeFamily this) (transferFamily this),
       mkLocals (Some i) (l_present loc) (l_compute loc) (l_transfer loc)
                (l_dedicatedTransfer loc) (l_dedicatedCompute loc))
    else (this, loc) in
  let '(this, loc) :=
    if (0 <? queueCount q) && has_flag VK_QUEUE_GRAPHICS_BIT q
       && negb (has_value (l_present loc)) then
      (mk (supportedQueues this) (GraphicsFamily this) i
          (computeFamily this) (transferFamily this),
       mkLocals (l_graphics loc) (Some i) (l_compute loc) (l_transfer loc)
                (l_dedicatedTransfer loc) (l_dedicatedCompute loc))
    else (this, loc) in
  let '(this, loc) :=
    if has_flag VK_QUEUE_COMPUTE_BIT q then
      let '(this, loc) :=
        if negb (has_value (l_compute loc)) then
          (mk (Z.lor (supportedQueues this) VK_QUEUE_COMPUTE_BIT) (GraphicsFamily this)
              (presentFamily this) i (transferFamily this),
           mkLocals (l_graphics loc) (l_present loc) (Some i) (l_transfer loc)
                    (l_dedicatedTransfer loc) (l_dedicatedCompute loc))
        else (this, loc) in
      if negb (has_value (l_dedicatedCompute loc))
         && negb (has_flag VK_QUEUE_GRAPHICS_BIT q) then
        (this,
         mkLocals (l_graphics loc) (l_present loc) (l_compute loc) (l_transfer loc)
                  (l_dedicatedTransfer loc) (Some i))
      else (this, loc)
    else (this, loc) in
  if has_flag VK_QUEUE_TRANSFER_BIT q then
    let '(this, loc) :=
      if negb (has_value (l_transfer loc)) then
        (mk (Z.lor (supportedQueues this) VK_QUEUE_TRANSFER_BIT) (GraphicsFamily this)
            (presentFamily this) (computeFamily this) i,
         mkLocals (l_graphics loc) (l_present loc) (l_compute loc) (Some i)
                  (l_dedicatedTransfer loc) (l_dedicatedCompute loc))
      else (this, loc) in
    if negb (has_value (l_dedicatedTransfer loc))
       && (queueFlags q =? VK_QUEUE_TRANSFER_BIT) then
      (this,
       mkLocals (l_graphics loc) (l_present loc) (l_compute loc) (l_transfer loc)
                (Some i) (l_dedicatedCompute loc))
    else (this, loc)
  else (this, loc).

(** [for (uint32_t i = 0; i < count; i++)], started at index [i]. *)
Fixpoint scan (i : Z) (families : list VkQueueFamilyProperties)
    (st : LogicalDevice * Locals) : LogicalDevice * Locals :=
  match families with
  | [] => st
  | q :: rest => scan (i + 1) rest (visit i q st)
  end.

(** [LogicalDevice::CreateQueueIndices()].  The result is the members
    as the function leaves them, how it leaves (return or throw), and
    what it logged. *)
Definition CreateQueueIndices (families : list VkQueueFamilyProperties)
    (this : LogicalDevice) : LogicalDevice * (outcome unit * list LogMsg) :=
  let '(this, loc) := scan 0 families (this, no_locals) in
  let '(this, log) :=
    match l_dedicatedCompute loc with
    | Some c =>
        (mk (supportedQueues this) (GraphicsFamily this) (presentFamily this) c
            (transferFamily this),
         [Info ("Using dedicated compute queue family" ++ endl)])
    | None => (this, [])
    end in
  let '(this, log) :=
    match l_dedicatedTransfer loc with
    | Some t =>
        (mk (supportedQueues this) (GraphicsFamily this) (presentFamily this)
            (computeFamily this) t,
         log ++ [Info ("Using dedicated transfer queue family" ++ endl)])
    | None => (this, log)
    end in
  (this,
   match l_graphics loc, l_present loc with
   | None, _ =>
       (Throw "Failed to find queue family supporting VK_QUEUE_GRAPHICS_BIT", log)
   | Some _, None =>
       (Throw "Failed to find queue family supporting present", log)
   | Some _, Some _ =>
       let log := if has_value (l_compute loc) then log
                  else log ++ [Warning ("No compute queue family found" ++ endl)] in
       let log := if has_value (l_transfer loc) then log
                  else log ++ [Warning ("No transfer queue family found" ++ endl)] in
       (Return (), log)
   end).

Record VkDeviceQueueCreateInfo := mkQueueInfo {
  queueFamilyIndex : Z;
  queueCreateCount : Z
}.

(** The first statements of [CreateLogicalDevice()]: the set of unique
    families and one queue-create-info for each. *)
Definition uniqueQueueFamilies (this : LogicalDevice) : gset Z :=
  {[GraphicsFamily this; presentFamily this; computeFamily this; transferFamily this]}.

Definition queueCreateInfos (this : LogicalDevice) : list VkDeviceQueueCreateInfo :=
  (λ f, mkQueueInfo f 1) <$> elements (uniqueQueueFamilies this).

(** The first index, counted from [i], of a family satisfying [P],
    unless [o] already holds one: what one optional local of the scan
    ends up holding. *)
Definition upd (c : bool) (i : Z) (o : option Z) : option Z :=
  match o with
  | Some x => Some x
  | None => if c then Some i else None
  end.

(** The value a member has after one iteration that may assign [i]. *)
Definition pick (c : bool) (i : Z) (o : option Z) (old : Z) : Z :=
  match o with
  | Some _ => old
  | None => if c then i else old
  end.

Fixpoint first_from (P : VkQueueFamilyProperties → bool) (i : Z)
    (families : list VkQueueFamilyProperties) (o : option Z) : option Z :=
  match families with
  | [] => o
  | q :: rest => first_from P (i + 1) rest (upd (P q) i o)
  end.

Definition is_graphics (q : VkQueueFamilyProperties) : bool :=
  has_flag VK_QUEUE_GRAPHICS_BIT q.
Definition is_present (q : VkQueueFamilyProperties) : bool :=
  (0 <? queueCount q) && has_flag VK_QUEUE_GRAPHICS_BIT q.
Definition is_compute (q : VkQueueFamilyProperties) : bool :=
  has_flag VK_QUEUE_COMPUTE_BIT q.
Definition is_dedicated_compute (q : VkQueueFamilyProperties) : bool :=
  has_flag VK_QUEUE_COMPUTE_BIT q && negb (has_flag VK_QUEUE_GRAPHICS_BIT q).
Definition is_transfer (q : VkQueueFamilyProperties) : bool :=
  has_flag VK_QUEUE_TRANSFER_BIT q.
Definition is_dedicated_transfer (q : VkQueueFamilyProperties) : bool :=
  has_flag VK_QUEUE_TRANSFER_BIT q && (queueFlags q =? VK_QUEUE_TRANSFER_BIT).

(** Families used in the examples. *)
Definition graphics_only : VkQueueFamilyProperties := mkFamily 1 1.
Definition graphics_compute : VkQueueFamilyProperties := mkFamily 7 16.
Definition compute_transfer : VkQueueFamilyProperties := mkFamily 6 2.
Definition transfer_only : VkQueueFamilyProperties := mkFamily 4 1.

End LogicalDevice.

(** The feature negotiation of [LogicalDevice::CreateLogicalDevice()]. *)

Module DeviceFeatures.
Import LogicalDevice.

Definition VK_TRUE : Z := 1.
Definition VK_FALSE : Z := 0.

(** The members of [VkPhysicalDeviceFeatures] and of
    [VkPhysicalDeviceVulkan11Features], [...12Features] and
    [...13Features] that the function reads or writes.  The member names
    of the four structures are disjoint. *)
Inductive Feature :=
| sampleRateShading
| fillModeNonSolid
| wideLines
| samplerAnisotropy
| textureCompressionBC
| textureCompressionASTC_LDR
| textureCompressionETC2
| vertexPipelineStoresAndAtomics
| fragmentStoresAndAtomics
| shaderStorageImageExtendedFormats
| shaderStorageImageWriteWithoutFormat
| geometryShader
| tessellationShader
| multiViewport
| shaderDrawParameters
| timelineSemaphore
| descriptorIndexing
| shaderSampledImageArrayNonUniformIndexing
| runtimeDescriptorArray
| descriptorBindingPartiallyBound
| descriptorBindingVariableDescriptorCount
| bufferDeviceAddress
| scalarBlockLayout
| hostQueryReset
| dynamicRendering
| synchronization2
| maintenance4.

#[global] Instance Feature_eq_dec : EqDecision Feature.
Proof. solve_decision. Defined.

(** The four feature structures together: a [VkBool32] for every
    member. *)
Definition Features : Type := Feature → Z.

(** [= {}] *)
Definition zero : Features := λ _, VK_FALSE.

(** [features.member = value] *)
Definition assign (member : Feature) (value : Z) (features : Features) : Features :=
  λ m, if bool_decide (m = member) then value else features m.

(** The requested features and the log, as the statements of the
    function thread them. *)
Definition Requested : Type := Features * list LogMsg.

(** [if (available.member) requested.member = VK_TRUE;] *)
Definition enable (available : Features) (member : Feature) (st : Requested) : Requested :=
  if truthy (available member) then (assign member VK_TRUE (fst st), snd st) else st.

(** [if (available.member) requested.member = VK_TRUE; else Log::Warning(text);] *)
Definition enable_or_warn (available : Features) (member : Feature) (text : string)
    (st : Requested) : Requested :=
  if truthy (available member) then (assign member VK_TRUE (fst st), snd st)
  else (fst st, snd st ++ [Warning (text ++ endl)]).

(** [if (available.member) { requested.member = VK_TRUE; Log::Info(text); }] *)
Definition enable_and_log (available : Features) (member : Feature) (text : string)
    (st : Requested) : Requested :=
  if truthy (available member) then
    (assign member VK_TRUE (fst st), snd st ++ [Info (text ++ endl)])
  else st.

(** [requested.member = available.member;] *)
Definition copy (available : Features) (member : Feature) (st : Requested) : Requested :=
  (assign member (available member) (fst st), snd st).

(** [if (available.fillModeNonSolid) { ...; if (available.wideLines) ... }
    else Log::Warning(...)] *)
Definition request_wireframe (available : Features) (st : Requested) : Requested :=
  if truthy (available fillModeNonSolid) then
    let st := (assign fillModeNonSolid VK_TRUE (fst st), snd st) in
    enable available wideLines st
  else
    (fst st, snd st ++ [Warning ("Selected GPU does not support wireframe pipelines!" ++ endl)]).

(** The [if / else if / else if] over the texture-compression formats. *)
Definition request_textureCompression (available : Features) (st : Requested) : Requested :=
  if truthy (available textureCompressionBC) then
    (assign textureCompressionBC VK_TRUE (fst st), snd st)
  else if truthy (available textureCompressionASTC_LDR) then
    (assign textureCompressionASTC_LDR VK_TRUE (fst st), snd st)
  else if truthy (available textureCompressionETC2) then
    (assign textureCompressionETC2 VK_TRUE (fst st), snd st)
  else st.

(** [if (vulkan12Features.descriptorIndexing) { ... }] *)
Definition request_descriptorIndexing (available : Features) (st : Requested) : Requested :=
  if truthy (available descriptorIndexing) then
    let st := (assign descriptorIndexing VK_TRUE (fst st), snd st) in
    let st := copy available shaderSampledImageArrayNonUniformIndexing st in
    let st := copy available runtimeDescriptorArray st in
    let st := copy available descriptorBindingPartiallyBound st in
    let st := copy available descriptorBindingVariableDescriptorCount st in
    (fst st, snd st ++ [Info ("Enabling descriptor indexing features" ++ endl)])
  else st.

(** The requested features of all four structures and the log after
    the negotiation, from the features [vkGetPhysicalDeviceFeatures2]
    reported. *)
Definition requestedFeatures (available : Features) : Requested :=
  let st : Requested := (zero, []) in
  let st := enable available sampleRateShading st in
  let st := request_wireframe available st in
  let st := enable_or_warn available samplerAnisotropy
              "Selected GPU does not support sampler anisotropy!" st in
  let st := request_textureCompression available st in
  let st := enable_or_warn available vertexPipelineStoresAndAtomics
              "Selected GPU does not support vertex pipeline stores and atomics!" st in
  let st := enable_or_warn available fragmentStoresAndAtomics
              "Selected GPU does not support fragment stores and atomics!" st in
  let st := enable_or_warn available shaderStorageImageExtendedFormats
              "Selected GPU does not support shader storage extended formats!" st in
  let st := enable_or_warn available shaderStorageImageWriteWithoutFormat
              "Selected GPU does not support shader storage write without format!" st in
  let st := enable_or_warn available geometryShader
              "Selected GPU does not support geometry shaders!" st in
  let st := enable_or_warn available tessellationShader
              "Selected GPU does not support tessellation shaders!" st in
  let st := enable_or_warn available multiViewport
              "Selected GPU does not support multi viewports!" st in
  let st := enable available shaderDrawParameters st in
  let st := enable_and_log available timelineSemaphore "Enabling timeline semaphores" st in
  let st := request_descriptorIndexing available st in
  let st := enable_and_log available bufferDeviceAddress "Enabling buffer device address" st in
  let st := enable_and_log available scalarBlockLayout "Enabling scalar block layout" st in
  let st := enable available hostQueryReset st in
  let st := enable_and_log available dynamicRendering "Enabling dynamic rendering" st in
  let st := enable_and_log available synchronization2 "Enabling synchronization2" st in
  enable available maintenance4 st.

(** No member is requested that the device did not report. *)
Definition sound (available requested : Features) : Prop :=
  ∀ m, truthy (requested m) = true → truthy (available m) = true.

(** The sub-features of descriptor indexing that are copied from the
    report. *)
Definition descriptorIndexing_members : list Feature :=
  [shaderSampledImageArrayNonUniformIndexing; runtimeDescriptorArray;
   descriptorBindingPartiallyBound; descriptorBindingVariableDescriptorCount].

(** The texture-compression members, in the order the function tries
    them. *)
Definition textureCompression : list Feature :=
  [textureCompressionBC; textureCompressionASTC_LDR; textureCompressionETC2].

(** A device report used in the examples: ASTC and ETC2 but no BC,
    wide lines without non-solid fill, and run-time descriptor arrays
    without descriptor indexing. *)
Definition mobile : Features :=
  λ m, match m with
       | textureCompressionASTC_LDR | textureCompressionETC2 | wideLines
       | runtimeDescriptorArray | samplerAnisotropy => VK_TRUE
       | _ => VK_FALSE
       end.

End DeviceFeatures.

(** ** Graphics/Devices/PhysicalDevice.cpp *)

Module PhysicalDevice.

Record VkMemoryHeap := mkHeap {
  heap_size : Z;
  heap_flags : Z
}.

(** What the driver reports about one [VkPhysicalDevice], restricted to
    the fields that [EnumeratePhysicalDevice] reads.  A [VkBool32] is a
    [Z]. *)
Record Device := mk {
  extensionProperties : list string;
  deviceType : Z;
  apiVersion : Z;
  timelineSemaphore : Z;
  descriptorIndexing : Z;
  bufferDeviceAddress : Z;
  dynamicRendering : Z;
  synchronization2 : Z;
  memoryHeaps : list VkMemoryHeap;
  maxImageDimension2D : Z;
  maxComputeWorkGroupCount0 : Z;
  geometryShader : Z;
  tessellationShader : Z;
  samplerAnisotropy : Z
}.

Definition with_deviceType (t : Z) (d : Device) : Device :=
  mk (extensionProperties d) t (apiVersion d) (timelineSemaphore d) (descriptorIndexing d)
     (bufferDeviceAddress d) (dynamicRendering d) (synchronization2 d) (memoryHeaps d)
     (maxImageDimension2D d) (maxComputeWorkGroupCount0 d) (geometryShader d)
     (tessellationShader d) (samplerAnisotropy d).

(** The fields are unsigned 32-bit and 64-bit integers. *)
Definition well_formed (d : Device) : Prop :=
  0 ≤ apiVersion d < UINT32_MOD ∧
  0 ≤ maxImageDimension2D d < UINT32_MOD ∧
  0 ≤ maxComputeWorkGroupCount0 d < UINT32_MOD.

(* vulkan_core.h *)
Definition VK_VERSION_MAJOR (version : Z) : Z := Z.shiftr (u32 version) 22.
Definition VK_VERSION_MINOR (version : Z) : Z := Z.land (Z.shiftr (u32 version) 12) 1023.

(** The loop over [LogicalDevice::DeviceExtensions]: every required
    name is compared with every available one. *)
Definition extension_found (required : string) (available : list string) : bool :=
  existsb (String.eqb required) available.

Definition required_extensions_present (d : Device) : bool :=
  forallb (λ r, extension_found r (extensionProperties d)) LogicalDevice.DeviceExtensions.

Definition add (score bonus : Z) : Z := u32 (score + bonus).

Definition add_if (c : bool) (bonus : Z) (score : Z) : Z :=
  if c then add score bonus else score.

Definition deviceType_score (t : Z) : Z :=
  if t =? VK_PHYSICAL_DEVICE_TYPE_DISCRETE_GPU then 10000
  else if t =? VK_PHYSICAL_DEVICE_TYPE_INTEGRATED_GPU then 1000
  else if t =? VK_PHYSICAL_DEVICE_TYPE_VIRTUAL_GPU then 500
  else if t =? VK_PHYSICAL_DEVICE_TYPE_CPU then 100
  else 50.

Definition apiVersion_score (version : Z) : Z :=
  let apiMajor := VK_VERSION_MAJOR version in
  let apiMinor := VK_VERSION_MINOR version in
  if 1 <=? apiMajor then
    if 3 <=? apiMinor then 300
    else if 2 <=? apiMinor then 200
    else if 1 <=? apiMinor then 100
    else 0
  else 0.

Definition totalVRAM (heaps : list VkMemoryHeap) : Z :=
  fold_left (λ total h,
               if truthy (Z.land (heap_flags h) VK_MEMORY_HEAP_DEVICE_LOCAL_BIT)
               then u64 (total + heap_size h) else total)
            heaps 0.

(** [PhysicalDevice::EnumeratePhysicalDevice] *)
Definition EnumeratePhysicalDevice (d : Device) : Z :=
  if negb (required_extensions_present d) then 0
  else
    let score := 0 in
    let score := add score (deviceType_score (deviceType d)) in
    let score := add score (apiVersion_score (apiVersion d)) in
    let score := add_if (truthy (timelineSemaphore d)) 50 score in
    let score := add_if (truthy (descriptorIndexing d)) 50 score in
    let score := add_if (truthy (bufferDeviceAddress d)) 50 score in
    let score := add_if (truthy (dynamicRendering d)) 50 score in
    let score := add_if (truthy (synchronization2 d)) 50 score in
    let score :=
      add score (u32 (u64 (Z.min (totalVRAM (memoryHeaps d) / (1024 * 1024 * 1024)) 16 * 10))) in
    let score := add score (maxImageDimension2D d / 1000) in
    let score := add_if (0 <? maxComputeWorkGroupCount0 d) 20 score in
    let score := add_if (truthy (geometryShader d)) 10 score in
    let score := add_if (truthy (tessellationShader d)) 10 score in
    if negb (truthy (samplerAnisotropy d)) then score / 2 else score.

(** A device that lacks the swapchain extension. *)
Definition headless : Device :=
  mk ["VK_KHR_maintenance1"%string] VK_PHYSICAL_DEVICE_TYPE_OTHER 4206592 1 1 1 1 1
     [mkHeap 8589934592 1] 16384 65535 1 1 1.

(** The same hardware with the swapchain extension. *)
Definition desktop : Device :=
  mk ["VK_KHR_maintenance1"%string; "VK_KHR_swapchain"%string]
     VK_PHYSICAL_DEVICE_TYPE_OTHER 4206592 1 1 1 1 1
     [mkHeap 8589934592 1] 16384 65535 1 1 1.

(** A [std::multimap<uint32_t, VkPhysicalDevice>] as the list of its
    elements in iteration order.  [insert] places the new element at
    the upper bound of its key: behind the elements whose key is not
    greater. *)
Fixpoint multimap_insert (key value : Z) (m : list (Z * Z)) : list (Z * Z) :=
  match m with
  | [] => [(key, value)]
  | (k, v) :: rest =>
      if key <? k then (key, value) :: m else (k, v) :: multimap_insert key value rest
  end.

(** [PhysicalDevice::ChoosePhysicalDevice]; [driver] answers the queries
    of [EnumeratePhysicalDevice] for a device handle. *)
Definition rank (driver : Z → Device) (rankedDevices : list (Z * Z)) (device : Z)
    : list (Z * Z) :=
  let score := EnumeratePhysicalDevice (driver device) in
  if 0 <? score then multimap_insert score device rankedDevices else rankedDevices.

Definition ChoosePhysicalDevice (driver : Z → Device) (devices : list Z) : Z :=
  let rankedDevices := fold_left (rank driver) devices [] in
  match last rankedDevices with
  | None => VK_NULL_HANDLE
  | Some (_, device) => device
  end.

(* VkSampleCountFlagBits *)
Definition VK_SAMPLE_COUNT_1_BIT : Z := 1.
Definition VK_SAMPLE_COUNT_2_BIT : Z := 2.
Definition VK_SAMPLE_COUNT_4_BIT : Z := 4.
Definition VK_SAMPLE_COUNT_8_BIT : Z := 8.
Definition VK_SAMPLE_COUNT_16_BIT : Z := 16.
Definition VK_SAMPLE_COUNT_32_BIT : Z := 32.
Definition VK_SAMPLE_COUNT_64_BIT : Z := 64.

Definition STAGE_FLAG_BITS : list Z :=
  [VK_SAMPLE_COUNT_64_BIT; VK_SAMPLE_COUNT_32_BIT; VK_SAMPLE_COUNT_16_BIT;
   VK_SAMPLE_COUNT_8_BIT; VK_SAMPLE_COUNT_4_BIT; VK_SAMPLE_COUNT_2_BIT].

(** [PhysicalDevice::GetMaxUsableSampleCount]; the arguments are
    [limits.framebufferColorSampleCounts] and
    [limits.framebufferDepthSampleCounts]. *)
Definition GetMaxUsableSampleCount (framebufferColorSampleCounts
    framebufferDepthSampleCounts : Z) : Z :=
  let counts := Z.min framebufferColorSampleCounts framebufferDepthSampleCounts in
  match List.find (λ sampleFlag, truthy (Z.land counts sampleFlag)) STAGE_FLAG_BITS with
  | Some sampleFlag => sampleFlag
  | None => VK_SAMPLE_COUNT_1_BIT
  end.

(** The best entry so far, as [rbegin()] of the ranked devices sees it. *)
Definition better (driver : Z → Device) (best : option (Z * Z)) (device : Z)
    : option (Z * Z) :=
  let score := EnumeratePhysicalDevice (driver device) in
  if 0 <? score then
    match best with
    | Some (k, v) => if score <? k then Some (k, v) else Some (score, device)
    | None => Some (score, device)
    end
  else best.

(** The iteration order of the multimap: keys never decrease. *)
Fixpoint ascending (m : list (Z * Z)) : Prop :=
  match m with
  | [] => True
  | a :: rest => (∀ b, b ∈ rest → fst a ≤ fst b) ∧ ascending rest
  end.

End PhysicalDevice.

(** ** Graphics/Shaders/Shader.hpp, Shader.cpp *)

Module Shader.

(** Conversion of an unsigned 32-bit value to [int32_t]. *)
Definition to_int32 (x : Z) : Z :=
  let y := u32 x in if y <? 2 ^ 31 then y else y - UINT32_MOD.

Record UniformInfo := mkUniformInfo {
  ui_binding : Z;
  ui_offset : Z;
  ui_size : Z;
  ui_type : Z;
  ui_stageFlags : Z;
  ui_readOnly : bool;
  ui_writeOnly : bool
}.

Record PushConstantRange := mkPushConstantRange {
  pc_offset : Z;
  pc_size : Z;
  pc_stageFlags : Z
}.

(** [Shader::UniformBlock::Type] *)
Inductive BlockType := TypeNone | TypeUniform | TypeStorage | TypePush.

Record UniformBlock := mkUniformBlock {
  ub_binding : Z;
  ub_size : Z;
  ub_stageFlags : Z;
  ub_type : BlockType;
  ub_uniforms : gmap string UniformInfo
}.

Definition GetSize (b : UniformBlock) : Z := ub_size b.

Record Attribute := mkAttribute {
  at_set : Z;
  at_location : Z;
  at_size : Z;
  at_format : Z
}.

#[global] Instance UniformInfo_eq_dec : EqDecision UniformInfo.
Proof. solve_decision. Defined.
#[global] Instance BlockType_eq_dec : EqDecision BlockType.
Proof. solve_decision. Defined.
#[global] Instance UniformBlock_eq_dec : EqDecision UniformBlock.
Proof. solve_decision. Defined.

Record VkDescriptorSetLayoutBinding := mkLayoutBinding {
  lb_binding : Z;
  lb_descriptorType : Z;
  lb_descriptorCount : Z;
  lb_stageFlags : Z
}.

Record VkDescriptorPoolSize := mkPoolSize {
  ps_type : Z;
  ps_descriptorCount : Z
}.

Record VkVertexInputAttributeDescription := mkAttributeDescription {
  ad_location : Z;
  ad_binding : Z;
  ad_format : Z;
  ad_offset : Z
}.

(** *** What SPIRV-Reflect reports for one module *)

Record SpvReflectBlockMember := mkMember {
  m_name : string;
  m_offset : Z;
  m_size : Z
}.

Record SpvReflectBlockVariable := mkBlock {
  blk_name : string;
  blk_offset : Z;
  blk_size : Z;
  blk_members : list SpvReflectBlockMember
}.

Record SpvReflectDescriptorBinding := mkBinding {
  b_name : string;
  b_binding : Z;
  b_descriptor_type : Z;
  b_block : SpvReflectBlockVariable;
  b_decoration_flags : Z;
  b_count : Z
}.

Record SpvReflectInterfaceVariable := mkVariable {
  v_name : string;
  v_location : Z;
  v_built_in : Z;
  v_scalar_width : Z;
  v_format : Z
}.

Record SpvReflectShaderModule := mkModule {
  descriptor_bindings : list SpvReflectDescriptorBinding;
  push_constant_blocks : list SpvReflectBlockVariable;
  input_variables : list SpvReflectInterfaceVariable
}.

(* spirv_reflect.h *)
Definition SPV_REFLECT_DECORATION_NON_WRITABLE : Z := 128.
Definition SPV_REFLECT_DECORATION_NON_READABLE : Z := 512.

(** *** The reflection data of a [Shader] *)

Record Shader := mk {
  uniforms : gmap string UniformInfo;
  uniformBlocks : gmap string UniformBlock;
  attributes : gmap string Attribute;
  pushConstants : list PushConstantRange;
  descriptorBindings : list VkDescriptorSetLayoutBinding;
  descriptorPools : list VkDescriptorPoolSize;
  attributeDescriptions : list VkVertexInputAttributeDescription;
  descriptorLocations : gmap string Z;
  descriptorSizes : gmap string Z;
  descriptorTypes : gmap Z Z;
  lastDescriptorBinding : Z
}.

(** A shader as its constructor leaves it. *)
Definition new_Shader : Shader := mk ∅ ∅ ∅ [] [] [] [] ∅ ∅ ∅ 0.

Definition set_uniforms (u : gmap string UniformInfo) (s : Shader) : Shader :=
  mk u (uniformBlocks s) (attributes s) (pushConstants s) (descriptorBindings s)
     (descriptorPools s) (attributeDescriptions s) (descriptorLocations s)
     (descriptorSizes s) (descriptorTypes s) (lastDescriptorBinding s).

Definition set_uniformBlocks (u : gmap string UniformBlock) (s : Shader) : Shader :=
  mk (uniforms s) u (attributes s) (pushConstants s) (descriptorBindings s)
     (descriptorPools s) (attributeDescriptions s) (descriptorLocations s)
     (descriptorSizes s) (descriptorTypes s) (lastDescriptorBinding s).

Definition set_descriptorBindings (l : list VkDescriptorSetLayoutBinding) (s : Shader) : Shader :=
  mk (uniforms s) (uniformBlocks s) (attributes s) (pushConstants s) l
     (descriptorPools s) (attributeDescriptions s) (descriptorLocations s)
     (descriptorSizes s) (descriptorTypes s) (lastDescriptorBinding s).

Definition set_descriptorPools (l : list VkDescriptorPoolSize) (s : Shader) : Shader :=
  mk (uniforms s) (uniformBlocks s) (attributes s) (pushConstants s) (descriptorBindings s)
     l (attributeDescriptions s) (descriptorLocations s)
     (descriptorSizes s) (descriptorTypes s) (lastDescriptorBinding s).

Definition set_pushConstants (l : list PushConstantRange) (s : Shader) : Shader :=
  mk (uniforms s) (uniformBlocks s) (attributes s) l (descriptorBindings s)
     (descriptorPools s) (attributeDescriptions s) (descriptorLocations s)
     (descriptorSizes s) (descriptorTypes s) (lastDescriptorBinding s).

Definition set_lastDescriptorBinding (b : Z) (s : Shader) : Shader :=
  mk (uniforms s) (uniformBlocks s) (attributes s) (pushConstants s) (descriptorBindings s)
     (descriptorPools s) (attributeDescriptions s) (descriptorLocations s)
     (descriptorSizes s) (descriptorTypes s) b.

Definition with_stageFlags (f : Z) (u : UniformInfo) : UniformInfo :=
  mkUniformInfo (ui_binding u) (ui_offset u) (ui_size u) (ui_type u) f
                (ui_readOnly u) (ui_writeOnly u).

(** [Shader::LoadUniformBlock] *)
Definition LoadUniformBlock (block : SpvReflectBlockVariable) (stage : Z) (s : Shader) : Shader :=
  let members :=
    fold_left (λ (m : gmap string UniformInfo) member,
                 <[m_name member :=
                     mkUniformInfo 0 (m_offset member) (m_size member)
                                   VK_DESCRIPTOR_TYPE_UNIFORM_BUFFER stage false false]> m)
              (blk_members block) ∅ in
  let uniformBlock :=
    mkUniformBlock (-1) (to_int32 (blk_size block)) stage TypeUniform members in
  set_uniformBlocks (<[blk_name block := uniformBlock]> (uniformBlocks s)) s.

(** [Shader::IncrementDescriptorPool]: [poolCounts[type]++] on a
    [std::map], kept as an association list in ascending key order. *)
Fixpoint IncrementDescriptorPool (poolCounts : list (Z * Z)) (type : Z) : list (Z * Z) :=
  match poolCounts with
  | [] => [(type, u32 (0 + 1))]
  | (t, c) :: rest =>
      if type =? t then (t, u32 (c + 1)) :: rest
      else if type <? t then (type, u32 (0 + 1)) :: (t, c) :: rest
      else (t, c) :: IncrementDescriptorPool rest type
  end.

(** [std::find_if] on the layout bindings followed by
    [bindingIt->stageFlags |= stage]; [None] when nothing is found. *)
Fixpoint merge_layout_stage (binding stage : Z) (l : list VkDescriptorSetLayoutBinding)
    : option (list VkDescriptorSetLayoutBinding) :=
  match l with
  | [] => None
  | x :: rest =>
      if lb_binding x =? binding then
        Some (mkLayoutBinding (lb_binding x) (lb_descriptorType x) (lb_descriptorCount x)
                              (Z.lor (lb_stageFlags x) stage) :: rest)
      else option_map (cons x) (merge_layout_stage binding stage rest)
  end.

(** The body of the loop over the reflected descriptor bindings. *)
Definition reflect_binding (stage : Z) (st : Shader * list (Z * Z))
    (binding : SpvReflectDescriptorBinding) : Shader * list (Z * Z) :=
  let '(s, descriptorPoolCounts) := st in
  let type := b_descriptor_type binding in
  let info :=
    mkUniformInfo (b_binding binding) 0 (blk_size (b_block binding)) type stage
      (truthy (Z.land (b_decoration_flags binding) SPV_REFLECT_DECORATION_NON_WRITABLE))
      (truthy (Z.land (b_decoration_flags binding) SPV_REFLECT_DECORATION_NON_READABLE)) in
  let s :=
    match uniforms s !! b_name binding with
    | Some found =>
        set_uniforms
          (<[b_name binding := with_stageFlags (Z.lor (ui_stageFlags found) stage) found]>
             (uniforms s)) s
    | None =>
        mk (<[b_name binding := info]> (uniforms s)) (uniformBlocks s) (attributes s)
           (pushConstants s) (descriptorBindings s) (descriptorPools s)
           (attributeDescriptions s)
           (<[b_name binding := b_binding binding]> (descriptorLocations s))
           (<[b_name binding := blk_size (b_block binding)]> (descriptorSizes s))
           (<[b_binding binding := type]> (descriptorTypes s))
           (lastDescriptorBinding s)
    end in
  let s := set_lastDescriptorBinding (Z.max (lastDescriptorBinding s) (b_binding binding)) s in
  let layoutBinding := mkLayoutBinding (b_binding binding) type (b_count binding) stage in
  let '(s, descriptorPoolCounts) :=
    match merge_layout_stage (b_binding binding) stage (descriptorBindings s) with
    | Some merged => (set_descriptorBindings merged s, descriptorPoolCounts)
    | None =>
        (set_descriptorBindings (descriptorBindings s ++ [layoutBinding]) s,
         IncrementDescriptorPool descriptorPoolCounts type)
    end in
  let s :=
    if (type =? VK_DESCRIPTOR_TYPE_UNIFORM_BUFFER) || (type =? VK_DESCRIPTOR_TYPE_STORAGE_BUFFER)
    then LoadUniformBlock (b_block binding) stage s
    else s in
  (s, descriptorPoolCounts).

(** The conversion of one pool count into [descriptorPools]. *)
Fixpoint add_pool_count (type count : Z) (pools : list VkDescriptorPoolSize)
    : list VkDescriptorPoolSize :=
  match pools with
  | [] => [mkPoolSize type count]
  | p :: rest =>
      if ps_type p =? type then mkPoolSize (ps_type p) (u32 (ps_descriptorCount p + count)) :: rest
      else p :: add_pool_count type count rest
  end.

(** The body of the loop over the push-constant blocks. *)
Fixpoint merge_push_constant (block : SpvReflectBlockVariable) (stage : Z)
    (ranges : list PushConstantRange) : list PushConstantRange :=
  match ranges with
  | [] => [mkPushConstantRange (blk_offset block) (blk_size block) stage]
  | r :: rest =>
      if (pc_offset r =? blk_offset block) && (pc_size r =? blk_size block) then
        mkPushConstantRange (pc_offset r) (pc_size r) (Z.lor (pc_stageFlags r) stage) :: rest
      else r :: merge_push_constant block stage rest
  end.

(** The body of the loop over the input variables of a vertex stage. *)
Definition reflect_input (s : Shader) (var : SpvReflectInterfaceVariable) : Shader :=
  if negb (v_built_in var =? -1) then s
  else
    let attr := mkAttribute 0 (to_int32 (v_location var))
                            (to_int32 (v_scalar_width var / 8)) (v_format var) in
    mk (uniforms s) (uniformBlocks s) (<[v_name var := attr]> (attributes s))
       (pushConstants s) (descriptorBindings s) (descriptorPools s)
       (attributeDescriptions s
          ++ [mkAttributeDescription (v_location var) 0 (v_format var) 0])
       (descriptorLocations s) (descriptorSizes s) (descriptorTypes s)
       (lastDescriptorBinding s).

(** [Shader::ReflectFromSPIRV].  [reflected] is the answer of
    [spvReflectCreateShaderModule]: [None] when it fails.  The guards
    [if (count > 0)] around the loops are left out, the loops doing
    nothing on an empty list. *)
Definition ReflectFromSPIRV (reflected : option SpvReflectShaderModule) (stage : Z)
    (s : Shader) : Shader :=
  match reflected with
  | None => s
  | Some reflectModule =>
      let '(s, descriptorPoolCounts) :=
        fold_left (reflect_binding stage) (descriptor_bindings reflectModule) (s, []) in
      let s :=
        set_descriptorPools
          (fold_left (λ pools tc, add_pool_count (fst tc) (snd tc) pools)
                     descriptorPoolCounts (descriptorPools s)) s in
      let s :=
        set_pushConstants
          (fold_left (λ ranges block, merge_push_constant block stage ranges)
                     (push_constant_blocks reflectModule) (pushConstants s)) s in
      if stage =? VK_SHADER_STAGE_VERTEX_BIT
      then fold_left reflect_input (input_variables reflectModule) s
      else s
  end.

(** *** Bookkeeping used in the proofs *)

(** The layout bindings with a given binding number. *)
Definition bindings_at (k : Z) (l : list VkDescriptorSetLayoutBinding)
    : list VkDescriptorSetLayoutBinding :=
  List.filter (λ x, lb_binding x =? k) l.

(** The stage flags a slot holds after one more stage is merged in;
    [None] stands for an absent slot. *)
Definition join (stage : Z) (o : option Z) : option Z :=
  Some (match o with None => stage | Some flags => Z.lor flags stage end).

(** [o] describes the layout bindings numbered [k]: none, or exactly
    one with the given stage flags. *)
Definition layout_slot (k : Z) (l : list VkDescriptorSetLayoutBinding) (o : option Z) : Prop :=
  match o with
  | None => bindings_at k l = []
  | Some flags => ∃ e, bindings_at k l = [e] ∧ lb_stageFlags e = flags
  end.

(** [o] describes the uniform named [n]. *)
Definition uniform_slot (n : string) (m : gmap string UniformInfo) (o : option Z) : Prop :=
  match o with
  | None => m !! n = None
  | Some flags => ∃ u, m !! n = Some u ∧ ui_stageFlags u = flags
  end.

(** How a slot evolves over the bindings of one stage. *)
Definition layout_track (k stage : Z) (o : option Z) (b : SpvReflectDescriptorBinding)
    : option Z :=
  if b_binding b =? k then join stage o else o.

Definition uniform_track (n : string) (stage : Z) (o : option Z)
    (b : SpvReflectDescriptorBinding) : option Z :=
  if bool_decide (b_name b = n) then join stage o else o.

(** The binding numbers of the set layout and the (offset, size) keys
    of the push-constant ranges. *)
Definition layout_keys (s : Shader) : list Z := lb_binding <$> descriptorBindings s.

Definition range_keys (ranges : list PushConstantRange) : list (Z * Z) :=
  (λ r, (pc_offset r, pc_size r)) <$> ranges.

(** What a well-formed set layout needs: no binding number twice, no
    push-constant range twice, and [lastDescriptorBinding] not below
    any binding number. *)
Definition layout_ok (s : Shader) : Prop :=
  NoDup (layout_keys s) ∧
  NoDup (range_keys (pushConstants s)) ∧
  ∀ k, k ∈ layout_keys s → k ≤ lastDescriptorBinding s.

(** Reflecting the stages of a program one after the other. *)
Definition reflect_stages (stages : list (option SpvReflectShaderModule * Z)) (s : Shader)
    : Shader :=
  fold_left (λ s r, ReflectFromSPIRV (fst r) (snd r) s) stages s.

(** The attribute description the vertex stage makes of an input. *)
Definition description_of (var : SpvReflectInterfaceVariable)
    : VkVertexInputAttributeDescription :=
  mkAttributeDescription (v_location var) 0 (v_format var) 0.

(** What [uniformBlocks] holds for a block loaded in [stage]. *)
Definition loaded_in (stage : Z) (n : string) (s : Shader) : Prop :=
  ∃ ub, uniformBlocks s !! n = Some ub ∧
        ub_stageFlags ub = stage ∧ ub_type ub = TypeUniform ∧ ub_binding ub = -1.

(** A storage buffer that only the compute stage declares. *)
Definition ParticleSSBO : SpvReflectDescriptorBinding :=
  mkBinding "Particles" 1 VK_DESCRIPTOR_TYPE_STORAGE_BUFFER
            (mkBlock "Particles" 0 4096 []) 0 1.

(** A uniform buffer used by the two stages of the examples. *)
Definition CameraUBO : SpvReflectDescriptorBinding :=
  mkBinding "CameraUBO" 0 VK_DESCRIPTOR_TYPE_UNIFORM_BUFFER
            (mkBlock "CameraUBO" 0 128 [mkMember "view" 0 64; mkMember "proj" 64 64]) 0 1.

End Shader.

(** ** Graphics/Buffers/StorageHandler.hpp, StorageHandler.cpp *)

#[global] Instance byte_eq_dec : EqDecision byte := Byte.byte_eq_dec.

(** A [StorageBuffer] or [UniformBuffer] as its handler sees it: the
    [Buffer] members and the bytes of the host-visible allocation the
    mapped pointer leads to. *)
Record HostBuffer := mkHostBuffer {
  base : Buffer.Buffer;
  memory : list byte
}.

Definition is_equal (c : Buffer.Call) : bool :=
  match c with Buffer.ranges_equal _ _ => true | _ => false end.
Definition is_copy (c : Buffer.Call) : bool :=
  match c with Buffer.ranges_copy _ _ => true | _ => false end.

(** How many comparisons and how many copies a trace holds. *)
Definition comparisons (tr : list Buffer.Call) : nat := length (List.filter is_equal tr).
Definition copies (tr : list Buffer.Call) : nat := length (List.filter is_copy tr).

(** [std::ranges::copy] of [src] to offset [offset] of a region. *)
Definition overwrite (offset : nat) (src region : list byte) : list byte :=
  take offset region ++ src ++ drop (offset + length src) region.

(** What one push does to a handler that holds a block and a buffer:
    [same] tells whether the pushed bytes equal the bytes of the
    destination range, [before] and [after] are the buffer contents,
    [ev] is the trace of the call. *)
Definition tracked (status : Buffer.Status) (same : bool) (offset : nat)
    (src before after : list byte) (status' : Buffer.Status) (ev : list Buffer.Call) : Prop :=
  if bool_decide (status = Buffer.Changed) then
    comparisons ev = 0%nat ∧ copies ev = 1%nat ∧
    after = overwrite offset src before ∧ status' = Buffer.Changed
  else if same then
    comparisons ev = 1%nat ∧ copies ev = 0%nat ∧ after = before ∧ status' = status
  else
    comparisons ev = 1%nat ∧ copies ev = 1%nat ∧
    after = overwrite offset src before ∧ status' = Buffer.Changed.

Module StorageHandler.
Import Buffer.

Record StorageHandler := mk {
  multipipeline_ : bool;
  uniformBlock_ : option Shader.UniformBlock;
  size_ : Z;
  data_ : Z;
  bound_ : bool;
  storageBuffer_ : option HostBuffer;
  handlerStatus_ : Status
}.

(** [StorageHandler(bool multipipeline)] *)
Definition StorageHandler_ctor (multipipeline : bool) : StorageHandler :=
  mk multipipeline None 0 nullptr false None Reset.

(** [StorageHandler(const UniformBlock &, bool)]; [fresh] is the buffer
    that [std::make_unique<StorageBuffer>(size_)] creates. *)
Definition StorageHandler_ctor_block (fresh : HostBuffer) (uniformBlock : Shader.UniformBlock)
    (multipipeline : bool) : StorageHandler :=
  mk multipipeline (Some uniformBlock) (u32 (Shader.GetSize uniformBlock)) nullptr false
     (Some fresh) Changed.

(** [if (!bound_) { buffer->MapMemory(&data_); bound_ = true; }] *)
Definition bind_memory (map_result map_pointer : Z) (is_bound : bool) (data : Z)
    (buffer : HostBuffer) : Eff Call (HostBuffer * Z) :=
  if negb is_bound then
    let! (b, p) := MapMemory map_result map_pointer (base buffer) in
    ret (mkHostBuffer b (memory buffer), p)
  else ret (buffer, data).

(** [Push(std::span<const std::byte> data)].  A range that leaves the
    allocation is undefined behaviour in C++ and is reported as a
    throw. *)
Definition Push (map_result map_pointer : Z) (data : list byte) (h : StorageHandler)
    : Eff Call StorageHandler :=
  if negb (size_ h =? Z.of_nat (length data)) then
    ret (mk (multipipeline_ h) (uniformBlock_ h) (u32 (Z.of_nat (length data))) (data_ h)
            (bound_ h) (storageBuffer_ h) Reset)
  else
    match uniformBlock_ h, storageBuffer_ h with
    | Some _, Some buffer =>
        let! (buffer, data_) := bind_memory map_result map_pointer (bound_ h) (data_ h) buffer in
        let dest := data_ in
        if negb (length data <=? length (memory buffer))%nat then
          raise "undefined behaviour: range outside the allocation"
        else
          let! differs :=
            (if bool_decide (handlerStatus_ h = Changed) then ret true
             else
               do! emit (ranges_equal dest data) in
               ret (negb (bool_decide (take (length data) (memory buffer) = data)))) in
          if (differs : bool) then
            do! emit (ranges_copy dest data) in
            ret (mk (multipipeline_ h) (uniformBlock_ h) (size_ h) data_ true
                    (Some (mkHostBuffer (base buffer) (overwrite 0 data (memory buffer))))
                    Changed)
          else
            ret (mk (multipipeline_ h) (uniformBlock_ h) (size_ h) data_ true
                    (Some buffer) (handlerStatus_ h))
    | _, _ => ret h
    end.

(* VkBufferUsageFlagBits *)
Definition VK_BUFFER_USAGE_TRANSFER_DST_BIT : Z := 2.
Definition VK_BUFFER_USAGE_STORAGE_BUFFER_BIT : Z := 32.

(** The circumstances of a buffer construction: what the allocator
    answers, the queue families of the logical device, the bytes the
    new allocation starts with, and the allocation flags the base
    constructor receives. *)
Record Creation := mkCreation {
  vma : Allocator;
  queueFamily : list Z;
  allocationFlags : Z;
  uninit : list byte
}.

(** [StorageBuffer::StorageBuffer(size, data)] (StorageBuffer.cpp): the
    base constructor with usage [TRANSFER_DST | STORAGE_BUFFER] and, in
    the place of the memory usage, [HOST_VISIBLE | HOST_COHERENT].  The
    call gives the base constructor four arguments, the span last, where
    Buffer.hpp declares the allocation flags fourth and the data fifth;
    the span is passed on as the data, and the allocation flags, which
    the call does not name, are those of the circumstances. *)
Definition StorageBuffer_ctor (env : Creation) (size : Z) (data : list byte)
    : Eff Call HostBuffer :=
  let! b := Buffer_ctor (vma env) (queueFamily env) size
              (Z.lor VK_BUFFER_USAGE_TRANSFER_DST_BIT VK_BUFFER_USAGE_STORAGE_BUFFER_BIT)
              (Z.lor VK_MEMORY_PROPERTY_HOST_VISIBLE_BIT VK_MEMORY_PROPERTY_HOST_COHERENT_BIT)
              (allocationFlags env) data in
  ret (mkHostBuffer b (overwrite 0 data (uninit env))).

(** [storageBuffer_ = std::make_unique<StorageBuffer>(size_)]: the new
    buffer is constructed first; the assignment then destroys the
    buffer it replaces, if there is one. *)
Definition replace_buffer (env : Creation) (size : Z) (replaced : option HostBuffer)
    : Eff Call HostBuffer :=
  let! fresh := StorageBuffer_ctor env size [] in
  do! (match replaced with
       | Some old => do! Buffer_dtor (base old) in ret tt
       | None => ret tt
       end) in
  ret fresh.

(** [Update(const std::optional<UniformBlock> &)].  Reading the size of
    an empty optional is undefined behaviour and is reported as a
    throw. *)
Definition Update (env : Creation) (uniformBlock : option Shader.UniformBlock)
    (h : StorageHandler) : Eff Call (bool * StorageHandler) :=
  if bool_decide (handlerStatus_ h = Reset)
     || (multipipeline_ h && negb (bool_decide (is_Some (uniformBlock_ h))))
     || (negb (multipipeline_ h) && negb (bool_decide (uniformBlock_ h = uniformBlock)))
  then
    let! size :=
      (if ((size_ h =? 0) && negb (bool_decide (is_Some (uniformBlock_ h))))
          || match uniformBlock_ h with
             | Some own => negb (bool_decide (uniformBlock_ h = uniformBlock))
                           && (u32 (Shader.GetSize own) =? size_ h)
             | None => false
             end
       then match uniformBlock with
            | Some given => ret (u32 (Shader.GetSize given))
            | None => raise "undefined behaviour: empty optional dereferenced"
            end
       else ret (size_ h)) in
    let! fresh := replace_buffer env size (storageBuffer_ h) in
    ret (false, mk (multipipeline_ h) uniformBlock size (data_ h) false (Some fresh) Changed)
  else if negb (bool_decide (handlerStatus_ h = Normal)) then
    let! buffer :=
      (match bound_ h, storageBuffer_ h with
       | true, Some buffer =>
           let! b := UnmapMemory (base buffer) in ret (Some (mkHostBuffer b (memory buffer)))
       | true, None => raise "undefined behaviour: null pointer dereferenced"
       | false, other => ret other
       end) in
    ret (true, mk (multipipeline_ h) (uniformBlock_ h) (size_ h) (data_ h) false buffer Normal)
  else ret (true, h).

(** The buffer a successful construction gives, the allocator call it
    makes, and the calls the destructor of a replaced buffer makes. *)
Definition created (env : Creation) (size : Z) : HostBuffer :=
  let host :=
    host_access (Z.lor VK_MEMORY_PROPERTY_HOST_VISIBLE_BIT VK_MEMORY_PROPERTY_HOST_COHERENT_BIT)
                (allocationFlags env) in
  mkHostBuffer
    (Buffer.mk size (created_buffer (vma env)) (created_allocation (vma env))
               (if host then pMappedData (created_info (vma env)) else nullptr) host)
    (uninit env).

Definition creation_call (env : Creation) (size : Z) : Call :=
  let host :=
    host_access (Z.lor VK_MEMORY_PROPERTY_HOST_VISIBLE_BIT VK_MEMORY_PROPERTY_HOST_COHERENT_BIT)
                (allocationFlags env) in
  vmaCreateBuffer size
    (Z.lor VK_BUFFER_USAGE_TRANSFER_DST_BIT VK_BUFFER_USAGE_STORAGE_BUFFER_BIT)
    (queueFamily env)
    (if host then Z.lor (allocationFlags env) VMA_ALLOCATION_CREATE_MAPPED_BIT
     else allocationFlags env)
    (Z.lor VK_MEMORY_PROPERTY_HOST_VISIBLE_BIT VK_MEMORY_PROPERTY_HOST_COHERENT_BIT).

Definition destruction (replaced : option HostBuffer) : list Call :=
  match replaced with
  | None => []
  | Some old =>
      let b := base old in
      if buffer_ b =? VK_NULL_HANDLE then []
      else (if truthy (mappedData_ b) && negb (persistentlyMapped_ b)
            then [vmaUnmapMemory (allocation_ b)] else [])
           ++ [vmaDestroyBuffer (buffer_ b) (allocation_ b)]
  end.

(** A block and buffers used in the examples. *)
Definition lights : Shader.UniformBlock :=
  Shader.mkUniformBlock 1 16 VK_SHADER_STAGE_FRAGMENT_BIT Shader.TypeUniform ∅.
Definition four_bytes : HostBuffer :=
  mkHostBuffer (Buffer.mk 4 11 22 4096 true) [x00; x00; x00; x00].

(** The circumstances of the [n]-th buffer construction of the
    examples: the allocator succeeds with handles of its own and four
    zero bytes of host-visible memory. *)
Definition creation (n : Z) : Creation :=
  mkCreation (mkAllocator VK_SUCCESS (10 + n) (30 + n) (mkInfo 1 nullptr)
                          VK_SUCCESS 4096 VK_SUCCESS)
             [0; 0; 0] 0 [x00; x00; x00; x00].

(** The handler after: construction without a block, a push of four
    bytes, an update with a block, and two updates without one. *)
Definition unblocked : outcome StorageHandler :=
  fst (run (let! h := Push VK_SUCCESS 4096 [x00; x00; x00; x00] (StorageHandler_ctor false) in
            let! (_, h) := Update (creation 1) (Some lights) h in
            let! (_, h) := Update (creation 2) None h in
            let! (_, h) := Update (creation 3) None h in
            ret h)).

End StorageHandler.

(** ** Graphics/Buffers/UniformHandler.hpp, UniformHandler.cpp *)

Module UniformHandler.
Import Buffer.

Record UniformHandler := mk {
  multipipeline_ : bool;
  uniformBlock_ : option Shader.UniformBlock;
  size_ : Z;
  data_ : Z;
  bound_ : bool;
  uniformBuffer_ : option HostBuffer;
  handlerStatus_ : Status
}.

(** [UniformHandler(bool multipipeline)] *)
Definition UniformHandler_ctor (multipipeline : bool) : UniformHandler :=
  mk multipipeline None 0 nullptr false None Normal.

(** [UniformHandler(const UniformBlock &, bool)] *)
Definition UniformHandler_ctor_block (fresh : HostBuffer) (uniformBlock : Shader.UniformBlock)
    (multipipeline : bool) : UniformHandler :=
  mk multipipeline (Some uniformBlock) (u32 (Shader.GetSize uniformBlock)) nullptr false
     (Some fresh) Normal.

(** [Push(const T &object, std::size_t offset, std::size_t size)];
    [object] is the object representation of the argument. *)
Definition Push (map_result map_pointer : Z) (object : list byte) (offset size : nat)
    (h : UniformHandler) : Eff Call UniformHandler :=
  match uniformBlock_ h, uniformBuffer_ h with
  | Some _, Some buffer =>
      let! (buffer, data_) :=
        StorageHandler.bind_memory map_result map_pointer (bound_ h) (data_ h) buffer in
      let dest := data_ + Z.of_nat offset in
      let src := object in
      let copySize := Nat.min size (length src) in
      if negb (offset + copySize <=? length (memory buffer))%nat then
        raise "undefined behaviour: range outside the allocation"
      else
        let! differs :=
          (if bool_decide (handlerStatus_ h = Changed) then ret true
           else
             do! emit (ranges_equal dest (take copySize src)) in
             ret (negb (bool_decide (take copySize (drop offset (memory buffer))
                                     = take copySize src)))) in
        if (differs : bool) then
          do! emit (ranges_copy dest (take copySize src)) in
          ret (mk (multipipeline_ h) (uniformBlock_ h) (size_ h) data_ true
                  (Some (mkHostBuffer (base buffer)
                           (overwrite offset (take copySize src) (memory buffer))))
                  Changed)
        else
          ret (mk (multipipeline_ h) (uniformBlock_ h) (size_ h) data_ true
                  (Some buffer) (handlerStatus_ h))
  | _, _ => ret h
  end.

End UniformHandler.

(** ** Graphics/Shaders/ShaderBundle.hpp *)

Module ShaderBundle.

Definition BUNDLE_MAGIC : Z := 1397245010.  (* 0x53484452, 'SHDR' *)
Definition BUNDLE_VERSION : Z := 1.

(** *** Bytes, words and C strings *)

Definition Z_of_byte (b : byte) : Z := Z.of_N (Byte.to_N b).

Definition byte_of_Z (x : Z) : byte :=
  match Byte.of_N (Z.to_N (x mod 256)) with
  | Some b => b
  | None => x00
  end.

(** The object representation of a [uint32_t] on a little-endian host. *)
Definition le32 (x : Z) : list byte :=
  [byte_of_Z x; byte_of_Z (x / 256); byte_of_Z (x / 65536); byte_of_Z (x / 16777216)].

Definition read_le32 (bytes : list byte) : Z :=
  Z_of_byte (nth 0 bytes x00) + 256 * Z_of_byte (nth 1 bytes x00)
  + 65536 * Z_of_byte (nth 2 bytes x00) + 16777216 * Z_of_byte (nth 3 bytes x00).

(** The [uint32_t] field at byte offset [at_] of a struct. *)
Definition field32 (at_ : nat) (struct : list byte) : Z :=
  read_le32 (take 4 (drop at_ struct)).

Definition bytes_of_words (words : list Z) : list byte := concat (le32 <$> words).

Fixpoint words_of_bytes (count : nat) (bytes : list byte) : list Z :=
  match count with
  | O => []
  | S count => read_le32 (take 4 bytes) :: words_of_bytes count (drop 4 bytes)
  end.

(** The characters of a C string: everything before the first NUL. *)
Fixpoint c_str (bytes : list byte) : list byte :=
  match bytes with
  | [] => []
  | c :: rest => if bool_decide (c = x00) then [] else c :: c_str rest
  end.

(** A [char[n]] field that was zeroed and then filled by
    [strncpy(field, str.c_str(), n - 1)]. *)
Definition strncpy_field (n : nat) (str : string) : list byte :=
  let copied := take (n - 1) (c_str (list_byte_of_string str)) in
  copied ++ replicate (n - length copied) x00.

(** [n] bytes of indeterminate content. *)
Definition fit (n : nat) (bytes : list byte) : list byte :=
  take n (bytes ++ replicate n x00).

(** [std::vector<char>::resize(n)] *)
Definition resize (n : nat) (bytes : list byte) : list byte :=
  take n bytes ++ replicate (n - length bytes) x00.

(** [istream::read(buffer, n)] on the rest of a stream: the bytes that
    are there are stored, the remainder of the buffer keeps its
    content, and after a short read the stream yields nothing more. *)
Definition read (n : nat) (buffer stream : list byte) : list byte * list byte :=
  let got := take n stream in
  (got ++ drop (length got) buffer, drop n stream).

(** *** The bundle *)

Record Entry := mkEntry {
  name : string;
  entryPoint : string;
  stage : Z;
  offset : Z;
  size : Z;
  nameHash : Z
}.

Record ShaderBundle := mk {
  data_ : list byte;
  entries_ : list Entry;
  hashToIndex_ : gmap Z nat
}.

(** [ShaderBundle() = default] *)
Definition empty : ShaderBundle := mk [] [] ∅.

(** [static_cast<uint32_t>(c)] for a [char], which is signed on the
    hosts the engine targets. *)
Definition uint32_of_char (c : byte) : Z :=
  let v := Z_of_byte c in if v <? 128 then v else u32 (v - 256).

(** [hashString]: FNV-1a over the characters of the string. *)
Definition hashString (str : string) : Z :=
  fold_left (λ hash c, u32 (Z.lxor hash (uint32_of_char c) * 16777619))
            (list_byte_of_string str) 2166136261.

Definition makeKey (nameHash stage : Z) : Z :=
  Z.lxor nameHash (u32 (Z.shiftl (u32 stage) 24)).

Definition addShader (name : string) (stage : Z) (spirv : list Z) (entryPoint : string)
    (b : ShaderBundle) : ShaderBundle :=
  let entry :=
    mkEntry name entryPoint stage
            (u32 (Z.of_nat (length (data_ b))))
            (u32 (Z.of_nat (length spirv) * 4))
            (hashString name) in
  let data := data_ b ++ take (Z.to_nat (size entry)) (bytes_of_words spirv) in
  let key := makeKey (nameHash entry) stage in
  mk data (entries_ b ++ [entry]) (<[key := length (entries_ b)]> (hashToIndex_ b)).

(** The result of a lookup: [std::nullopt], a vector, or undefined
    behaviour (an index or a byte range outside its container). *)
Inductive Lookup := nullopt | Found (spirv : list Z) | Undefined.

Definition getShaderByHash (nameHash stage : Z) (b : ShaderBundle) : Lookup :=
  let key := makeKey nameHash stage in
  match hashToIndex_ b !! key with
  | None => nullopt
  | Some index =>
      match entries_ b !! index with
      | None => Undefined
      | Some entry =>
          let count := Z.to_nat (size entry / 4) in
          let bytes := Z.to_nat (size entry) in
          if (Z.to_nat (offset entry) + bytes <=? length (data_ b))%nat
             && (bytes <=? 4 * count)%nat
          then Found (words_of_bytes count (take bytes (drop (Z.to_nat (offset entry)) (data_ b))))
          else Undefined
      end
  end.

Definition getShader (name : string) (stage : Z) (b : ShaderBundle) : Lookup :=
  getShaderByHash (hashString name) stage b.

Definition hasShader (name : string) (stage : Z) (b : ShaderBundle) : bool :=
  bool_decide (is_Some (hashToIndex_ b !! makeKey (hashString name) stage)).

Definition clear (b : ShaderBundle) : ShaderBundle := mk [] [] ∅.

(** *** The file format *)

Definition sizeof_header : nat := 32.
Definition sizeof_entry : nat := 336.

(** A [ShaderBundleEntry] as [save] fills it. *)
Definition diskEntry_of (entry : Entry) : list byte :=
  le32 (nameHash entry) ++ le32 (u32 (stage entry)) ++ le32 (offset entry) ++ le32 (size entry)
  ++ strncpy_field 256 (name entry) ++ strncpy_field 64 (entryPoint entry).

(** [save]: the bytes written, or [None] when the file cannot be
    opened.  [reserved] stands for the content of the header's
    [reserved] array, which [save] never initialises. *)
Definition save (opened : bool) (reserved : list byte) (b : ShaderBundle)
    : bool * option (list byte) :=
  if negb opened then (false, None)
  else
    let header :=
      le32 BUNDLE_MAGIC ++ le32 BUNDLE_VERSION
      ++ le32 (u32 (Z.of_nat (length (entries_ b))))
      ++ le32 (u32 (Z.of_nat (length (data_ b))))
      ++ fit 16 reserved in
    (true, Some (header ++ concat (diskEntry_of <$> entries_ b) ++ data_ b)).

(** The [Entry] made from a [ShaderBundleEntry] that was read.  The
    strings run to the first NUL; the search stops at the end of the
    record, beyond which C++ gives no meaning to it. *)
Definition entry_of (diskEntry : list byte) : Entry :=
  mkEntry (string_of_list_byte (c_str (drop 16 diskEntry)))
          (string_of_list_byte (c_str (drop 272 diskEntry)))
          (field32 4 diskEntry) (field32 8 diskEntry) (field32 12 diskEntry)
          (field32 0 diskEntry).

(** The loop of [load] over the entry records, [i] being the loop
    counter; [uninit k] is the content the [k]-th uninitialised local
    starts with. *)
Fixpoint load_entries (count : nat) (i : nat) (uninit : nat → list byte)
    (stream : list byte) (entries : list Entry) (index : gmap Z nat)
    : list Entry * gmap Z nat * list byte :=
  match count with
  | O => (entries, index, stream)
  | S count =>
      let '(diskEntry, stream) := read sizeof_entry (fit sizeof_entry (uninit (S i))) stream in
      let entry := entry_of diskEntry in
      let key := makeKey (nameHash entry) (stage entry) in
      load_entries count (S i) uninit stream (entries ++ [entry])
                   (<[key := length entries]> index)
  end.

(** [load]; [file] is the content of the file, [None] when it cannot
    be opened. *)
Definition load (file : option (list byte)) (uninit : nat → list byte) (b : ShaderBundle)
    : bool * ShaderBundle :=
  match file with
  | None => (false, b)
  | Some stream =>
      let '(header, stream) := read sizeof_header (fit sizeof_header (uninit 0%nat)) stream in
      if negb (field32 0 header =? BUNDLE_MAGIC) || negb (field32 4 header =? BUNDLE_VERSION)
      then (false, b)
      else
        let '(entries, index, stream) :=
          load_entries (Z.to_nat (field32 8 header)) 0 uninit stream [] ∅ in
        let dataSize := Z.to_nat (field32 12 header) in
        let '(data, _) := read dataSize (resize dataSize (data_ b)) stream in
        (true, mk data entries index)
  end.

(** *** Bundles that the format can hold *)



(** The hash index that inserting the entries in order produces. *)
Fixpoint index_from (i : nat) (entries : list Entry) (index : gmap Z nat) : gmap Z nat :=
  match entries with
  | [] => index
  | entry :: rest =>
      index_from (S i) rest (<[makeKey (nameHash entry) (stage entry) := i]> index)
  end.


(** One call of [addShader]. *)
Record Shader := mkShader {
  s_name : string;
  s_stage : Z;
  s_spirv : list Z;
  s_entryPoint : string
}.

Definition add (b : ShaderBundle) (s : Shader) : ShaderBundle :=
  addShader (s_name s) (s_stage s) (s_spirv s) (s_entryPoint s) b.

Definition build (shaders : list Shader) : ShaderBundle := fold_left add shaders empty.

Definition key_of (s : Shader) : Z := makeKey (hashString (s_name s)) (s_stage s).



(** The entries and the blob that adding [shaders] to a bundle with
    [off] bytes of data produces, as long as no size wraps. *)
Definition entry_at (off : nat) (s : Shader) : Entry :=
  mkEntry (s_name s) (s_entryPoint s) (s_stage s) (Z.of_nat off)
          (Z.of_nat (length (s_spirv s)) * 4) (hashString (s_name s)).



(** The two shaders of the round-trip example. *)
Definition vs_main : Shader :=
  mkShader "vs_main" VK_SHADER_STAGE_VERTEX_BIT [119734787; 65536; 4294967295] "main".
Definition fs_main : Shader :=
  mkShader "fs_main" VK_SHADER_STAGE_FRAGMENT_BIT [119734787; 66816] "main".


(** [getShaderCount()] *)
Definition getShaderCount (b : ShaderBundle) : nat := length (entries_ b).

End ShaderBundle.

(** * Properties *)

(** ** Command buffer guards *)

Module CommandBufferFacts.
Import CommandBuffer.

Lemma Begin_running driver usage cb tr :
  running cb = true → Begin driver usage cb tr = (Return cb, tr).
Proof. intros Hr. unfold Begin. now rewrite Hr. Qed.

Lemma End_not_running driver cb tr :
  running cb = false → End_ driver cb tr = (Return cb, tr).
Proof. intros Hr. unfold End_. now rewrite Hr. Qed.

(** C9. [Begin] on a command buffer that is already running returns the
    same object, makes no driver call and does not throw, whatever the
    driver would have answered; [End] on a command buffer that is not
    running likewise.  Otherwise [Begin] makes one
    [vkBeginCommandBuffer] call and leaves the command buffer running,
    and [End] makes one [vkEndCommandBuffer] call and leaves it not
    running (the driver call succeeding); handle and queue type are
    kept. *)
Theorem Begin_End_guards (cb : CommandBuffer.CommandBuffer) (usage driver : Z) (tr : list Call) :
  (running cb = true → Begin driver usage cb tr = (Return cb, tr)) ∧
  (running cb = false → End_ driver cb tr = (Return cb, tr)) ∧
  (running cb = false →
     Begin VK_SUCCESS usage cb tr =
       (Return (mk (commandBuffer cb) (queueType cb) true),
        tr ++ [vkBeginCommandBuffer (commandBuffer cb) usage]) ∧
     ∀ cb' tr', Begin VK_SUCCESS usage cb tr = (Return cb', tr') → running cb' = true) ∧
  (running cb = true →
     End_ VK_SUCCESS cb tr =
       (Return (mk (commandBuffer cb) (queueType cb) false),
        tr ++ [vkEndCommandBuffer (commandBuffer cb)]) ∧
     ∀ cb' tr', End_ VK_SUCCESS cb tr = (Return cb', tr') → running cb' = false).
Proof.
  split; [|split; [|split]]; intros Hr.
  - now apply Begin_running.
  - now apply End_not_running.
  - assert (H : Begin VK_SUCCESS usage cb tr =
                (Return (mk (commandBuffer cb) (queueType cb) true),
                 tr ++ [vkBeginCommandBuffer (commandBuffer cb) usage])).
    { unfold Begin. now rewrite Hr. }
    split; [exact H|]. intros cb' tr'. rewrite H. now intros [= <- _].
  - assert (H : End_ VK_SUCCESS cb tr =
                (Return (mk (commandBuffer cb) (queueType cb) false),
                 tr ++ [vkEndCommandBuffer (commandBuffer cb)])).
    { unfold End_. now rewrite Hr. }
    split; [exact H|]. intros cb' tr'. rewrite H. now intros [= <- _].
Qed.

Lemma Begin_End_guards_witness :
  Begin (-4) 0 (mk 7 VK_QUEUE_GRAPHICS_BIT true) []
    = (Return (mk 7 VK_QUEUE_GRAPHICS_BIT true), []) ∧
  End_ (-4) (mk 7 VK_QUEUE_GRAPHICS_BIT false) []
    = (Return (mk 7 VK_QUEUE_GRAPHICS_BIT false), []) ∧
  Begin VK_SUCCESS 0 (mk 7 VK_QUEUE_GRAPHICS_BIT false) []
    = (Return (mk 7 VK_QUEUE_GRAPHICS_BIT true), [] ++ [vkBeginCommandBuffer 7 0]) ∧
  End_ VK_SUCCESS (mk 7 VK_QUEUE_GRAPHICS_BIT true) []
    = (Return (mk 7 VK_QUEUE_GRAPHICS_BIT false), [] ++ [vkEndCommandBuffer 7]).
Proof.
  destruct (Begin_End_guards (mk 7 VK_QUEUE_GRAPHICS_BIT true) 0 (-4) [])
    as (H1 & _ & _ & H4).
  destruct (Begin_End_guards (mk 7 VK_QUEUE_GRAPHICS_BIT false) 0 (-4) [])
    as (_ & H2 & H3 & _).
  split; [apply H1; reflexivity|]. split; [apply H2; reflexivity|].
  split; [apply H3; reflexivity|apply H4; reflexivity].
Defined.

End CommandBufferFacts.

(** ** Buffer construction, move and destruction *)

Module BufferFacts.
Import Buffer.

Lemma truthy_false x : truthy x = false ↔ x = 0.
Proof. unfold truthy. destruct (Z.eqb_spec x 0); simpl; split; congruence. Qed.

Lemma truthy_true x : truthy x = true ↔ x ≠ 0.
Proof. unfold truthy. destruct (Z.eqb_spec x 0); simpl; split; congruence. Qed.

(** The constructor's trace when every allocator call succeeds and
    initial data is given: the flush is decided by bit 2 of the memory
    type _index_. *)
Lemma Buffer_ctor_trace vma queueFamily size usage memoryUsage allocationFlags x data :
  create_result vma = VK_SUCCESS →
  map_result vma = VK_SUCCESS →
  flush_result vma = VK_SUCCESS →
  map_pointer vma ≠ nullptr →
  let host :=
    (memoryUsage =? VMA_MEMORY_USAGE_AUTO_PREFER_HOST)
    || truthy (Z.land allocationFlags VMA_ALLOCATION_CREATE_HOST_ACCESS_SEQUENTIAL_WRITE_BIT)
    || truthy (Z.land allocationFlags VMA_ALLOCATION_CREATE_HOST_ACCESS_RANDOM_BIT) in
  let info := created_info vma in
  let premapped := host && truthy (pMappedData info) in
  let pointer := if premapped then pMappedData info else map_pointer vma in
  let alloc := created_allocation vma in
  snd (run (Buffer_ctor vma queueFamily size usage memoryUsage allocationFlags (x :: data))) =
    [vmaCreateBuffer size usage queueFamily
       (if host then Z.lor allocationFlags VMA_ALLOCATION_CREATE_MAPPED_BIT else allocationFlags)
       memoryUsage]
    ++ (if premapped then [] else [vmaMapMemory alloc])
    ++ [ranges_copy pointer (x :: data)]
    ++ (if truthy (Z.land (memoryType info) VK_MEMORY_PROPERTY_HOST_COHERENT_BIT)
        then [] else [vmaFlushAllocation alloc 0 VK_WHOLE_SIZE])
    ++ (if host then [] else [vmaUnmapMemory alloc]).
Proof.
  intros Hc Hm Hf Hp host info premapped pointer alloc.
  apply truthy_true in Hp.
  unfold Buffer_ctor. fold host info. subst premapped pointer alloc.
  clearbody host info.
  unfold run, bind, emit, RenderSystem.CheckVkResult, MapMemory,
    FlushMemory, UnmapMemory, ret.
  rewrite Hc, Hm, Hf.
  destruct host, (truthy (pMappedData info)) eqn:Hq,
    (truthy (Z.land (memoryType info) VK_MEMORY_PROPERTY_HOST_COHERENT_BIT)) eqn:Hl;
    cbn; change (truthy nullptr) with false;
    rewrite ?Hq, ?Hp, ?Hl; cbn; rewrite ?Hq, ?Hp, ?Hl; reflexivity.
Qed.

(** C1. The constructor decides the flush from the memory type index
    and not from the properties of that memory type.  On a device whose
    memory type 4 is host-visible and cached but not coherent, a
    persistently mapped buffer constructed with initial data is copied
    into and never flushed, where the documented sequence flushes; and
    an allocation in the coherent memory type 1 is flushed, where the
    documented sequence does not. *)
Theorem Buffer_ctor_flush_follows_type_index :
  let data := [x01; x02; x03; x04] in
  (host_coherent cached_memoryTypes (created_info cached_allocator) = false ∧
   run (Buffer_ctor cached_allocator [0; 0; 0] 4 16 VMA_MEMORY_USAGE_AUTO
          VMA_ALLOCATION_CREATE_HOST_ACCESS_RANDOM_BIT data) =
     (Return (mk 4 11 22 4096 true),
      [vmaCreateBuffer 4 16 [0; 0; 0] 2052 VMA_MEMORY_USAGE_AUTO; ranges_copy 4096 data]) ∧
   initial_data_sequence_spec cached_memoryTypes true 22 4096
     (created_info cached_allocator) data =
     [ranges_copy 4096 data; vmaFlushAllocation 22 0 VK_WHOLE_SIZE]) ∧
  (host_coherent cached_memoryTypes (created_info coherent_allocator) = true ∧
   run (Buffer_ctor coherent_allocator [0; 0; 0] 4 16 VMA_MEMORY_USAGE_AUTO
          VMA_ALLOCATION_CREATE_HOST_ACCESS_RANDOM_BIT data) =
     (Return (mk 4 11 22 4096 true),
      [vmaCreateBuffer 4 16 [0; 0; 0] 2052 VMA_MEMORY_USAGE_AUTO; ranges_copy 4096 data;
       vmaFlushAllocation 22 0 VK_WHOLE_SIZE]) ∧
   initial_data_sequence_spec cached_memoryTypes true 22 4096
     (created_info coherent_allocator) data =
     [ranges_copy 4096 data]).
Proof. repeat split. Qed.

Lemma Buffer_dtor_empty b tr :
  buffer_ b = VK_NULL_HANDLE → Buffer_dtor b tr = (Return b, tr).
Proof. intros H. unfold Buffer_dtor. rewrite H. reflexivity. Qed.

Lemma Buffer_dtor_owner b tr :
  buffer_ b ≠ VK_NULL_HANDLE →
  ∃ b' tr', Buffer_dtor b tr = (Return b', tr ++ tr') ∧
    List.filter is_destroy tr' = [vmaDestroyBuffer (buffer_ b) (allocation_ b)] ∧
    buffer_ b' = VK_NULL_HANDLE.
Proof.
  intros H. unfold Buffer_dtor.
  destruct (Z.eqb_spec (buffer_ b) VK_NULL_HANDLE) as [e|_]; [contradiction|].
  unfold bind, emit, UnmapMemory, ret. cbn.
  destruct (truthy (mappedData_ b)) eqn:Hm, (persistentlyMapped_ b) eqn:Hp; cbn;
    rewrite ?Hm, ?Hp; cbn.
  - eexists _, [_]. repeat split.
  - eexists _, [_; _]. rewrite <- app_assoc. repeat split.
  - eexists _, [_]. repeat split.
  - eexists _, [_]. repeat split.
Qed.

(** C8. Move construction leaves the source with a null handle, a null
    allocation and a null mapped pointer, so that its destructor makes
    no allocator call; the new object holds the three original values;
    and when the source owned a buffer, running both destructors (in
    either order) destroys that buffer exactly once. *)
Theorem Buffer_move_transfers_ownership (b1 : Buffer.Buffer) :
  let b2 := fst (Buffer_move b1) in
  let b1' := snd (Buffer_move b1) in
  (buffer_ b1' = VK_NULL_HANDLE ∧ allocation_ b1' = VK_NULL_HANDLE ∧
   mappedData_ b1' = nullptr ∧ IsMapped b1' = false) ∧
  (buffer_ b2 = buffer_ b1 ∧ allocation_ b2 = allocation_ b1 ∧
   mappedData_ b2 = mappedData_ b1) ∧
  (∀ tr, Buffer_dtor b1' tr = (Return b1', tr)) ∧
  (buffer_ b1 ≠ VK_NULL_HANDLE →
   ∀ order : bool,
     let both :=
       if order then (do! Buffer_dtor b2 in do! Buffer_dtor b1' in ret ())
       else (do! Buffer_dtor b1' in do! Buffer_dtor b2 in ret ()) in
     ∃ tr, run both = (Return (), tr) ∧
       List.filter is_destroy tr = [vmaDestroyBuffer (buffer_ b1) (allocation_ b1)] ∧
       frees (buffer_ b1) tr = 1%nat).
Proof.
  cbn. repeat split.
  intros Hown order.
  set (b2 := mk _ _ _ _ _). set (b1' := mk 0 _ _ _ _).
  destruct (Buffer_dtor_owner b2 [] Hown) as (b2' & tr' & Hd & Hf & _).
  assert (Hfrees : frees (buffer_ b1) tr' = 1%nat).
  { unfold frees.
    assert (Hsub : List.filter (destroys (buffer_ b1)) tr' =
                   List.filter (destroys (buffer_ b1)) (List.filter is_destroy tr')).
    { clear. induction tr' as [|c tr IH]; [reflexivity|].
      destruct c; cbn; try exact IH.
      destruct (buffer =? buffer_ b1); cbn; now rewrite IH. }
    rewrite Hsub, Hf. cbn. now rewrite Z.eqb_refl. }
  exists tr'. destruct order; unfold run, bind.
  - rewrite Hd. cbn. auto.
  - unfold ret at 1. rewrite Hd. cbn. auto.
Qed.

Lemma Buffer_move_transfers_ownership_witness :
  let b1 := mk 64 11 22 4096 false in
  ∃ tr, run (do! Buffer_dtor (fst (Buffer_move b1)) in
             do! Buffer_dtor (snd (Buffer_move b1)) in ret ()) = (Return (), tr) ∧
    List.filter is_destroy tr = [vmaDestroyBuffer 11 22] ∧ frees 11 tr = 1%nat.
Proof.
  intros b1.
  destruct (Buffer_move_transfers_ownership b1) as (_ & _ & _ & H).
  apply (H ltac:(discriminate) true).
Defined.

End BufferFacts.

(** ** Queue-family selection *)

Module LogicalDeviceFacts.
Import LogicalDevice.

(** One iteration, field by field. *)
Lemma visit_locals i q this loc :
  snd (visit i q (this, loc)) =
    mkLocals (upd (is_graphics q) i (l_graphics loc))
             (upd (is_present q) i (l_present loc))
             (upd (is_compute q) i (l_compute loc))
             (upd (is_transfer q) i (l_transfer loc))
             (upd (is_dedicated_transfer q) i (l_dedicatedTransfer loc))
             (upd (is_dedicated_compute q) i (l_dedicatedCompute loc)).
Proof.
  unfold visit, is_graphics, is_present, is_compute, is_transfer,
    is_dedicated_transfer, is_dedicated_compute.
  destruct loc as [g p c t dt dc].
  destruct (has_flag VK_QUEUE_GRAPHICS_BIT q), (has_flag VK_QUEUE_COMPUTE_BIT q),
    (has_flag VK_QUEUE_TRANSFER_BIT q), (0 <? queueCount q),
    (queueFlags q =? VK_QUEUE_TRANSFER_BIT);
    destruct g, p, c, t, dt, dc; reflexivity.
Qed.

Lemma visit_members i q this loc :
  let this' := fst (visit i q (this, loc)) in
  GraphicsFamily this' = pick (is_graphics q) i (l_graphics loc) (GraphicsFamily this) ∧
  presentFamily this' = pick (is_present q) i (l_present loc) (presentFamily this) ∧
  computeFamily this' = pick (is_compute q) i (l_compute loc) (computeFamily this) ∧
  transferFamily this' = pick (is_transfer q) i (l_transfer loc) (transferFamily this).
Proof.
  unfold visit, pick, is_graphics, is_present, is_compute, is_transfer.
  destruct loc as [g p c t dt dc].
  destruct (has_flag VK_QUEUE_GRAPHICS_BIT q), (has_flag VK_QUEUE_COMPUTE_BIT q),
    (has_flag VK_QUEUE_TRANSFER_BIT q), (0 <? queueCount q),
    (queueFlags q =? VK_QUEUE_TRANSFER_BIT);
    destruct g, p, c, t, dt, dc; cbn; auto.
Qed.

(** The whole loop, field by field. *)
Lemma scan_locals families : ∀ i st,
  snd (scan i families st) =
    mkLocals (first_from is_graphics i families (l_graphics (snd st)))
             (first_from is_present i families (l_present (snd st)))
             (first_from is_compute i families (l_compute (snd st)))
             (first_from is_transfer i families (l_transfer (snd st)))
             (first_from is_dedicated_transfer i families (l_dedicatedTransfer (snd st)))
             (first_from is_dedicated_compute i families (l_dedicatedCompute (snd st))).
Proof.
  induction families as [|q rest IH]; intros i [this loc]; cbn [scan first_from].
  - now destruct loc.
  - rewrite IH, visit_locals. reflexivity.
Qed.

Lemma first_from_Some P families : ∀ i x, first_from P i families (Some x) = Some x.
Proof. induction families; intros; cbn; auto. Qed.

Lemma first_from_absent P families : ∀ i,
  (∀ q, q ∈ families → P q = false) → first_from P i families None = None.
Proof.
  induction families as [|q rest IH]; intros i Hall; cbn; [reflexivity|].
  rewrite (Hall q) by constructor. apply IH. intros q' Hq'. apply Hall. now constructor.
Qed.

Lemma first_from_found P families : ∀ i,
  (∃ q, q ∈ families ∧ P q = true) →
  ∃ (k : nat) q, first_from P i families None = Some (i + Z.of_nat k) ∧
    families !! k = Some q ∧ P q = true ∧
    ∀ (k' : nat) q', (k' < k)%nat → families !! k' = Some q' → P q' = false.
Proof.
  induction families as [|q rest IH]; intros i (q0 & Hin & HP).
  - inversion Hin.
  - cbn [first_from upd]. destruct (P q) eqn:HPq.
    + exists 0%nat, q. rewrite first_from_Some. repeat split; auto.
      * f_equal. lia.
      * intros k' q' Hlt. lia.
    + assert (Hrest : ∃ q, q ∈ rest ∧ P q = true).
      { inversion Hin; subst; [congruence|eauto]. }
      destruct (IH (i + 1) Hrest) as (k & q1 & Hf & Hl & HP1 & Hmin).
      exists (S k), q1. repeat split; auto.
      * rewrite Hf. f_equal. lia.
      * intros [|k'] q' Hlt Hq'; cbn in Hq'.
        -- congruence.
        -- apply (Hmin k'); [lia|assumption].
Qed.

Lemma first_from_is_Some P families : ∀ i,
  has_value (first_from P i families None) = true ↔ ∃ q, q ∈ families ∧ P q = true.
Proof.
  intros i. split.
  - intros H. destruct (existsb P families) eqn:He.
    + apply existsb_exists in He as (q & Hin & HP). exists q. split; [|assumption].
      now apply list_elem_of_In.
    + rewrite first_from_absent in H; [discriminate|].
      intros q Hq. destruct (P q) eqn:HP; [|reflexivity].
      assert (existsb P families = true); [|congruence].
      apply existsb_exists. exists q. split; [|assumption]. now apply list_elem_of_In.
  - intros Hex. destruct (first_from_found P families i Hex) as (k & q & -> & _). reflexivity.
Qed.

(** A member written by the loop keeps its old value if the matching
    local was already set or no family qualifies, and otherwise holds
    the first qualifying index. *)
Lemma scan_computeFamily families : ∀ i this loc,
  computeFamily (fst (scan i families (this, loc))) =
    match l_compute loc with
    | Some _ => computeFamily this
    | None => default (computeFamily this) (first_from is_compute i families None)
    end.
Proof.
  induction families as [|q rest IH]; intros i this loc; cbn [scan first_from].
  - now destruct (l_compute loc).
  - destruct (visit i q (this, loc)) as [this' loc'] eqn:Hv.
    pose proof (visit_members i q this loc) as (_ & _ & Hc & _).
    pose proof (visit_locals i q this loc) as Hl.
    rewrite Hv in Hc, Hl. cbn in Hc, Hl. subst loc'. rewrite IH. cbn.
    unfold pick in Hc. unfold upd.
    destruct (l_compute loc); [assumption|].
    destruct (is_compute q); [|now rewrite Hc].
    rewrite first_from_Some. cbn. assumption.
Qed.

Lemma scan_transferFamily families : ∀ i this loc,
  transferFamily (fst (scan i families (this, loc))) =
    match l_transfer loc with
    | Some _ => transferFamily this
    | None => default (transferFamily this) (first_from is_transfer i families None)
    end.
Proof.
  induction families as [|q rest IH]; intros i this loc; cbn [scan first_from].
  - now destruct (l_transfer loc).
  - destruct (visit i q (this, loc)) as [this' loc'] eqn:Hv.
    pose proof (visit_members i q this loc) as (_ & _ & _ & Hc).
    pose proof (visit_locals i q this loc) as Hl.
    rewrite Hv in Hc, Hl. cbn in Hc, Hl. subst loc'. rewrite IH. cbn.
    unfold pick in Hc. unfold upd.
    destruct (l_transfer loc); [assumption|].
    destruct (is_transfer q); [|now rewrite Hc].
    rewrite first_from_Some. cbn. assumption.
Qed.

Lemma scan_from_start families this :
  ∃ this', scan 0 families (this, no_locals) =
    (this',
     mkLocals (first_from is_graphics 0 families None)
              (first_from is_present 0 families None)
              (first_from is_compute 0 families None)
              (first_from is_transfer 0 families None)
              (first_from is_dedicated_transfer 0 families None)
              (first_from is_dedicated_compute 0 families None)) ∧
    computeFamily this' =
      default (computeFamily this) (first_from is_compute 0 families None) ∧
    transferFamily this' =
      default (transferFamily this) (first_from is_transfer 0 families None).
Proof.
  pose proof (scan_locals families 0 (this, no_locals)) as Hl.
  pose proof (scan_computeFamily families 0 this no_locals) as Hc.
  pose proof (scan_transferFamily families 0 this no_locals) as Ht.
  destruct (scan 0 families (this, no_locals)) as [this' loc'].
  cbn in Hl, Hc, Ht. subst loc'. exists this'. auto.
Qed.

(** The compute member after [CreateQueueIndices]. *)
Lemma CreateQueueIndices_computeFamily families this :
  computeFamily (fst (CreateQueueIndices families this)) =
    match first_from is_dedicated_compute 0 families None with
    | Some c => c
    | None => default (computeFamily this) (first_from is_compute 0 families None)
    end.
Proof.
  unfold CreateQueueIndices.
  destruct (scan_from_start families this) as (this' & -> & Hc & _). cbn.
  destruct (first_from is_dedicated_compute 0 families None),
    (first_from is_dedicated_transfer 0 families None); cbn; auto.
Qed.

Lemma CreateQueueIndices_transferFamily families this :
  transferFamily (fst (CreateQueueIndices families this)) =
    match first_from is_dedicated_transfer 0 families None with
    | Some t => t
    | None => default (transferFamily this) (first_from is_transfer 0 families None)
    end.
Proof.
  unfold CreateQueueIndices.
  destruct (scan_from_start families this) as (this' & -> & _ & Ht). cbn.
  destruct (first_from is_dedicated_compute 0 families None),
    (first_from is_dedicated_transfer 0 families None); cbn; auto.
Qed.

(** How [CreateQueueIndices] leaves, and what it logs when it returns. *)
Lemma CreateQueueIndices_outcome families this :
  snd (CreateQueueIndices families this) =
    let log :=
      (if has_value (first_from is_dedicated_compute 0 families None)
       then [Info ("Using dedicated compute queue family" ++ endl)] else [])
      ++ (if has_value (first_from is_dedicated_transfer 0 families None)
          then [Info ("Using dedicated transfer queue family" ++ endl)] else []) in
    if negb (has_value (first_from is_graphics 0 families None)) then
      (Throw "Failed to find queue family supporting VK_QUEUE_GRAPHICS_BIT", log)
    else if negb (has_value (first_from is_present 0 families None)) then
      (Throw "Failed to find queue family supporting present", log)
    else
      (Return (),
       log
       ++ (if has_value (first_from is_compute 0 families None) then []
           else [Warning ("No compute queue family found" ++ endl)])
       ++ (if has_value (first_from is_transfer 0 families None) then []
           else [Warning ("No transfer queue family found" ++ endl)])).
Proof.
  unfold CreateQueueIndices.
  destruct (scan_from_start families this) as (this' & -> & _ & _). cbn.
  destruct (first_from is_dedicated_compute 0 families None),
    (first_from is_dedicated_transfer 0 families None),
    (first_from is_graphics 0 families None),
    (first_from is_present 0 families None),
    (first_from is_compute 0 families None),
    (first_from is_transfer 0 families None); reflexivity.
Qed.

Lemma present_is_graphics q : is_present q = true → is_graphics q = true.
Proof. unfold is_present, is_graphics. intros H. now apply andb_true_iff in H. Qed.

(** The function returns exactly when some graphics family has a queue. *)
Lemma CreateQueueIndices_returns families this :
  fst (snd (CreateQueueIndices families this)) = Return () ↔
  ∃ q, q ∈ families ∧ is_present q = true.
Proof.
  rewrite CreateQueueIndices_outcome. cbv zeta.
  rewrite <- (first_from_is_Some is_present families 0).
  destruct (has_value (first_from is_graphics 0 families None)) eqn:Hg; cbn.
  - destruct (has_value (first_from is_present 0 families None)); cbn; split;
      congruence.
  - split; [discriminate|]. intros Hp.
    apply first_from_is_Some in Hp as (q & Hin & Hq).
    assert (has_value (first_from is_graphics 0 families None) = true); [|congruence].
    apply first_from_is_Some. exists q. split; [assumption|]. now apply present_is_graphics.
Qed.

(** C3. When the list holds a graphics+compute family and a family
    with compute but without graphics, the compute member is written
    with the index of the first compute-without-graphics family,
    whatever compute-capable family came first.  The selection then
    returns normally, except on a list none of whose graphics families
    has a queue, where it throws for the missing present family. *)
Theorem dedicated_compute_family_preferred
    (families : list VkQueueFamilyProperties) (this : LogicalDevice.LogicalDevice) :
  (∃ q, q ∈ families ∧ is_graphics q = true ∧ is_compute q = true) →
  (∃ q, q ∈ families ∧ is_compute q = true ∧ is_graphics q = false) →
  ∃ (k : nat) q,
    GetComputeFamily (fst (CreateQueueIndices families this)) = Z.of_nat k ∧
    families !! k = Some q ∧ is_compute q = true ∧ is_graphics q = false ∧
    (∀ (k' : nat) q', (k' < k)%nat → families !! k' = Some q' →
       is_compute q' = true → is_graphics q' = true) ∧
    (fst (snd (CreateQueueIndices families this)) = Return () ∨
     fst (snd (CreateQueueIndices families this)) =
       Throw "Failed to find queue family supporting present" ∧
     ∀ q', q' ∈ families → is_graphics q' = true → queueCount q' ≤ 0).
Proof.
  intros (qg & Hgin & Hg & _) (qc & Hcin & Hc & Hng).
  destruct (first_from_found is_dedicated_compute families 0) as (k & q & Hf & Hl & HP & Hmin).
  { exists qc. split; [assumption|]. unfold is_dedicated_compute.
    unfold is_compute, is_graphics in *. now rewrite Hc, Hng. }
  exists k, q. unfold GetComputeFamily.
  rewrite CreateQueueIndices_computeFamily, Hf.
  unfold is_dedicated_compute in HP. apply andb_true_iff in HP as [HP1 HP2].
  apply negb_true_iff in HP2.
  repeat split; auto.
  - intros k' q' Hlt Hq' Hcq'. specialize (Hmin k' q' Hlt Hq').
    unfold is_dedicated_compute in Hmin. unfold is_compute in Hcq'. rewrite Hcq' in Hmin.
    cbn in Hmin. now apply negb_false_iff in Hmin.
  - rewrite CreateQueueIndices_outcome. cbv zeta.
    assert (Hgs : has_value (first_from is_graphics 0 families None) = true).
    { apply first_from_is_Some. eauto. }
    rewrite Hgs. cbn.
    destruct (has_value (first_from is_present 0 families None)) eqn:Hp; cbn; [now left|].
    right. split; [reflexivity|]. intros q' Hin' Hg'.
    destruct (Z.ltb_spec 0 (queueCount q')) as [Hpos|]; [|assumption].
    assert (has_value (first_from is_present 0 families None) = true); [|congruence].
    apply first_from_is_Some. exists q'. split; [assumption|].
    unfold is_present. unfold is_graphics in Hg'. rewrite Hg'.
    apply Z.ltb_lt in Hpos. now rewrite Hpos.
Qed.

Lemma dedicated_compute_family_preferred_witness :
  ∃ (k : nat) q,
    GetComputeFamily
      (fst (CreateQueueIndices [graphics_compute; transfer_only; compute_transfer] initial))
      = Z.of_nat k ∧
    [graphics_compute; transfer_only; compute_transfer] !! k = Some q ∧
    is_compute q = true ∧ is_graphics q = false.
Proof.
  destruct (dedicated_compute_family_preferred
              [graphics_compute; transfer_only; compute_transfer] initial)
    as (k & q & H1 & H2 & H3 & H4 & _).
  - exists graphics_compute. split; [constructor|]. split; reflexivity.
  - exists compute_transfer. split; [do 2 constructor; constructor|]. split; reflexivity.
  - exists k, q. auto.
Defined.

Lemma family_0_requested this :
  computeFamily this = 0 ∨ transferFamily this = 0 →
  0 ∈ uniqueQueueFamilies this ∧ mkQueueInfo 0 1 ∈ queueCreateInfos this.
Proof.
  intros H.
  assert (Hin : 0 ∈ uniqueQueueFamilies this).
  { unfold uniqueQueueFamilies. destruct H as [<-| <-]; set_solver. }
  split; [assumption|].
  unfold queueCreateInfos. apply list_elem_of_fmap. exists 0. split; [reflexivity|].
  now apply elem_of_elements.
Qed.

(** C10. On a freshly constructed logical device, when no family is
    compute-capable the selection returns exactly when it would
    otherwise (some graphics family has a queue), logging a warning;
    the compute member keeps its initial value, so [GetComputeFamily]
    answers 0, the set of unique families holds 0 and a queue of family
    0 is requested.  The same holds for a missing transfer family.  A
    list whose family 0 is compute-capable yields the same answer 0. *)
Theorem absent_role_reads_as_family_0 (families : list VkQueueFamilyProperties) :
  let r := CreateQueueIndices families initial in
  let this := fst r in
  ((∀ q, q ∈ families → is_compute q = false) →
     GetComputeFamily this = 0 ∧
     (fst (snd r) = Return () ↔ ∃ q, q ∈ families ∧ is_present q = true) ∧
     (fst (snd r) = Return () →
        Warning ("No compute queue family found" ++ endl) ∈ snd (snd r) ∧
        0 ∈ uniqueQueueFamilies this ∧ mkQueueInfo 0 1 ∈ queueCreateInfos this)) ∧
  ((∀ q, q ∈ families → is_transfer q = false) →
     GetTransferFamily this = 0 ∧
     (fst (snd r) = Return () ↔ ∃ q, q ∈ families ∧ is_present q = true) ∧
     (fst (snd r) = Return () →
        Warning ("No transfer queue family found" ++ endl) ∈ snd (snd r) ∧
        0 ∈ uniqueQueueFamilies this ∧ mkQueueInfo 0 1 ∈ queueCreateInfos this)) ∧
  (GetComputeFamily (fst (CreateQueueIndices [graphics_compute] initial)) = 0 ∧
   GetTransferFamily (fst (CreateQueueIndices [graphics_compute] initial)) = 0).
Proof.
  cbv zeta. split; [|split; [|split; reflexivity]].
  - intros Hnone.
    assert (Hc : first_from is_compute 0 families None = None)
      by now apply first_from_absent.
    assert (Hd : first_from is_dedicated_compute 0 families None = None).
    { apply first_from_absent. intros q Hq. unfold is_dedicated_compute.
      specialize (Hnone q Hq). unfold is_compute in Hnone. now rewrite Hnone. }
    assert (H0 : GetComputeFamily (fst (CreateQueueIndices families initial)) = 0).
    { unfold GetComputeFamily. rewrite CreateQueueIndices_computeFamily, Hd, Hc. reflexivity. }
    split; [assumption|]. split; [apply CreateQueueIndices_returns|].
    intros Hret. split; [|apply family_0_requested; now left].
    rewrite CreateQueueIndices_outcome in Hret |- *. cbv zeta in Hret |- *.
    rewrite Hc, Hd in *. cbn [has_value] in *.
    destruct (negb (has_value (first_from is_graphics 0 families None))); [discriminate|].
    destruct (negb (has_value (first_from is_present 0 families None))); [discriminate|].
    cbn [snd]. rewrite !elem_of_app. right. left. constructor.
  - intros Hnone.
    assert (Hc : first_from is_transfer 0 families None = None)
      by now apply first_from_absent.
    assert (Hd : first_from is_dedicated_transfer 0 families None = None).
    { apply first_from_absent. intros q Hq. unfold is_dedicated_transfer.
      specialize (Hnone q Hq). unfold is_transfer in Hnone. now rewrite Hnone. }
    assert (H0 : GetTransferFamily (fst (CreateQueueIndices families initial)) = 0).
    { unfold GetTransferFamily. rewrite CreateQueueIndices_transferFamily, Hd, Hc. reflexivity. }
    split; [assumption|]. split; [apply CreateQueueIndices_returns|].
    intros Hret. split; [|apply family_0_requested; now right].
    rewrite CreateQueueIndices_outcome in Hret |- *. cbv zeta in Hret |- *.
    rewrite Hc, Hd in *. cbn [has_value] in *.
    destruct (negb (has_value (first_from is_graphics 0 families None))); [discriminate|].
    destruct (negb (has_value (first_from is_present 0 families None))); [discriminate|].
    cbn [snd]. rewrite !elem_of_app. right. right. constructor.
Qed.

Lemma absent_role_reads_as_family_0_witness :
  let r := CreateQueueIndices [transfer_only; graphics_only] initial in
  GetComputeFamily (fst r) = 0 ∧ fst (snd r) = Return () ∧
  Warning ("No compute queue family found" ++ endl) ∈ snd (snd r) ∧
  mkQueueInfo 0 1 ∈ queueCreateInfos (fst r).
Proof.
  cbv zeta.
  destruct (absent_role_reads_as_family_0 [transfer_only; graphics_only])
    as ((H0 & Hret & Hrest) & _).
  - intros q Hq. apply list_elem_of_In in Hq. cbn in Hq.
    destruct Hq as [<-|[<-|[]]]; reflexivity.
  - assert (Hr : fst (snd (CreateQueueIndices [transfer_only; graphics_only] initial))
                 = Return ()) by reflexivity.
    destruct (Hrest Hr) as (Hw & _ & Hq). auto.
Defined.

End LogicalDeviceFacts.

(** ** Device scoring *)

Module PhysicalDeviceFacts.
Import PhysicalDevice.

Ltac u32_bound := change UINT32_MOD with 4294967296; lia.

Lemma add_small score bonus :
  0 ≤ score → 0 ≤ bonus → score + bonus < UINT32_MOD → add score bonus = score + bonus.
Proof. intros. unfold add, u32. apply Z.mod_small. lia. Qed.

Lemma add_if_small c score bonus :
  0 ≤ score → 0 ≤ bonus → score + bonus < UINT32_MOD →
  add_if c bonus score = score + (if c then bonus else 0).
Proof. intros. unfold add_if. destruct c; [now apply add_small|lia]. Qed.

Lemma deviceType_score_range t : 50 ≤ deviceType_score t ≤ 10000.
Proof. unfold deviceType_score. repeat case_match; lia. Qed.

Lemma apiVersion_score_range v : 0 ≤ apiVersion_score v ≤ 300.
Proof. unfold apiVersion_score. repeat case_match; lia. Qed.

Lemma totalVRAM_range heaps : 0 ≤ totalVRAM heaps < UINT64_MOD.
Proof.
  unfold totalVRAM.
  assert (H : ∀ acc, 0 ≤ acc < UINT64_MOD →
    0 ≤ fold_left (λ total h,
                     if truthy (Z.land (heap_flags h) VK_MEMORY_HEAP_DEVICE_LOCAL_BIT)
                     then u64 (total + heap_size h) else total) heaps acc < UINT64_MOD).
  { induction heaps as [|h rest IH]; intros acc Hacc; cbn; [assumption|].
    apply IH. case_match; [|assumption].
    unfold u64. apply Z.mod_pos_bound. reflexivity. }
  apply H. unfold UINT64_MOD. lia.
Qed.

Lemma vram_bonus_range heaps :
  let bonus := u32 (u64 (Z.min (totalVRAM heaps / (1024 * 1024 * 1024)) 16 * 10)) in
  0 ≤ bonus ≤ 160.
Proof.
  cbv zeta. pose proof (totalVRAM_range heaps) as [Hlo _].
  assert (0 ≤ totalVRAM heaps / (1024 * 1024 * 1024)) by (apply Z.div_pos; lia).
  set (g := totalVRAM heaps / (1024 * 1024 * 1024)) in *.
  assert (Hg : 0 ≤ Z.min g 16 * 10 ≤ 160) by lia.
  unfold u32, u64.
  change UINT32_MOD with 4294967296. change UINT64_MOD with 18446744073709551616.
  rewrite (Z.mod_small (Z.min g 16 * 10) 18446744073709551616) by lia.
  rewrite Z.mod_small; lia.
Qed.

(** With the required extensions present, the score is the device-type
    weight plus a bonus that does not depend on the device type, halved
    when anisotropic sampling is missing; no addition wraps. *)
Lemma EnumeratePhysicalDevice_sum d :
  well_formed d → required_extensions_present d = true →
  ∃ bonus, 0 ≤ bonus ≤ 4295777 ∧
    ∀ t, EnumeratePhysicalDevice (with_deviceType t d) =
           if truthy (samplerAnisotropy d)
           then deviceType_score t + bonus
           else (deviceType_score t + bonus) / 2.
Proof.
  intros (_ & Himg & _) Hext.
  set (b1 := apiVersion_score (apiVersion d)).
  set (b2 := if truthy (timelineSemaphore d) then 50 else 0).
  set (b3 := if truthy (descriptorIndexing d) then 50 else 0).
  set (b4 := if truthy (bufferDeviceAddress d) then 50 else 0).
  set (b5 := if truthy (dynamicRendering d) then 50 else 0).
  set (b6 := if truthy (synchronization2 d) then 50 else 0).
  set (b7 := u32 (u64 (Z.min (totalVRAM (memoryHeaps d) / (1024 * 1024 * 1024)) 16 * 10))).
  set (b8 := maxImageDimension2D d / 1000).
  set (b9 := if 0 <? maxComputeWorkGroupCount0 d then 20 else 0).
  set (b10 := if truthy (geometryShader d) then 10 else 0).
  set (b11 := if truthy (tessellationShader d) then 10 else 0).
  assert (H1 : 0 ≤ b1 ≤ 300) by apply apiVersion_score_range.
  assert (H2 : 0 ≤ b2 ≤ 50) by (subst b2; case_match; lia).
  assert (H3 : 0 ≤ b3 ≤ 50) by (subst b3; case_match; lia).
  assert (H4 : 0 ≤ b4 ≤ 50) by (subst b4; case_match; lia).
  assert (H5 : 0 ≤ b5 ≤ 50) by (subst b5; case_match; lia).
  assert (H6 : 0 ≤ b6 ≤ 50) by (subst b6; case_match; lia).
  assert (H7 : 0 ≤ b7 ≤ 160) by apply vram_bonus_range.
  assert (H8 : 0 ≤ b8 ≤ 4294967).
  { subst b8. change UINT32_MOD with 4294967296 in Himg.
    pose proof (Z.div_pos (maxImageDimension2D d) 1000).
    pose proof (Z.div_lt_upper_bound (maxImageDimension2D d) 1000 4294968). lia. }
  assert (H9 : 0 ≤ b9 ≤ 20) by (subst b9; case_match; lia).
  assert (H10 : 0 ≤ b10 ≤ 10) by (subst b10; case_match; lia).
  assert (H11 : 0 ≤ b11 ≤ 10) by (subst b11; case_match; lia).
  exists (b1 + b2 + b3 + b4 + b5 + b6 + b7 + b8 + b9 + b10 + b11).
  split; [lia|]. intros t.
  pose proof (deviceType_score_range t) as Ht.
  unfold EnumeratePhysicalDevice.
  change (required_extensions_present (with_deviceType t d))
    with (required_extensions_present d).
  rewrite Hext. cbn [negb with_deviceType deviceType apiVersion timelineSemaphore
    descriptorIndexing bufferDeviceAddress dynamicRendering synchronization2 memoryHeaps
    maxImageDimension2D maxComputeWorkGroupCount0 geometryShader tessellationShader
    samplerAnisotropy].
  fold b1 b7 b8.
  set (T := deviceType_score t) in *.
  rewrite (add_small 0 T), Z.add_0_l by u32_bound.
  rewrite (add_small T b1) by u32_bound.
  rewrite (add_if_small _ (T + b1)) by u32_bound. fold b2.
  rewrite (add_if_small _ (T + b1 + b2)) by u32_bound. fold b3.
  rewrite (add_if_small _ (T + b1 + b2 + b3)) by u32_bound. fold b4.
  rewrite (add_if_small _ (T + b1 + b2 + b3 + b4)) by u32_bound. fold b5.
  rewrite (add_if_small _ (T + b1 + b2 + b3 + b4 + b5)) by u32_bound. fold b6.
  rewrite (add_small (T + b1 + b2 + b3 + b4 + b5 + b6) b7) by u32_bound.
  rewrite (add_small (T + b1 + b2 + b3 + b4 + b5 + b6 + b7) b8) by u32_bound.
  rewrite (add_if_small _ (T + b1 + b2 + b3 + b4 + b5 + b6 + b7 + b8)) by u32_bound.
  fold b9.
  rewrite (add_if_small _ (T + b1 + b2 + b3 + b4 + b5 + b6 + b7 + b8 + b9)) by u32_bound.
  fold b10.
  rewrite (add_if_small _ (T + b1 + b2 + b3 + b4 + b5 + b6 + b7 + b8 + b9 + b10))
    by u32_bound.
  fold b11.
  destruct (truthy (samplerAnisotropy d)); cbn [negb]; [|f_equal]; lia.
Qed.

(** C2 (as amended). For a device descriptor with the required
    extensions, the score with device type discrete GPU exceeds the
    score with type integrated GPU, which exceeds the score with type
    CPU, all other fields being equal. *)
Theorem deviceType_order (d : Device) :
  well_formed d → required_extensions_present d = true →
  EnumeratePhysicalDevice (with_deviceType VK_PHYSICAL_DEVICE_TYPE_CPU d)
    < EnumeratePhysicalDevice (with_deviceType VK_PHYSICAL_DEVICE_TYPE_INTEGRATED_GPU d)
  ∧ EnumeratePhysicalDevice (with_deviceType VK_PHYSICAL_DEVICE_TYPE_INTEGRATED_GPU d)
    < EnumeratePhysicalDevice (with_deviceType VK_PHYSICAL_DEVICE_TYPE_DISCRETE_GPU d).
Proof.
  intros Hwf Hext.
  destruct (EnumeratePhysicalDevice_sum d Hwf Hext) as (bonus & Hb & Hscore).
  rewrite !Hscore.
  change (deviceType_score VK_PHYSICAL_DEVICE_TYPE_CPU) with 100.
  change (deviceType_score VK_PHYSICAL_DEVICE_TYPE_INTEGRATED_GPU) with 1000.
  change (deviceType_score VK_PHYSICAL_DEVICE_TYPE_DISCRETE_GPU) with 10000.
  destruct (truthy (samplerAnisotropy d)); [lia|].
  split; apply Z.div_lt_upper_bound; try lia.
  - pose proof (Z.mul_div_le (1000 + bonus) 2). pose proof (Z.mod_pos_bound (1000 + bonus) 2).
    pose proof (Z.div_mod (1000 + bonus) 2). lia.
  - pose proof (Z.div_mod (10000 + bonus) 2). pose proof (Z.mod_pos_bound (10000 + bonus) 2).
    lia.
Qed.

Lemma deviceType_order_witness :
  EnumeratePhysicalDevice (with_deviceType VK_PHYSICAL_DEVICE_TYPE_CPU desktop)
    < EnumeratePhysicalDevice (with_deviceType VK_PHYSICAL_DEVICE_TYPE_INTEGRATED_GPU desktop)
  ∧ EnumeratePhysicalDevice (with_deviceType VK_PHYSICAL_DEVICE_TYPE_INTEGRATED_GPU desktop)
    < EnumeratePhysicalDevice (with_deviceType VK_PHYSICAL_DEVICE_TYPE_DISCRETE_GPU desktop).
Proof.
  apply (deviceType_order desktop).
  - unfold well_formed, UINT32_MOD. cbn. lia.
  - reflexivity.
Defined.

(** C2 as stated fails: a device without the swapchain extension scores
    0 whatever its type. *)
Lemma deviceType_order_fails_without_swapchain :
  ¬ (EnumeratePhysicalDevice (with_deviceType VK_PHYSICAL_DEVICE_TYPE_INTEGRATED_GPU headless)
     < EnumeratePhysicalDevice (with_deviceType VK_PHYSICAL_DEVICE_TYPE_DISCRETE_GPU headless)).
Proof. vm_compute. discriminate. Qed.

End PhysicalDeviceFacts.

(** ** Reflection merges the stages of a shared binding *)

Module ShaderFacts.
Import Shader.

Lemma merge_layout_stage_spec kb stage l :
  match merge_layout_stage kb stage l with
  | None => bindings_at kb l = []
  | Some l' =>
      (∃ e r, bindings_at kb l = e :: r ∧
         bindings_at kb l' =
           mkLayoutBinding (lb_binding e) (lb_descriptorType e) (lb_descriptorCount e)
                           (Z.lor (lb_stageFlags e) stage) :: r) ∧
      ∀ k, k ≠ kb → bindings_at k l' = bindings_at k l
  end.
Proof.
  induction l as [|x rest IH]; cbn; [reflexivity|].
  destruct (Z.eqb_spec (lb_binding x) kb) as [Heq|Hne].
  - split.
    + exists x, (bindings_at kb rest). cbn.
      destruct (Z.eqb_spec (lb_binding x) kb); [auto|contradiction].
    + intros k Hk. cbn. destruct (Z.eqb_spec (lb_binding x) k); [congruence|reflexivity].
  - destruct (merge_layout_stage kb stage rest) as [l'|]; cbn.
    + destruct IH as ((e & r & He & He') & Hother).
      destruct (Z.eqb_spec (lb_binding x) kb); [contradiction|].
      split; [eauto|]. intros k Hk. specialize (Hother k Hk).
      unfold bindings_at in *. cbn. now rewrite Hother.
    + assumption.
Qed.

Lemma bindings_at_app k l1 l2 : bindings_at k (l1 ++ l2) = bindings_at k l1 ++ bindings_at k l2.
Proof. unfold bindings_at. induction l1; cbn; [reflexivity|]. case_match; cbn; congruence. Qed.

Lemma LoadUniformBlock_keeps block stage s :
  descriptorBindings (LoadUniformBlock block stage s) = descriptorBindings s ∧
  uniforms (LoadUniformBlock block stage s) = uniforms s.
Proof. split; reflexivity. Qed.

(** The two containers after one binding, each in terms of itself. *)
Lemma reflect_binding_descriptorBindings stage st b :
  descriptorBindings (fst (reflect_binding stage st b)) =
    match merge_layout_stage (b_binding b) stage (descriptorBindings (fst st)) with
    | Some merged => merged
    | None =>
        descriptorBindings (fst st)
        ++ [mkLayoutBinding (b_binding b) (b_descriptor_type b) (b_count b) stage]
    end.
Proof.
  destruct st as [s counts]. unfold reflect_binding. cbn [fst].
  destruct (uniforms s !! b_name b); cbn;
    destruct (merge_layout_stage (b_binding b) stage (descriptorBindings s)); cbn;
    case_match; reflexivity.
Qed.

Lemma reflect_binding_uniforms stage st b :
  uniforms (fst (reflect_binding stage st b)) =
    match uniforms (fst st) !! b_name b with
    | Some found =>
        <[b_name b := with_stageFlags (Z.lor (ui_stageFlags found) stage) found]>
          (uniforms (fst st))
    | None =>
        <[b_name b :=
            mkUniformInfo (b_binding b) 0 (blk_size (b_block b)) (b_descriptor_type b) stage
              (truthy (Z.land (b_decoration_flags b) SPV_REFLECT_DECORATION_NON_WRITABLE))
              (truthy (Z.land (b_decoration_flags b) SPV_REFLECT_DECORATION_NON_READABLE))]>
          (uniforms (fst st))
    end.
Proof.
  destruct st as [s counts]. unfold reflect_binding. cbn [fst].
  destruct (uniforms s !! b_name b); cbn;
    destruct (merge_layout_stage (b_binding b) stage (descriptorBindings s)); cbn;
    case_match; reflexivity.
Qed.

Lemma layout_slot_step k stage st b o :
  layout_slot k (descriptorBindings (fst st)) o →
  layout_slot k (descriptorBindings (fst (reflect_binding stage st b)))
              (layout_track k stage o b).
Proof.
  intros Hslot. rewrite reflect_binding_descriptorBindings. unfold layout_track.
  pose proof (merge_layout_stage_spec (b_binding b) stage (descriptorBindings (fst st))) as Hm.
  destruct (Z.eqb_spec (b_binding b) k) as [Heq|Hne].
  - subst k. destruct (merge_layout_stage _ _ _) as [l'|].
    + destruct Hm as ((e & r & He & He') & _).
      destruct o as [flags|]; cbn in Hslot |- *.
      * destruct Hslot as (e0 & He0 & Hf). rewrite He in He0. injection He0 as -> ->.
        eexists. split; [exact He'|]. cbn. now rewrite Hf.
      * congruence.
    + destruct o as [flags|]; cbn in Hslot |- *.
      * destruct Hslot as (e0 & He0 & _). congruence.
      * rewrite bindings_at_app, Hm. cbn. rewrite Z.eqb_refl. eexists. split; reflexivity.
  - assert (Hsame : bindings_at k
              (match merge_layout_stage (b_binding b) stage (descriptorBindings (fst st)) with
               | Some merged => merged
               | None => descriptorBindings (fst st)
                         ++ [mkLayoutBinding (b_binding b) (b_descriptor_type b) (b_count b) stage]
               end) = bindings_at k (descriptorBindings (fst st))).
    { destruct (merge_layout_stage _ _ _) as [l'|].
      - destruct Hm as (_ & Hother). apply Hother. congruence.
      - rewrite bindings_at_app. cbn.
        destruct (Z.eqb_spec (b_binding b) k); [contradiction|]. apply app_nil_r. }
    destruct o; cbn in *; now rewrite Hsame.
Qed.

Lemma uniform_slot_step n stage st b o :
  uniform_slot n (uniforms (fst st)) o →
  uniform_slot n (uniforms (fst (reflect_binding stage st b))) (uniform_track n stage o b).
Proof.
  intros Hslot. rewrite reflect_binding_uniforms. unfold uniform_track.
  destruct (decide (b_name b = n)) as [Heq|Hne].
  - rewrite bool_decide_eq_true_2 by assumption. subst n.
    destruct o as [flags|]; cbn in Hslot |- *.
    + destruct Hslot as (u & -> & Hf). eexists. rewrite lookup_insert_eq.
      split; [reflexivity|]. cbn. now rewrite Hf.
    + rewrite Hslot. eexists. rewrite lookup_insert_eq. split; reflexivity.
  - rewrite bool_decide_eq_false_2 by assumption.
    assert (Hsame : ∀ u m, (<[b_name b := u]> m : gmap string UniformInfo) !! n = m !! n)
      by (intros; now apply lookup_insert_ne).
    destruct (uniforms (fst st) !! b_name b); destruct o; cbn in *;
      now rewrite Hsame.
Qed.

Lemma slots_after_bindings k n stage bs : ∀ st ol ou,
  layout_slot k (descriptorBindings (fst st)) ol →
  uniform_slot n (uniforms (fst st)) ou →
  let st' := fold_left (reflect_binding stage) bs st in
  layout_slot k (descriptorBindings (fst st')) (fold_left (layout_track k stage) bs ol) ∧
  uniform_slot n (uniforms (fst st')) (fold_left (uniform_track n stage) bs ou).
Proof.
  induction bs as [|b rest IH]; intros st ol ou Hl Hu; cbn; [auto|].
  apply IH; [now apply layout_slot_step|now apply uniform_slot_step].
Qed.

Lemma join_join stage o : join stage (join stage o) = join stage o.
Proof.
  unfold join. f_equal. destruct o as [flags|].
  - now rewrite <- Z.lor_assoc, Z.lor_diag.
  - apply Z.lor_diag.
Qed.

(** Once a stage has been merged into a slot, further bindings of the
    same stage leave it alone. *)
Lemma track_stable {B} (hit : B → bool) stage (bs : list B) : ∀ o,
  fold_left (λ o b, if hit b then join stage o else o) bs (join stage o) = join stage o.
Proof.
  induction bs as [|b rest IH]; intros o; cbn; [reflexivity|].
  destruct (hit b); [rewrite join_join|]; apply IH.
Qed.

Lemma track_hit {B} (hit : B → bool) stage (bs : list B) : ∀ o,
  (∃ b, b ∈ bs ∧ hit b = true) →
  fold_left (λ o b, if hit b then join stage o else o) bs o = join stage o.
Proof.
  induction bs as [|b rest IH]; intros o (b0 & Hin & Hhit).
  - inversion Hin.
  - cbn. destruct (hit b) eqn:Hb.
    + apply track_stable.
    + apply IH. inversion Hin; subst; [congruence|eauto].
Qed.

Lemma reflect_input_keeps vars : ∀ s,
  descriptorBindings (fold_left reflect_input vars s) = descriptorBindings s ∧
  uniforms (fold_left reflect_input vars s) = uniforms s.
Proof.
  induction vars as [|v rest IH]; intros s; cbn; [auto|].
  destruct (IH (reflect_input s v)) as [-> ->].
  unfold reflect_input. case_match; auto.
Qed.

(** Only the loop over the descriptor bindings touches the layout
    bindings and the uniforms. *)
Lemma ReflectFromSPIRV_bindings m stage s :
  let st := fold_left (reflect_binding stage) (descriptor_bindings m) (s, []) in
  descriptorBindings (ReflectFromSPIRV (Some m) stage s) = descriptorBindings (fst st) ∧
  uniforms (ReflectFromSPIRV (Some m) stage s) = uniforms (fst st).
Proof.
  cbv zeta. unfold ReflectFromSPIRV.
  destruct (fold_left (reflect_binding stage) (descriptor_bindings m) (s, [])) as [s' counts].
  cbn [fst]. case_match; [|auto].
  match goal with |- context [fold_left reflect_input ?vars ?s0] =>
    destruct (reflect_input_keeps vars s0) as [-> ->] end.
  auto.
Qed.

Lemma slots_after_stage k n stage m s ol ou :
  layout_slot k (descriptorBindings s) ol →
  uniform_slot n (uniforms s) ou →
  (∃ b, b ∈ descriptor_bindings m ∧ b_name b = n ∧ b_binding b = k) →
  layout_slot k (descriptorBindings (ReflectFromSPIRV (Some m) stage s)) (join stage ol) ∧
  uniform_slot n (uniforms (ReflectFromSPIRV (Some m) stage s)) (join stage ou).
Proof.
  intros Hl Hu (b & Hin & Hn & Hk).
  destruct (ReflectFromSPIRV_bindings m stage s) as [-> ->].
  destruct (slots_after_bindings k n stage (descriptor_bindings m) (s, []) ol ou Hl Hu)
    as [Hl' Hu'].
  unfold layout_track in Hl'. unfold uniform_track in Hu'.
  rewrite (track_hit (λ b, b_binding b =? k)) in Hl'
    by (exists b; split; [assumption|now apply Z.eqb_eq]).
  rewrite (track_hit (λ b, bool_decide (b_name b = n))) in Hu'
    by (exists b; split; [assumption|now apply bool_decide_eq_true_2]).
  auto.
Qed.

(** C6. On a fresh shader, reflecting a vertex-stage module and then a
    fragment-stage module that both contain a binding named [n] with
    binding number [k] leaves exactly one layout binding numbered [k],
    with stage flags VERTEX|FRAGMENT, and one uniform named [n] with
    the same flags. *)
Theorem shared_binding_is_merged (vert frag : SpvReflectShaderModule) (n : string) (k : Z) :
  (∃ b, b ∈ descriptor_bindings vert ∧ b_name b = n ∧ b_binding b = k) →
  (∃ b, b ∈ descriptor_bindings frag ∧ b_name b = n ∧ b_binding b = k) →
  let s := ReflectFromSPIRV (Some frag) VK_SHADER_STAGE_FRAGMENT_BIT
             (ReflectFromSPIRV (Some vert) VK_SHADER_STAGE_VERTEX_BIT new_Shader) in
  (∃ e, bindings_at k (descriptorBindings s) = [e] ∧
        lb_stageFlags e = Z.lor VK_SHADER_STAGE_VERTEX_BIT VK_SHADER_STAGE_FRAGMENT_BIT) ∧
  (∃ u, uniforms s !! n = Some u ∧
        ui_stageFlags u = Z.lor VK_SHADER_STAGE_VERTEX_BIT VK_SHADER_STAGE_FRAGMENT_BIT).
Proof.
  intros Hv Hf. cbv zeta.
  destruct (slots_after_stage k n VK_SHADER_STAGE_VERTEX_BIT vert new_Shader None None)
    as [Hl1 Hu1]; [reflexivity|reflexivity|assumption|].
  destruct (slots_after_stage k n VK_SHADER_STAGE_FRAGMENT_BIT frag _ _ _ Hl1 Hu1 Hf)
    as [Hl2 Hu2].
  split; [exact Hl2|exact Hu2].
Qed.

Lemma shared_binding_is_merged_witness :
  let s := ReflectFromSPIRV (Some (mkModule [CameraUBO] [] [])) VK_SHADER_STAGE_FRAGMENT_BIT
             (ReflectFromSPIRV (Some (mkModule [CameraUBO] [] []))
                VK_SHADER_STAGE_VERTEX_BIT new_Shader) in
  (∃ e, bindings_at 0 (descriptorBindings s) = [e] ∧ lb_stageFlags e = 17) ∧
  (∃ u, uniforms s !! "CameraUBO"%string = Some u ∧ ui_stageFlags u = 17).
Proof.
  apply (shared_binding_is_merged (mkModule [CameraUBO] [] []) (mkModule [CameraUBO] [] [])
           "CameraUBO" 0);
    (exists CameraUBO; split; [constructor|split; reflexivity]).
Defined.

End ShaderFacts.

(** ** Dirty tracking in the storage and uniform handlers *)

Module HandlerFacts.
Import Buffer.

Lemma comparisons_app tr1 tr2 : comparisons (tr1 ++ tr2) = (comparisons tr1 + comparisons tr2)%nat.
Proof. unfold comparisons. now rewrite List.filter_app, length_app. Qed.

Lemma copies_app tr1 tr2 : copies (tr1 ++ tr2) = (copies tr1 + copies tr2)%nat.
Proof. unfold copies. now rewrite List.filter_app, length_app. Qed.

(** Binding the mapped pointer neither compares nor copies, and it
    succeeds when the allocator does. *)
Lemma bind_memory_runs map_pointer is_bound data buffer tr :
  ∃ b p ev,
    StorageHandler.bind_memory VK_SUCCESS map_pointer is_bound data buffer tr
      = (Return (mkHostBuffer b (memory buffer), p), tr ++ ev) ∧
    comparisons ev = 0%nat ∧ copies ev = 0%nat.
Proof.
  unfold StorageHandler.bind_memory, MapMemory, bind, emit, ret, RenderSystem.CheckVkResult.
  destruct buffer as [b mem]. cbn.
  destruct is_bound; cbn.
  - exists b, data, []. rewrite app_nil_r. auto.
  - destruct (truthy (mappedData_ b)); cbn.
    + eexists _, _, []. rewrite app_nil_r. auto.
    + destruct (persistentlyMapped_ b); cbn; eexists _, _, [_]; auto.
Qed.

Lemma StorageHandler_Push_tracking (h : StorageHandler.StorageHandler) block buffer
    (data : list byte) map_pointer tr :
  StorageHandler.uniformBlock_ h = Some block →
  StorageHandler.storageBuffer_ h = Some buffer →
  StorageHandler.size_ h = Z.of_nat (length data) →
  (length data ≤ length (memory buffer))%nat →
  ∃ h' buffer' ev,
    StorageHandler.Push VK_SUCCESS map_pointer data h tr = (Return h', tr ++ ev) ∧
    StorageHandler.storageBuffer_ h' = Some buffer' ∧
    tracked (StorageHandler.handlerStatus_ h)
            (bool_decide (take (length data) (memory buffer) = data))
            0 data (memory buffer) (memory buffer')
            (StorageHandler.handlerStatus_ h') ev.
Proof.
  intros Hblock Hbuffer Hsize Hfit.
  unfold StorageHandler.Push. rewrite Hsize, Z.eqb_refl, Hblock, Hbuffer. cbn [negb].
  destruct (bind_memory_runs map_pointer (StorageHandler.bound_ h) (StorageHandler.data_ h)
              buffer tr) as (b & p & ev0 & Hbind & Hcmp & Hcpy).
  unfold bind at 1. rewrite Hbind. cbn [memory base].
  apply Nat.leb_le in Hfit. rewrite Hfit. cbn [negb].
  unfold bind, emit, ret, tracked.
  destruct (bool_decide (StorageHandler.handlerStatus_ h = Changed)),
    (bool_decide (take (length data) (memory buffer) = data)); cbn;
    eexists _, _, _; rewrite <- ?app_assoc;
    (split; [reflexivity|]); (split; [reflexivity|]);
    rewrite ?comparisons_app, ?copies_app, ?Hcmp, ?Hcpy; auto.
Qed.

Lemma UniformHandler_Push_tracking (h : UniformHandler.UniformHandler) block buffer
    (object : list byte) (offset size : nat) map_pointer tr :
  UniformHandler.uniformBlock_ h = Some block →
  UniformHandler.uniformBuffer_ h = Some buffer →
  (offset + Nat.min size (length object) ≤ length (memory buffer))%nat →
  ∃ h' buffer' ev,
    UniformHandler.Push VK_SUCCESS map_pointer object offset size h tr
      = (Return h', tr ++ ev) ∧
    UniformHandler.uniformBuffer_ h' = Some buffer' ∧
    tracked (UniformHandler.handlerStatus_ h)
            (bool_decide (take (Nat.min size (length object)) (drop offset (memory buffer))
                          = take (Nat.min size (length object)) object))
            offset (take (Nat.min size (length object)) object)
            (memory buffer) (memory buffer')
            (UniformHandler.handlerStatus_ h') ev.
Proof.
  intros Hblock Hbuffer Hfit.
  unfold UniformHandler.Push. rewrite Hblock, Hbuffer.
  destruct (bind_memory_runs map_pointer (UniformHandler.bound_ h) (UniformHandler.data_ h)
              buffer tr) as (b & p & ev0 & Hbind & Hcmp & Hcpy).
  unfold bind at 1. rewrite Hbind. cbn [memory base].
  apply Nat.leb_le in Hfit. rewrite Hfit. cbn [negb].
  unfold bind, emit, ret, tracked.
  destruct (bool_decide (UniformHandler.handlerStatus_ h = Changed)),
    (bool_decide (take (Nat.min size (length object)) (drop offset (memory buffer))
                  = take (Nat.min size (length object)) object)); cbn;
    eexists _, _, _; rewrite <- ?app_assoc;
    (split; [reflexivity|]); (split; [reflexivity|]);
    rewrite ?comparisons_app, ?copies_app, ?Hcmp, ?Hcpy; auto.
Qed.

(** What a push does that meets no block or no buffer, and what the
    size test of the storage handler does before anything else. *)
Lemma StorageHandler_Push_resize (h : StorageHandler.StorageHandler) (data : list byte)
    map_result map_pointer tr :
  StorageHandler.size_ h ≠ Z.of_nat (length data) →
  StorageHandler.Push map_result map_pointer data h tr =
    (Return (StorageHandler.mk (StorageHandler.multipipeline_ h)
               (StorageHandler.uniformBlock_ h) (u32 (Z.of_nat (length data)))
               (StorageHandler.data_ h) (StorageHandler.bound_ h)
               (StorageHandler.storageBuffer_ h) Reset), tr).
Proof.
  intros Hsize. apply Z.eqb_neq in Hsize. unfold StorageHandler.Push. now rewrite Hsize.
Qed.

Lemma StorageHandler_Push_ignored (h : StorageHandler.StorageHandler) (data : list byte)
    map_result map_pointer tr :
  StorageHandler.size_ h = Z.of_nat (length data) →
  StorageHandler.uniformBlock_ h = None ∨ StorageHandler.storageBuffer_ h = None →
  StorageHandler.Push map_result map_pointer data h tr = (Return h, tr).
Proof.
  intros Hsize Hnone. unfold StorageHandler.Push. rewrite Hsize, Z.eqb_refl. cbn [negb].
  destruct Hnone as [-> | ->]; [reflexivity|].
  now destruct (StorageHandler.uniformBlock_ h).
Qed.

Lemma UniformHandler_Push_ignored (h : UniformHandler.UniformHandler) (object : list byte)
    (offset size : nat) map_result map_pointer tr :
  UniformHandler.uniformBlock_ h = None ∨ UniformHandler.uniformBuffer_ h = None →
  UniformHandler.Push map_result map_pointer object offset size h tr = (Return h, tr).
Proof.
  intros Hnone. unfold UniformHandler.Push.
  destruct Hnone as [-> | ->]; [reflexivity|].
  now destruct (UniformHandler.uniformBlock_ h).
Qed.

(** C7 (as amended). For a storage or uniform handler that holds a
    uniform block and a buffer (for the storage handler: whose tracked
    size equals the pushed size), a push whose destination range lies
    in the buffer does the following.  In status Normal, bytes equal to
    the buffer contents cost one comparison and no copy and leave
    contents and status alone; differing bytes cost one comparison and
    one copy, overwrite the range and set Changed.  In status Changed
    there is no comparison and exactly one copy.  The storage handler
    tests the size before anything else: a push of another length only
    records that length and sets Reset, with or without block and
    buffer.  Past that test, a handler without a block or without a
    buffer returns from the push as it was, without a call; the uniform
    handler, which has no size test, always does. *)
Theorem Push_dirty_tracking :
  (∀ (h : StorageHandler.StorageHandler) block buffer (data : list byte) map_pointer tr,
     StorageHandler.uniformBlock_ h = Some block →
     StorageHandler.storageBuffer_ h = Some buffer →
     StorageHandler.size_ h = Z.of_nat (length data) →
     (length data ≤ length (memory buffer))%nat →
     ∃ h' buffer' ev,
       StorageHandler.Push VK_SUCCESS map_pointer data h tr = (Return h', tr ++ ev) ∧
       StorageHandler.storageBuffer_ h' = Some buffer' ∧
       tracked (StorageHandler.handlerStatus_ h)
               (bool_decide (take (length data) (memory buffer) = data))
               0 data (memory buffer) (memory buffer')
               (StorageHandler.handlerStatus_ h') ev) ∧
  (∀ (h : UniformHandler.UniformHandler) block buffer (object : list byte)
     (offset size : nat) map_pointer tr,
     UniformHandler.uniformBlock_ h = Some block →
     UniformHandler.uniformBuffer_ h = Some buffer →
     (offset + Nat.min size (length object) ≤ length (memory buffer))%nat →
     ∃ h' buffer' ev,
       UniformHandler.Push VK_SUCCESS map_pointer object offset size h tr
         = (Return h', tr ++ ev) ∧
       UniformHandler.uniformBuffer_ h' = Some buffer' ∧
       tracked (UniformHandler.handlerStatus_ h)
               (bool_decide (take (Nat.min size (length object)) (drop offset (memory buffer))
                             = take (Nat.min size (length object)) object))
               offset (take (Nat.min size (length object)) object)
               (memory buffer) (memory buffer')
               (UniformHandler.handlerStatus_ h') ev) ∧
  (∀ (h : StorageHandler.StorageHandler) (data : list byte) map_result map_pointer tr,
     StorageHandler.size_ h ≠ Z.of_nat (length data) →
     StorageHandler.Push map_result map_pointer data h tr =
       (Return (StorageHandler.mk (StorageHandler.multipipeline_ h)
                  (StorageHandler.uniformBlock_ h) (u32 (Z.of_nat (length data)))
                  (StorageHandler.data_ h) (StorageHandler.bound_ h)
                  (StorageHandler.storageBuffer_ h) Reset), tr)) ∧
  (∀ (h : StorageHandler.StorageHandler) (data : list byte) map_result map_pointer tr,
     StorageHandler.size_ h = Z.of_nat (length data) →
     StorageHandler.uniformBlock_ h = None ∨ StorageHandler.storageBuffer_ h = None →
     StorageHandler.Push map_result map_pointer data h tr = (Return h, tr)) ∧
  (∀ (h : UniformHandler.UniformHandler) (object : list byte) (offset size : nat)
     map_result map_pointer tr,
     UniformHandler.uniformBlock_ h = None ∨ UniformHandler.uniformBuffer_ h = None →
     UniformHandler.Push map_result map_pointer object offset size h tr = (Return h, tr)).
Proof.
  split; [exact StorageHandler_Push_tracking|].
  split; [exact UniformHandler_Push_tracking|].
  split; [exact StorageHandler_Push_resize|].
  split; [exact StorageHandler_Push_ignored|exact UniformHandler_Push_ignored].
Qed.

Lemma Push_dirty_tracking_witness :
  let h := StorageHandler.mk false (Some StorageHandler.lights) 4 4096 true
             (Some StorageHandler.four_bytes) Normal in
  (∃ h' buffer' ev,
     StorageHandler.Push VK_SUCCESS 4096 [x01; x02; x03; x04] h [] = (Return h', [] ++ ev) ∧
     StorageHandler.storageBuffer_ h' = Some buffer' ∧
     comparisons ev = 1%nat ∧ copies ev = 1%nat ∧
     memory buffer' = [x01; x02; x03; x04] ∧
     StorageHandler.handlerStatus_ h' = Changed) ∧
  StorageHandler.Push VK_SUCCESS 4096 [x01; x02] (StorageHandler.StorageHandler_ctor false) []
    = (Return (StorageHandler.mk false None 2 nullptr false None Reset), []) ∧
  StorageHandler.Push VK_SUCCESS 4096 [] (StorageHandler.StorageHandler_ctor false) []
    = (Return (StorageHandler.StorageHandler_ctor false), []) ∧
  UniformHandler.Push VK_SUCCESS 4096 [x01; x02] 0 2 (UniformHandler.UniformHandler_ctor false) []
    = (Return (UniformHandler.UniformHandler_ctor false), []).
Proof.
  intros h.
  destruct Push_dirty_tracking as (Hstorage & _ & Hresize & Hignored & Huniform).
  split; [|split; [|split]].
  - destruct (Hstorage h StorageHandler.lights StorageHandler.four_bytes
                [x01; x02; x03; x04] 4096 [])
      as (h' & buffer' & ev & Hrun & Hbuf & Htr).
    + reflexivity.
    + reflexivity.
    + reflexivity.
    + cbn. lia.
    + exists h', buffer', ev. split; [exact Hrun|]. split; [exact Hbuf|]. exact Htr.
  - apply (Hresize (StorageHandler.StorageHandler_ctor false) [x01; x02]). discriminate.
  - apply (Hignored (StorageHandler.StorageHandler_ctor false) []); [reflexivity|now left].
  - apply (Huniform (UniformHandler.UniformHandler_ctor false)). now left.
Defined.

(** C7 as stated fails on a handler without a uniform block: the
    handler reached by pushing four bytes into a new storage handler,
    updating it with a block and twice without one is in status Normal
    with tracked size 4 and owns a buffer of four zero bytes, yet a
    push of four different bytes neither compares nor copies and the
    status stays Normal. *)
Lemma Push_without_block_is_ignored :
  ∃ h buffer,
    StorageHandler.unblocked = Return h ∧
    StorageHandler.handlerStatus_ h = Normal ∧
    StorageHandler.size_ h = Z.of_nat (length [x01; x02; x03; x04]) ∧
    StorageHandler.storageBuffer_ h = Some buffer ∧
    take 4 (memory buffer) ≠ [x01; x02; x03; x04] ∧
    ¬ ∃ h' ev,
        run (StorageHandler.Push VK_SUCCESS 4096 [x01; x02; x03; x04] h) = (Return h', ev) ∧
        copies ev = 1%nat ∧ StorageHandler.handlerStatus_ h' = Changed.
Proof.
  eexists _, _. split; [vm_compute; reflexivity|].
  split; [reflexivity|]. split; [reflexivity|]. split; [reflexivity|].
  split; [discriminate|].
  intros (h' & ev & Hrun & Hcopies & _). vm_compute in Hrun.
  injection Hrun as _ <-. discriminate.
Qed.

End HandlerFacts.

(** ** The shader bundle container *)

Module ShaderBundleFacts.
Import ShaderBundle.

(** *** Reading a header *)

Lemma length_fit n bytes : length (fit n bytes) = n.
Proof. unfold fit. rewrite length_take, length_app, length_replicate. lia. Qed.

(** A read that the stream can satisfy does not depend on what the
    buffer held. *)
Lemma read_prefix j k n buffer stream :
  (j + k ≤ n)%nat → (j + k ≤ length stream)%nat →
  take k (drop j (fst (read n buffer stream))) = take k (drop j stream).
Proof.
  intros Hn Hs. unfold read. cbn [fst].
  rewrite drop_app_le by (rewrite length_take; lia).
  rewrite take_app_le by (rewrite length_drop, length_take; lia).
  rewrite !take_drop_commute, take_take. do 2 f_equal. lia.
Qed.


(** [load] returns [false] and leaves the bundle as it was when the
    file cannot be opened and when the magic number or the version of
    the header it read differs from the constants; for a stream of at
    least eight bytes these are its first two little-endian words,
    whatever the header variable held before. *)
Lemma load_rejects_foreign_header (b : ShaderBundle) (stream : list byte)
    (uninit : nat → list byte) :
  load None uninit b = (false, b) ∧
  (let header := fst (read sizeof_header (fit sizeof_header (uninit 0%nat)) stream) in
   field32 0 header ≠ BUNDLE_MAGIC ∨ field32 4 header ≠ BUNDLE_VERSION →
   load (Some stream) uninit b = (false, b)) ∧
  ((8 ≤ length stream)%nat →
   field32 0 stream ≠ BUNDLE_MAGIC ∨ field32 4 stream ≠ BUNDLE_VERSION →
   load (Some stream) uninit b = (false, b)).
Proof.
  assert (Hhdr : ∀ header rest,
    read sizeof_header (fit sizeof_header (uninit 0%nat)) stream = (header, rest) →
    field32 0 header ≠ BUNDLE_MAGIC ∨ field32 4 header ≠ BUNDLE_VERSION →
    load (Some stream) uninit b = (false, b)).
  { intros header rest Hread Hbad. unfold load. rewrite Hread.
    destruct (Z.eqb_spec (field32 0 header) BUNDLE_MAGIC) as [Hm|Hm]; [|reflexivity].
    destruct (Z.eqb_spec (field32 4 header) BUNDLE_VERSION) as [Hv|Hv]; [|reflexivity].
    destruct Hbad; contradiction. }
  split; [reflexivity|]. split.
  - cbv zeta.
    destruct (read sizeof_header (fit sizeof_header (uninit 0%nat)) stream)
      as [header rest] eqn:Hread.
    cbn [fst]. now apply (Hhdr header rest).
  - intros Hlen Hbad.
    destruct (read sizeof_header (fit sizeof_header (uninit 0%nat)) stream)
      as [header rest] eqn:Hread.
    apply (Hhdr header rest eq_refl).
    assert (H0 : field32 0 header = field32 0 stream).
    { unfold field32. f_equal.
      change header with (fst (header, rest)). rewrite <- Hread.
      apply read_prefix; unfold sizeof_header; lia. }
    assert (H4 : field32 4 header = field32 4 stream).
    { unfold field32. f_equal.
      change header with (fst (header, rest)). rewrite <- Hread.
      apply read_prefix; unfold sizeof_header; lia. }
    now rewrite H0, H4.
Qed.

Lemma load_rejects_foreign_header_witness :
  let b := build [vs_main; fs_main] in
  load (Some (le32 BUNDLE_MAGIC ++ le32 2 ++ replicate 24 x00)) (λ _, []) b = (false, b).
Proof.
  intros b.
  destruct (load_rejects_foreign_header b
              (le32 BUNDLE_MAGIC ++ le32 2 ++ replicate 24 x00) (λ _, []))
    as (_ & _ & H).
  apply H.
  - cbn. lia.
  - right. vm_compute. discriminate.
Defined.

(** C5. [load] tests the header it has in memory, not what the stream
    delivered: the read of the header is never checked.  A stream of at
    least eight bytes is rejected, the bundle kept, when its magic number
    or version differs from the constants.  A stream that ends before
    the eighth byte leaves the version, or magic number and version, as
    the uninitialised header had them; when that memory holds the two
    constants and zero counts and the stream does not contradict it,
    [load] answers true and replaces the bundle by an empty one, where
    the claim has it fail and keep the bundle.  This includes the empty
    stream. *)
Theorem load_accepts_truncated_header (b : ShaderBundle.ShaderBundle) (stream : list byte)
    (uninit : nat → list byte) :
  ((8 ≤ length stream)%nat →
   field32 0 stream ≠ BUNDLE_MAGIC ∨ field32 4 stream ≠ BUNDLE_VERSION →
   load (Some stream) uninit b = (false, b)) ∧
  ((length stream < 8)%nat →
   stream = take (length stream) (le32 BUNDLE_MAGIC ++ le32 BUNDLE_VERSION) →
   fit sizeof_header (uninit 0%nat)
     = le32 BUNDLE_MAGIC ++ le32 BUNDLE_VERSION ++ replicate 24 x00 →
   load (Some stream) uninit b = (true, mk [] [] ∅) ∧
   (entries_ b ≠ [] → load (Some stream) uninit b ≠ (false, b))).
Proof.
  split; [apply load_rejects_foreign_header|].
  intros Hlen Hstream Hstale.
  assert (H : load (Some stream) uninit b = (true, mk [] [] ∅)).
  { unfold load. rewrite Hstale.
    assert (Hread : read sizeof_header
                      (le32 BUNDLE_MAGIC ++ le32 BUNDLE_VERSION ++ replicate 24 x00) stream
                    = (le32 BUNDLE_MAGIC ++ le32 BUNDLE_VERSION ++ replicate 24 x00, [])).
    { unfold read, sizeof_header.
      rewrite (take_ge stream 32) by lia. rewrite (drop_ge stream 32) by lia.
      f_equal. rewrite Hstream at 1.
      rewrite (app_assoc (le32 BUNDLE_MAGIC)).
      rewrite <- (take_app_le _ (replicate 24 x00)) by (cbn; lia).
      apply take_drop. }
    rewrite Hread. cbn. reflexivity. }
  split; [exact H|]. intros _. rewrite H. discriminate.
Qed.

Lemma load_accepts_truncated_header_witness :
  let b := build [vs_main; fs_main] in
  load (Some []) (λ _, le32 BUNDLE_MAGIC ++ le32 BUNDLE_VERSION ++ replicate 24 x00) b
    = (true, mk [] [] ∅) ∧
  entries_ b ≠ [].
Proof.
  intros b. split; [|vm_compute; discriminate].
  apply (proj2 (load_accepts_truncated_header b []
                  (λ _, le32 BUNDLE_MAGIC ++ le32 BUNDLE_VERSION ++ replicate 24 x00))).
  - cbn. lia.
  - reflexivity.
  - reflexivity.
Defined.

(** *** Fields of a record *)

Lemma Z_of_byte_of_Z y : Z_of_byte (byte_of_Z y) = y mod 256.
Proof.
  unfold Z_of_byte, byte_of_Z.
  pose proof (Z.mod_pos_bound y 256 eq_refl) as Hy.
  destruct (Byte.of_N (Z.to_N (y mod 256))) as [b|] eqn:Hb.
  - apply Byte.to_of_N in Hb. rewrite Hb. lia.
  - apply Byte.of_N_None_iff in Hb. lia.
Qed.

Lemma read_le32_le32 x : 0 ≤ x < UINT32_MOD → read_le32 (le32 x) = x.
Proof.
  intros Hx. change UINT32_MOD with 4294967296 in Hx.
  unfold read_le32, le32. cbn [nth]. rewrite !Z_of_byte_of_Z.
  Z.to_euclidean_division_equations. lia.
Qed.

Lemma read_le32_range bytes : 0 ≤ read_le32 bytes < UINT32_MOD.
Proof.
  assert (Hb : ∀ b, 0 ≤ Z_of_byte b < 256).
  { intros b. unfold Z_of_byte. pose proof (Byte.to_N_bounded b). lia. }
  unfold read_le32. change UINT32_MOD with 4294967296.
  pose proof (Hb (nth 0 bytes x00)). pose proof (Hb (nth 1 bytes x00)).
  pose proof (Hb (nth 2 bytes x00)). pose proof (Hb (nth 3 bytes x00)). lia.
Qed.

Lemma length_strncpy_field n str : (0 < n)%nat → length (strncpy_field n str) = n.
Proof.
  intros Hn. unfold strncpy_field. rewrite length_app, length_replicate, length_take. lia.
Qed.




Lemma length_diskEntry_of entry : length (diskEntry_of entry) = sizeof_entry.
Proof.
  unfold diskEntry_of. rewrite !length_app, !length_strncpy_field by lia. reflexivity.
Qed.




(** *** The hash index *)

Lemma index_from_app entries : ∀ i entry index,
  index_from i (entries ++ [entry]) index =
    <[makeKey (nameHash entry) (stage entry) := (i + length entries)%nat]>
      (index_from i entries index).
Proof.
  induction entries as [|e rest IH]; intros i entry index; cbn.
  - now rewrite Nat.add_0_r.
  - rewrite IH. replace (S i + length rest)%nat with (i + S (length rest))%nat by lia.
    reflexivity.
Qed.

(** *** Reading back what was written *)


Lemma length_resize n bytes : length (resize n bytes) = n.
Proof. unfold resize. rewrite length_app, length_take, length_replicate. lia. Qed.


(** *** Bundles built by [addShader] *)

Lemma length_bytes_of_words words : length (bytes_of_words words) = (4 * length words)%nat.
Proof.
  unfold bytes_of_words. induction words as [|w rest IH]; [reflexivity|].
  rewrite fmap_cons. cbn [concat]. rewrite length_app, IH. cbn. lia.
Qed.

Lemma words_of_bytes_of_words words rest :
  Forall (λ w, 0 ≤ w < UINT32_MOD) words →
  words_of_bytes (length words) (bytes_of_words words ++ rest) = words.
Proof.
  unfold bytes_of_words. induction 1 as [|w more Hw Hmore IH]; [reflexivity|].
  rewrite fmap_cons. cbn [concat length words_of_bytes]. rewrite <- app_assoc.
  rewrite (take_app_length' (le32 w)) by reflexivity.
  rewrite (drop_app_length' (le32 w)) by reflexivity.
  now rewrite read_le32_le32, IH.
Qed.





(** One [addShader] whose sizes do not wrap. *)
Lemma add_exact b s :
  Z.of_nat (length (data_ b)) + Z.of_nat (length (s_spirv s)) * 4 < UINT32_MOD →
  add b s =
    mk (data_ b ++ bytes_of_words (s_spirv s))
       (entries_ b ++ [entry_at (length (data_ b)) s])
       (<[key_of s := length (entries_ b)]> (hashToIndex_ b)).
Proof.
  intros Hfit. unfold add, addShader, entry_at, key_of.
  cbn [size nameHash].
  assert (Hoff : u32 (Z.of_nat (length (data_ b))) = Z.of_nat (length (data_ b)))
    by (apply Z.mod_small; lia).
  assert (Hsize : u32 (Z.of_nat (length (s_spirv s)) * 4) = Z.of_nat (length (s_spirv s)) * 4)
    by (apply Z.mod_small; lia).
  rewrite Hoff, Hsize. rewrite take_ge by (rewrite length_bytes_of_words; lia).
  reflexivity.
Qed.





(** *** Lookup in a built bundle *)













End ShaderBundleFacts.

(** ** Mapping, updating and move assignment of buffers *)

Module BufferMore.
Import Buffer.

Lemma truthy_is_true x : x ≠ 0 → truthy x = true.
Proof. apply BufferFacts.truthy_true. Qed.

(** X1. On a buffer that is neither persistently mapped nor mapped, a
    second [MapMemory] asks the allocator nothing and hands out the
    pointer of the first; the first [UnmapMemory] then unmaps and the
    second does nothing.  Mappings are not counted. *)
Theorem MapMemory_twice_UnmapMemory_twice (b : Buffer.Buffer) (p r2 p2 : Z) (tr : list Call) :
  persistentlyMapped_ b = false → mappedData_ b = nullptr → p ≠ nullptr →
  (let! (b1, d1) := MapMemory VK_SUCCESS p b in
   let! (b2, d2) := MapMemory r2 p2 b1 in
   let! b3 := UnmapMemory b2 in
   let! b4 := UnmapMemory b3 in
   ret (d1, d2, IsMapped b2, b3, b4)) tr
  = (Return (p, p, true, b, b),
     tr ++ [vmaMapMemory (allocation_ b); vmaUnmapMemory (allocation_ b)]).
Proof.
  intros Hpers Hnull Hp. apply truthy_is_true in Hp.
  destruct b as [sz buf alloc mapped pers]. cbn in Hpers, Hnull. subst.
  unfold bind, MapMemory, UnmapMemory, emit, ret, RenderSystem.CheckVkResult, bind, IsMapped.
  cbn. change (truthy nullptr) with false. cbn. rewrite Hp. cbn. rewrite Hp. cbn.
  change (truthy nullptr) with false. cbn. now rewrite <- app_assoc.
Qed.

Lemma MapMemory_twice_UnmapMemory_twice_witness :
  let b := mk 64 11 22 nullptr false in
  (let! (b1, d1) := MapMemory VK_SUCCESS 4096 b in
   let! (b2, d2) := MapMemory (-1) 0 b1 in
   let! b3 := UnmapMemory b2 in
   let! b4 := UnmapMemory b3 in
   ret (d1, d2, IsMapped b2, b3, b4)) []
  = (Return (4096, 4096, true, b, b), [] ++ [vmaMapMemory 22; vmaUnmapMemory 22]).
Proof.
  intros b.
  apply (MapMemory_twice_UnmapMemory_twice b 4096 (-1) 0 []); [reflexivity|reflexivity|discriminate].
Defined.

(** X2. [Update] on a buffer that is not persistently mapped always
    leaves it unmapped: it maps only if the buffer was not mapped, copies
    to the mapped pointer, and unmaps, also a mapping that existed before
    the call. *)
Theorem Update_leaves_unmapped (b : Buffer.Buffer) (p : Z) (newData : list byte) (tr : list Call) :
  persistentlyMapped_ b = false → p ≠ nullptr →
  Update VK_SUCCESS p newData b tr =
    (Return (set_mappedData nullptr b),
     tr ++ (if truthy (mappedData_ b) then [] else [vmaMapMemory (allocation_ b)])
        ++ [ranges_copy (if truthy (mappedData_ b) then mappedData_ b else p) newData;
            vmaUnmapMemory (allocation_ b)]).
Proof.
  intros Hpers Hp. apply truthy_is_true in Hp.
  destruct b as [sz buf alloc mapped pers]. cbn in Hpers. subst.
  unfold Update, bind, MapMemory, UnmapMemory, emit, ret, RenderSystem.CheckVkResult, bind.
  cbn. destruct (truthy mapped) eqn:Hm; cbn; rewrite ?Hm, ?Hp; cbn;
    now rewrite <- ?app_assoc.
Qed.

Lemma Update_leaves_unmapped_witness :
  Update VK_SUCCESS 4096 [x01; x02] (mk 64 11 22 8192 false) [] =
    (Return (mk 64 11 22 nullptr false), [ranges_copy 8192 [x01; x02]; vmaUnmapMemory 22]).
Proof.
  apply (Update_leaves_unmapped (mk 64 11 22 8192 false) 4096 [x01; x02] []);
    [reflexivity|discriminate].
Defined.

(** The object the constructor builds before it looks at the data. *)
Lemma Buffer_ctor_unfold vma queueFamily size usage memoryUsage allocationFlags data :
  let host := host_access memoryUsage allocationFlags in
  Buffer_ctor vma queueFamily size usage memoryUsage allocationFlags data =
    (do! emit (vmaCreateBuffer size usage queueFamily
                 (if host then Z.lor allocationFlags VMA_ALLOCATION_CREATE_MAPPED_BIT
                  else allocationFlags) memoryUsage) in
     do! RenderSystem.CheckVkResult (create_result vma) in
     let this :=
       mk size (created_buffer vma) (created_allocation vma)
          (if host then pMappedData (created_info vma) else nullptr) host in
     match data with
     | [] => ret this
     | _ :: _ =>
         let mapped := mappedData_ this in
         let! (this, mapped) :=
           (if negb (truthy mapped) then MapMemory (map_result vma) (map_pointer vma) this
            else ret (this, mapped)) in
         do! emit (ranges_copy mapped data) in
         do! (if negb (truthy (Z.land (memoryType (created_info vma))
                                      VK_MEMORY_PROPERTY_HOST_COHERENT_BIT))
              then FlushMemory (flush_result vma) 0 VK_WHOLE_SIZE this
              else ret tt) in
         if negb (persistentlyMapped_ this) then UnmapMemory this else ret this
     end).
Proof. reflexivity. Qed.

(** X3. Whenever the constructor returns, the new buffer holds the
    handle and the allocation the allocator created and the requested
    size; it is persistently mapped exactly when host access was asked
    for, in which case its pointer is the allocator's [pMappedData], and
    otherwise it is left unmapped, with or without initial data. *)
Theorem Buffer_ctor_result vma queueFamily size usage memoryUsage allocationFlags
    (data : list byte) (b : Buffer.Buffer) (tr : list Call) :
  run (Buffer_ctor vma queueFamily size usage memoryUsage allocationFlags data) = (Return b, tr) →
  b = mk size (created_buffer vma) (created_allocation vma)
         (if host_access memoryUsage allocationFlags
          then pMappedData (created_info vma) else nullptr)
         (host_access memoryUsage allocationFlags).
Proof.
  rewrite Buffer_ctor_unfold. cbv zeta.
  set (host := host_access memoryUsage allocationFlags). clearbody host.
  unfold FlushMemory, MapMemory, UnmapMemory.
  unfold run, bind, emit, ret, raise, RenderSystem.CheckVkResult, bind, ret, raise.
  destruct (create_result vma =? VK_SUCCESS); [|discriminate].
  destruct data as [|x data]; [now intros [= <- _]|].
  destruct host; cbn.
  - destruct (truthy (pMappedData (created_info vma))) eqn:Hp; cbn; rewrite ?Hp; cbn.
    + destruct (truthy (Z.land _ _)); cbn.
      * now intros [= <- _].
      * destruct (flush_result vma =? VK_SUCCESS); cbn; [now intros [= <- _]|discriminate].
    + destruct (map_result vma =? VK_SUCCESS); cbn; [|discriminate].
      destruct (truthy (Z.land _ _)); cbn.
      * now intros [= <- _].
      * destruct (flush_result vma =? VK_SUCCESS); cbn; [now intros [= <- _]|discriminate].
  - change (truthy nullptr) with false. cbn.
    destruct (map_result vma =? VK_SUCCESS); cbn; [|discriminate].
    destruct (truthy (Z.land _ _)); cbn.
    + destruct (truthy (map_pointer vma)) eqn:Hp; cbn; intros [= <- _]; [reflexivity|].
      apply BufferFacts.truthy_false in Hp. now rewrite Hp.
    + destruct (flush_result vma =? VK_SUCCESS); cbn; [|discriminate].
      destruct (truthy (map_pointer vma)) eqn:Hp; cbn; intros [= <- _]; [reflexivity|].
      apply BufferFacts.truthy_false in Hp. now rewrite Hp.
Qed.

Lemma Buffer_ctor_result_witness :
  let tr := [vmaCreateBuffer 4 16 [0; 0; 0] 0 VMA_MEMORY_USAGE_AUTO; vmaMapMemory 22;
             ranges_copy 4096 [x01]; vmaUnmapMemory 22] in
  run (Buffer_ctor cached_allocator [0; 0; 0] 4 16 VMA_MEMORY_USAGE_AUTO 0 [x01])
  = (Return (mk 4 11 22 nullptr false), tr) ∧
  mk 4 11 22 nullptr false
  = mk 4 (created_buffer cached_allocator) (created_allocation cached_allocator)
       (if host_access VMA_MEMORY_USAGE_AUTO 0
        then pMappedData (created_info cached_allocator) else nullptr)
       (host_access VMA_MEMORY_USAGE_AUTO 0).
Proof.
  intros tr. split; [reflexivity|].
  apply (Buffer_ctor_result cached_allocator [0; 0; 0] 4 16 VMA_MEMORY_USAGE_AUTO 0 [x01] _ tr).
  reflexivity.
Defined.

(** X4. A failing allocator call makes the constructor throw at once:
    when [vmaCreateBuffer] fails only that call was made, and when the
    mapping fails nothing has been copied, flushed or unmapped. *)
Theorem Buffer_ctor_failures vma queueFamily size usage memoryUsage allocationFlags
    (x : byte) (data : list byte) :
  let host := host_access memoryUsage allocationFlags in
  let create :=
    vmaCreateBuffer size usage queueFamily
      (if host then Z.lor allocationFlags VMA_ALLOCATION_CREATE_MAPPED_BIT else allocationFlags)
      memoryUsage in
  (create_result vma ≠ VK_SUCCESS →
   run (Buffer_ctor vma queueFamily size usage memoryUsage allocationFlags (x :: data))
   = (Throw "Vulkan error", [create])) ∧
  (create_result vma = VK_SUCCESS → map_result vma ≠ VK_SUCCESS →
   host && truthy (pMappedData (created_info vma)) = false →
   run (Buffer_ctor vma queueFamily size usage memoryUsage allocationFlags (x :: data))
   = (Throw "Vulkan error", [create; vmaMapMemory (created_allocation vma)])).
Proof.
  cbv zeta. rewrite Buffer_ctor_unfold. cbv zeta.
  set (host := host_access memoryUsage allocationFlags). clearbody host.
  unfold MapMemory.
  unfold run, bind, emit, ret, raise, RenderSystem.CheckVkResult, bind, ret, raise.
  split.
  - intros Hc. apply Z.eqb_neq in Hc. now rewrite Hc.
  - intros Hc Hm Hpre. apply Z.eqb_neq in Hm. rewrite Hc. cbn.
    destruct host; cbn in Hpre |- *.
    + rewrite Hpre. cbn. rewrite ?Hpre. cbn. now rewrite Hm.
    + change (truthy nullptr) with false. cbn. now rewrite Hm.
Qed.

Lemma Buffer_ctor_failures_witness :
  run (Buffer_ctor (mkAllocator (-2) 0 0 (mkInfo 0 0) 0 0 0) [0; 0; 0] 4 16
         VMA_MEMORY_USAGE_AUTO 0 [x01])
  = (Throw "Vulkan error", [vmaCreateBuffer 4 16 [0; 0; 0] 0 VMA_MEMORY_USAGE_AUTO]).
Proof.
  destruct (Buffer_ctor_failures (mkAllocator (-2) 0 0 (mkInfo 0 0) 0 0 0) [0; 0; 0] 4 16
              VMA_MEMORY_USAGE_AUTO 0 x01 []) as [H _].
  apply H. discriminate.
Defined.

(** X5. Move assignment between two buffers that own different
    allocations destroys the target's old buffer, hands the source's
    buffer over and empties the source; running both destructors
    afterwards destroys the handed-over buffer, so that every one of the
    two buffers is destroyed exactly once. *)
Theorem Buffer_move_assign_frees_each_once (this other : Buffer.Buffer) :
  buffer_ this ≠ VK_NULL_HANDLE → buffer_ other ≠ VK_NULL_HANDLE →
  buffer_ this ≠ buffer_ other →
  ∃ tr,
    run (let! (this', other') := Buffer_move_assign this other in
         do! Buffer_dtor this' in
         do! Buffer_dtor other' in
         ret (buffer_ this', allocation_ this', mappedData_ this', buffer_ other'))
    = (Return (buffer_ other, allocation_ other, mappedData_ other, VK_NULL_HANDLE), tr) ∧
    List.filter is_destroy tr =
      [vmaDestroyBuffer (buffer_ this) (allocation_ this);
       vmaDestroyBuffer (buffer_ other) (allocation_ other)] ∧
    frees (buffer_ this) tr = 1%nat ∧ frees (buffer_ other) tr = 1%nat.
Proof.
  intros Ht Ho Hne.
  assert (Hfr : ∀ tr, List.filter is_destroy tr =
                  [vmaDestroyBuffer (buffer_ this) (allocation_ this);
                   vmaDestroyBuffer (buffer_ other) (allocation_ other)] →
                frees (buffer_ this) tr = 1%nat ∧ frees (buffer_ other) tr = 1%nat).
  { intros tr Hf. unfold frees.
    assert (Hsub : ∀ h, List.filter (destroys h) tr =
                        List.filter (destroys h) (List.filter is_destroy tr)).
    { intros h. clear. induction tr as [|c tr IH]; [reflexivity|].
      destruct c; cbn; try exact IH. destruct (buffer =? h); cbn; now rewrite IH. }
    rewrite !Hsub, Hf. cbn. rewrite !Z.eqb_refl.
    destruct (Z.eqb_spec (buffer_ other) (buffer_ this)) as [e|_]; [congruence|].
    destruct (Z.eqb_spec (buffer_ this) (buffer_ other)) as [e|_]; [congruence|].
    auto. }
  apply Z.eqb_neq in Ht, Ho.
  destruct this as [s1 b1 a1 m1 p1], other as [s2 b2 a2 m2 p2]. cbn in *.
  unfold Buffer_move_assign, Buffer_dtor, UnmapMemory.
  unfold run, bind, emit, ret. cbn.
  rewrite Ht. cbn.
  destruct (truthy m1) eqn:Hm1, p1, (truthy m2) eqn:Hm2, p2; cbn;
    rewrite ?Ho; cbn; rewrite ?Hm1, ?Hm2; cbn; eexists; (split; [reflexivity|]);
    (split; [reflexivity|]); apply Hfr; reflexivity.
Qed.

Lemma Buffer_move_assign_frees_each_once_witness :
  ∃ tr,
    run (let! (this', other') :=
           Buffer_move_assign (mk 64 11 22 4096 false) (mk 32 33 44 8192 true) in
         do! Buffer_dtor this' in
         do! Buffer_dtor other' in
         ret (buffer_ this', allocation_ this', mappedData_ this', buffer_ other'))
    = (Return (33, 44, 8192, VK_NULL_HANDLE), tr) ∧
    List.filter is_destroy tr = [vmaDestroyBuffer 11 22; vmaDestroyBuffer 33 44].
Proof.
  destruct (Buffer_move_assign_frees_each_once (mk 64 11 22 4096 false) (mk 32 33 44 8192 true))
    as (tr & H1 & H2 & _); [discriminate|discriminate|discriminate|].
  exists tr. split; [exact H1|exact H2].
Defined.

End BufferMore.

(** ** Submitting a command buffer *)

Module CommandSubmitFacts.
Import CommandBuffer CommandSubmit.

(** X6. When every driver call succeeds, [SubmitIdle] ends the
    recording if one is running, then creates a fence, resets it, submits
    the command buffer with that fence to the queue [GetQueue] selects,
    waits for the fence without a time limit and destroys it; the command
    buffer is not running afterwards.  For a queue type other than
    graphics and compute the submission goes to the null queue. *)
Theorem SubmitIdle_sequence (d : Driver) (q : Queues) (cb : CommandBuffer.CommandBuffer)
    (tr : list Call) :
  end_result d = VK_SUCCESS → createFence_result d = VK_SUCCESS →
  resetFences_result d = VK_SUCCESS → queueSubmit_result d = VK_SUCCESS →
  waitForFences_result d = VK_SUCCESS →
  SubmitIdle d q cb tr =
    (Return (set_running false cb),
     tr ++ (if running cb then [recording (vkEndCommandBuffer (commandBuffer cb))] else [])
        ++ [vkCreateFence; vkResetFences (created_fence d);
            vkQueueSubmit (GetQueue q cb) (commandBuffer cb) [] [] (created_fence d);
            vkWaitForFences (created_fence d) UINT64_MAX;
            vkDestroyFence (created_fence d)]) ∧
  (queueType cb ≠ VK_QUEUE_GRAPHICS_BIT → queueType cb ≠ VK_QUEUE_COMPUTE_BIT →
   GetQueue q cb = nullptr).
Proof.
  intros He Hc Hr Hs Hw. split.
  - unfold SubmitIdle, lift, End_.
    unfold run, bind, emit, ret, RenderSystem.CheckVkResult, bind, ret.
    rewrite He, Hc, Hr, Hs, Hw. destruct cb as [h ty [|]]; cbn.
    + now rewrite <- !app_assoc.
    + now rewrite <- !app_assoc.
  - intros Hg Hcq. unfold GetQueue.
    apply Z.eqb_neq in Hg, Hcq. now rewrite Hg, Hcq.
Qed.

Lemma SubmitIdle_sequence_witness :
  SubmitIdle (mkDriver 0 0 77 0 0 0) (mkQueues 5 6) (mk 9 VK_QUEUE_TRANSFER_BIT true) [] =
    (Return (mk 9 VK_QUEUE_TRANSFER_BIT false),
     [recording (vkEndCommandBuffer 9); vkCreateFence; vkResetFences 77;
      vkQueueSubmit nullptr 9 [] [] 77; vkWaitForFences 77 UINT64_MAX; vkDestroyFence 77]).
Proof.
  exact (proj1 (SubmitIdle_sequence (mkDriver 0 0 77 0 0 0) (mkQueues 5 6)
                  (mk 9 VK_QUEUE_TRANSFER_BIT true) [] eq_refl eq_refl eq_refl eq_refl eq_refl)).
Defined.

(** X7. When the fence was created and resetting it, the submission or
    the wait then fails, [SubmitIdle] throws with the fence still alive:
    the trace holds the [vkCreateFence] call and no [vkDestroyFence]. *)
Theorem SubmitIdle_failure_leaks_fence (d : Driver) (q : Queues)
    (cb : CommandBuffer.CommandBuffer) :
  end_result d = VK_SUCCESS → createFence_result d = VK_SUCCESS →
  resetFences_result d ≠ VK_SUCCESS ∨ queueSubmit_result d ≠ VK_SUCCESS
    ∨ waitForFences_result d ≠ VK_SUCCESS →
  ∃ tr, run (SubmitIdle d q cb) = (Throw "Vulkan error", tr) ∧
        List.filter is_fence_create tr = [vkCreateFence] ∧
        List.filter is_fence_destroy tr = [].
Proof.
  intros He Hc Hfail.
  unfold SubmitIdle, lift, End_.
  unfold run, bind, emit, ret, raise, RenderSystem.CheckVkResult, bind, ret, raise.
  rewrite He, Hc.
  destruct (Z.eqb_spec (resetFences_result d) VK_SUCCESS) as [Hr|Hr];
    [destruct (Z.eqb_spec (queueSubmit_result d) VK_SUCCESS) as [Hs|Hs];
     [destruct (Z.eqb_spec (waitForFences_result d) VK_SUCCESS) as [Hw|Hw];
      [exfalso; tauto|]|]|];
    destruct cb as [h ty [|]]; cbn; eexists; repeat split; reflexivity.
Qed.

Lemma SubmitIdle_failure_leaks_fence_witness :
  ∃ tr, run (SubmitIdle (mkDriver 0 0 77 0 0 (-4)) (mkQueues 5 6)
               (mk 9 VK_QUEUE_GRAPHICS_BIT true))
        = (Throw "Vulkan error", tr) ∧
        List.filter is_fence_create tr = [vkCreateFence] ∧
        List.filter is_fence_destroy tr = [].
Proof.
  apply SubmitIdle_failure_leaks_fence; [reflexivity|reflexivity|].
  right. right. discriminate.
Defined.

(** X8. If ending the recording fails, neither [SubmitIdle] nor
    [Submit] creates a fence or submits anything: both throw after the one
    [vkEndCommandBuffer] call.  On a command buffer that is not running
    neither makes that call. *)
Theorem nothing_is_submitted_unless_recording_ends (d : Driver) (q : Queues)
    (waitSemaphore signalSemaphore fence : Z) (cb : CommandBuffer.CommandBuffer) :
  running cb = true → end_result d ≠ VK_SUCCESS →
  run (SubmitIdle d q cb)
    = (Throw "Vulkan error", [recording (vkEndCommandBuffer (commandBuffer cb))]) ∧
  run (Submit d q waitSemaphore signalSemaphore fence cb)
    = (Throw "Vulkan error", [recording (vkEndCommandBuffer (commandBuffer cb))]).
Proof.
  intros Hrun He. apply Z.eqb_neq in He.
  unfold SubmitIdle, Submit, lift, End_.
  unfold run, bind, emit, ret, raise, RenderSystem.CheckVkResult, bind, ret, raise.
  rewrite Hrun. cbn. rewrite He. auto.
Qed.

Lemma nothing_is_submitted_unless_recording_ends_witness :
  run (Submit (mkDriver (-1) 0 77 0 0 0) (mkQueues 5 6) 0 0 0 (mk 9 VK_QUEUE_GRAPHICS_BIT true))
    = (Throw "Vulkan error", [recording (vkEndCommandBuffer 9)]).
Proof.
  destruct (nothing_is_submitted_unless_recording_ends (mkDriver (-1) 0 77 0 0 0) (mkQueues 5 6)
              0 0 0 (mk 9 VK_QUEUE_GRAPHICS_BIT true)) as [_ H];
    [reflexivity|discriminate|exact H].
Defined.

End CommandSubmitFacts.

(** ** Choosing the physical device *)

Module PhysicalDeviceChoice.
Import PhysicalDevice.

Lemma multimap_insert_elem key value m x :
  x ∈ multimap_insert key value m ↔ x = (key, value) ∨ x ∈ m.
Proof.
  induction m as [|[k v] rest IH]; cbn.
  - rewrite list_elem_of_singleton. split; [auto|]. intros [H|H]; [auto|inversion H].
  - destruct (key <? k).
    + now rewrite elem_of_cons.
    + rewrite !elem_of_cons, IH. tauto.
Qed.

Lemma multimap_insert_ascending key value m :
  ascending m → ascending (multimap_insert key value m).
Proof.
  induction m as [|[k v] rest IH]; cbn [multimap_insert ascending].
  - intros _. split; [|exact I]. intros b Hb. inversion Hb.
  - intros [Hall Hs]. destruct (Z.ltb_spec key k) as [Hlt|Hge]; cbn [ascending].
    + split; [|now split].
      intros b Hb. apply elem_of_cons in Hb as [->|Hb]; [cbn; lia|].
      specialize (Hall b Hb). cbn in *. lia.
    + split; [|now apply IH].
      intros b Hb. apply multimap_insert_elem in Hb as [->|Hb]; [cbn; lia|].
      now apply Hall.
Qed.

Lemma last_cons_cons {A} (x y : A) l : last (x :: y :: l) = last (y :: l).
Proof. reflexivity. Qed.

(** [rbegin()] after an insertion, from [rbegin()] before it. *)
Lemma last_multimap_insert key value m :
  ascending m →
  last (multimap_insert key value m) =
    match last m with
    | Some (k, v) => if key <? k then Some (k, v) else Some (key, value)
    | None => Some (key, value)
    end.
Proof.
  induction m as [|[k v] rest IH]; cbn [multimap_insert ascending].
  - reflexivity.
  - intros [Hall Hs]. destruct (Z.ltb_spec key k) as [Hlt|Hge].
    + rewrite last_cons_cons.
      destruct (last ((k, v) :: rest)) as [[k' v']|] eqn:Hl;
        [|apply last_None in Hl; discriminate].
      assert (Hk : k ≤ k').
      { destruct rest as [|y rest']; [cbn in Hl; injection Hl as <- <-; lia|].
        rewrite last_cons_cons in Hl.
        apply (Hall (k', v')). now apply last_Some_elem_of. }
      destruct (Z.ltb_spec key k'); [reflexivity|lia].
    + destruct rest as [|y rest'].
      * cbn. destruct (Z.ltb_spec key k); [lia|reflexivity].
      * rewrite last_cons_cons, <- (IH Hs).
        cbn [multimap_insert]. destruct y as [k2 v2].
        destruct (key <? k2); reflexivity.
Qed.

Lemma rank_ascending driver m device : ascending m → ascending (rank driver m device).
Proof. unfold rank. case_match; [apply multimap_insert_ascending|auto]. Qed.

Lemma last_rank driver m device :
  ascending m → last (rank driver m device) = better driver (last m) device.
Proof.
  intros Hm. unfold rank, better. cbv zeta.
  destruct (0 <? _); [now apply last_multimap_insert|reflexivity].
Qed.

Lemma last_fold_rank driver devices : ∀ m,
  ascending m →
  last (fold_left (rank driver) devices m) = fold_left (better driver) devices (last m).
Proof.
  induction devices as [|d rest IH]; intros m Hm; cbn; [reflexivity|].
  rewrite IH by now apply rank_ascending. now rewrite last_rank.
Qed.

Lemma ChoosePhysicalDevice_best driver devices :
  ChoosePhysicalDevice driver devices =
    match fold_left (better driver) devices None with
    | None => VK_NULL_HANDLE
    | Some (_, device) => device
    end.
Proof.
  unfold ChoosePhysicalDevice. cbv zeta.
  rewrite last_fold_rank by exact I. reflexivity.
Qed.

Lemma better_unsuitable driver devices : ∀ best,
  (∀ h, h ∈ devices → EnumeratePhysicalDevice (driver h) ≤ 0) →
  fold_left (better driver) devices best = best.
Proof.
  induction devices as [|d rest IH]; intros best Hall; cbn; [reflexivity|].
  rewrite IH by (intros h Hh; apply Hall; now constructor).
  unfold better. cbv zeta. specialize (Hall d ltac:(constructor)).
  destruct (Z.ltb_spec 0 (EnumeratePhysicalDevice (driver d))); [lia|reflexivity].
Qed.

Lemma better_lower driver devices : ∀ k v,
  (∀ h, h ∈ devices → EnumeratePhysicalDevice (driver h) < k) →
  fold_left (better driver) devices (Some (k, v)) = Some (k, v).
Proof.
  induction devices as [|d rest IH]; intros k v Hall; cbn; [reflexivity|].
  specialize (Hall d ltac:(constructor)) as Hd.
  replace (better driver (Some (k, v)) d) with (Some (k, v)).
  - apply IH. intros h Hh. apply Hall. now constructor.
  - unfold better. cbv zeta. destruct (0 <? _); [|reflexivity].
    destruct (Z.ltb_spec (EnumeratePhysicalDevice (driver d)) k); [reflexivity|lia].
Qed.

Lemma better_bounded driver devices bound : ∀ best,
  (∀ h, h ∈ devices → EnumeratePhysicalDevice (driver h) ≤ bound) →
  (∀ k v, best = Some (k, v) → k ≤ bound) →
  ∀ k v, fold_left (better driver) devices best = Some (k, v) → k ≤ bound.
Proof.
  induction devices as [|d rest IH]; intros best Hall Hbest k v; cbn; [apply Hbest|].
  apply IH; [intros h Hh; apply Hall; now constructor|].
  intros k' v'. unfold better. cbv zeta. specialize (Hall d ltac:(constructor)).
  destruct (0 <? _); [|apply Hbest].
  destruct best as [[k0 v0]|].
  - destruct (_ <? k0); [apply Hbest|]. intros [= <- <-]. lia.
  - intros [= <- <-]. lia.
Qed.

(** X9. For a well-formed device report the score is 0 exactly when a
    required extension is missing; with the extensions present it is at
    least 25, so the device is considered by [ChoosePhysicalDevice]
    whatever else it lacks. *)
Theorem score_is_zero_iff_extension_missing (d : Device) :
  well_formed d →
  (EnumeratePhysicalDevice d = 0 ↔ required_extensions_present d = false) ∧
  (required_extensions_present d = true → 25 ≤ EnumeratePhysicalDevice d).
Proof.
  intros Hwf.
  assert (Hpos : required_extensions_present d = true → 25 ≤ EnumeratePhysicalDevice d).
  { intros Hext.
    destruct (PhysicalDeviceFacts.EnumeratePhysicalDevice_sum d Hwf Hext)
      as (bonus & Hb & Hscore).
    specialize (Hscore (deviceType d)).
    replace (with_deviceType (deviceType d) d) with d in Hscore by now destruct d.
    rewrite Hscore.
    pose proof (PhysicalDeviceFacts.deviceType_score_range (deviceType d)) as Ht.
    destruct (truthy (samplerAnisotropy d)); [lia|].
    apply Z.div_le_lower_bound; lia. }
  split; [|exact Hpos]. split.
  - intros H0. destruct (required_extensions_present d); [|reflexivity].
    specialize (Hpos eq_refl). lia.
  - intros Hext. unfold EnumeratePhysicalDevice. now rewrite Hext.
Qed.

Lemma score_is_zero_iff_extension_missing_witness :
  (EnumeratePhysicalDevice headless = 0 ↔ required_extensions_present headless = false) ∧
  (required_extensions_present desktop = true → 25 ≤ EnumeratePhysicalDevice desktop).
Proof.
  split.
  - apply (score_is_zero_iff_extension_missing headless).
    unfold well_formed, UINT32_MOD. cbn. lia.
  - apply (score_is_zero_iff_extension_missing desktop).
    unfold well_formed, UINT32_MOD. cbn. lia.
Defined.

(** X10. [ChoosePhysicalDevice] returns [VK_NULL_HANDLE] when every
    enumerated device lacks a required extension, in particular on an
    empty enumeration. *)
Theorem ChoosePhysicalDevice_none_suitable (driver : Z → Device) (devices : list Z) :
  (∀ h, h ∈ devices → required_extensions_present (driver h) = false) →
  ChoosePhysicalDevice driver devices = VK_NULL_HANDLE.
Proof.
  intros Hall. rewrite ChoosePhysicalDevice_best, better_unsuitable; [reflexivity|].
  intros h Hh. unfold EnumeratePhysicalDevice. rewrite (Hall h Hh). cbn. lia.
Qed.

Lemma ChoosePhysicalDevice_none_suitable_witness :
  ChoosePhysicalDevice (λ _, headless) [3; 4] = VK_NULL_HANDLE.
Proof.
  apply ChoosePhysicalDevice_none_suitable. intros h _. reflexivity.
Defined.

(** X11. [ChoosePhysicalDevice] returns a device of the highest score,
    and among several of that score the one enumerated last: a device
    with a positive score is chosen when no earlier device scores higher
    and every later device scores lower. *)
Theorem ChoosePhysicalDevice_last_best (driver : Z → Device) (before after : list Z)
    (device : Z) :
  0 < EnumeratePhysicalDevice (driver device) →
  (∀ h, h ∈ before →
     EnumeratePhysicalDevice (driver h) ≤ EnumeratePhysicalDevice (driver device)) →
  (∀ h, h ∈ after →
     EnumeratePhysicalDevice (driver h) < EnumeratePhysicalDevice (driver device)) →
  ChoosePhysicalDevice driver (before ++ device :: after) = device.
Proof.
  intros Hpos Hbefore Hafter.
  rewrite ChoosePhysicalDevice_best, fold_left_app. cbn [fold_left].
  set (score := EnumeratePhysicalDevice (driver device)) in *.
  assert (Hb : better driver (fold_left (better driver) before None) device
               = Some (score, device)).
  { pose proof (better_bounded driver before score None Hbefore ltac:(discriminate))
      as Hbound.
    destruct (fold_left (better driver) before None) as [[k v]|];
      unfold better; cbv zeta; fold score;
      (destruct (Z.ltb_spec 0 score); [|lia]); [|reflexivity].
    specialize (Hbound k v eq_refl).
    destruct (Z.ltb_spec score k); [lia|reflexivity]. }
  rewrite Hb, better_lower; [reflexivity|assumption].
Qed.

Lemma ChoosePhysicalDevice_last_best_witness :
  ChoosePhysicalDevice (λ h, if h =? 5 then headless else desktop) ([3] ++ 4 :: [5]) = 4.
Proof.
  apply (ChoosePhysicalDevice_last_best (λ h, if h =? 5 then headless else desktop) [3] [5] 4).
  - vm_compute. reflexivity.
  - intros h Hh. apply list_elem_of_singleton in Hh as ->. vm_compute. discriminate.
  - intros h Hh. apply list_elem_of_singleton in Hh as ->. vm_compute. reflexivity.
Defined.

Lemma land_single_bit a k : 0 ≤ k → Z.land a (2 ^ k) = 0 ∨ Z.land a (2 ^ k) = 2 ^ k.
Proof.
  intros Hk. destruct (Z.testbit a k) eqn:Hbit; [right|left]; apply Z.bits_inj'; intros n Hn;
    rewrite Z.land_spec, ?Z.bits_0, Z.pow2_bits_eqb by lia;
    destruct (Z.eqb_spec k n) as [->|_]; rewrite ?Hbit, ?andb_false_r; reflexivity.
Qed.

Lemma STAGE_FLAG_BITS_single f : f ∈ STAGE_FLAG_BITS → ∃ k, 0 ≤ k ∧ f = 2 ^ k.
Proof.
  intros Hf. apply list_elem_of_In in Hf. cbn in Hf.
  destruct Hf as [<-|[<-|[<-|[<-|[<-|[<-|[]]]]]]];
    [exists 6|exists 5|exists 4|exists 3|exists 2|exists 1]; split; (lia || reflexivity).
Qed.

Lemma land_both c d f :
  f ∈ STAGE_FLAG_BITS →
  truthy (Z.land (Z.land c d) f) = truthy (Z.land c f) && truthy (Z.land d f).
Proof.
  intros Hf. destruct (STAGE_FLAG_BITS_single f Hf) as (k & Hk & ->).
  assert (H2 : 2 ^ k ≠ 0) by (apply Z.pow_nonzero; lia).
  rewrite <- Z.land_assoc.
  destruct (land_single_bit d k Hk) as [Hd|Hd]; rewrite Hd.
  - rewrite Z.land_0_r. change (truthy 0) with false. now rewrite andb_false_r.
  - destruct (land_single_bit c k Hk) as [Hc|Hc]; rewrite Hc; [reflexivity|].
    apply BufferFacts.truthy_true in H2. now rewrite H2.
Qed.

(** X12. When the numerically smaller of the two sample-count masks is
    contained in the other (as when both are equal),
    [GetMaxUsableSampleCount] returns the highest of the counts 64 to 2
    that colour and depth attachments both support, and 1 when they share
    none of them. *)
Theorem GetMaxUsableSampleCount_common (color depth : Z) :
  Z.land color depth = Z.min color depth →
  let r := GetMaxUsableSampleCount color depth in
  (r = VK_SAMPLE_COUNT_1_BIT ∨
   r ∈ STAGE_FLAG_BITS ∧ truthy (Z.land color r) = true ∧ truthy (Z.land depth r) = true) ∧
  (∀ f, f ∈ STAGE_FLAG_BITS →
     truthy (Z.land color f) = true → truthy (Z.land depth f) = true → f ≤ r).
Proof.
  intros Hmin. cbv zeta. unfold GetMaxUsableSampleCount. cbv zeta. rewrite <- Hmin.
  set (p := λ f, truthy (Z.land (Z.land color depth) f)).
  assert (Hp : ∀ f, f ∈ STAGE_FLAG_BITS →
                 p f = truthy (Z.land color f) && truthy (Z.land depth f)).
  { intros f Hf. unfold p. now apply land_both. }
  assert (Hin : ∀ f, f ∈ STAGE_FLAG_BITS → f = 64 ∨ f = 32 ∨ f = 16 ∨ f = 8 ∨ f = 4 ∨ f = 2).
  { intros f Hf. apply list_elem_of_In in Hf. cbn in Hf.
    unfold VK_SAMPLE_COUNT_64_BIT, VK_SAMPLE_COUNT_32_BIT, VK_SAMPLE_COUNT_16_BIT,
      VK_SAMPLE_COUNT_8_BIT, VK_SAMPLE_COUNT_4_BIT, VK_SAMPLE_COUNT_2_BIT in Hf.
    intuition auto. }
  assert (Hmem : ∀ f, f = 64 ∨ f = 32 ∨ f = 16 ∨ f = 8 ∨ f = 4 ∨ f = 2 → f ∈ STAGE_FLAG_BITS).
  { intros f Hf. apply list_elem_of_In. cbn.
    unfold VK_SAMPLE_COUNT_64_BIT, VK_SAMPLE_COUNT_32_BIT, VK_SAMPLE_COUNT_16_BIT,
      VK_SAMPLE_COUNT_8_BIT, VK_SAMPLE_COUNT_4_BIT, VK_SAMPLE_COUNT_2_BIT.
    intuition auto. }
  assert (Hfind :
    ∃ r, match List.find p STAGE_FLAG_BITS with
         | Some sampleFlag => sampleFlag
         | None => VK_SAMPLE_COUNT_1_BIT
         end = r ∧
         (r = 1 ∨ r ∈ STAGE_FLAG_BITS ∧ p r = true) ∧
         (∀ f, f ∈ STAGE_FLAG_BITS → p f = true → f ≤ r)).
  { clear Hp. unfold STAGE_FLAG_BITS at 1. cbn [List.find].
    unfold VK_SAMPLE_COUNT_64_BIT, VK_SAMPLE_COUNT_32_BIT, VK_SAMPLE_COUNT_16_BIT,
      VK_SAMPLE_COUNT_8_BIT, VK_SAMPLE_COUNT_4_BIT, VK_SAMPLE_COUNT_2_BIT,
      VK_SAMPLE_COUNT_1_BIT.
    destruct (p 64) eqn:H64; [|destruct (p 32) eqn:H32; [|destruct (p 16) eqn:H16;
      [|destruct (p 8) eqn:H8; [|destruct (p 4) eqn:H4; [|destruct (p 2) eqn:H2]]]]];
      eexists; (split; [reflexivity|]);
      (split; [first [left; reflexivity | right; split; [apply Hmem; tauto|assumption]]|]);
      intros f Hf Hpf; apply Hin in Hf;
      destruct Hf as [->|[->|[->|[->|[->| ->]]]]]; try lia; congruence. }
  destruct Hfind as (r & -> & Hr & Hmax). split.
  - destruct Hr as [->|[Hr Hpr]]; [now left|right].
    rewrite (Hp r Hr) in Hpr. apply andb_true_iff in Hpr. tauto.
  - intros f Hf Hc Hd. apply Hmax; [assumption|]. rewrite (Hp f Hf), Hc, Hd. reflexivity.
Qed.

Lemma GetMaxUsableSampleCount_common_witness :
  GetMaxUsableSampleCount 15 7 = 4 ∧ truthy (Z.land 15 4) = true.
Proof.
  destruct (GetMaxUsableSampleCount_common 15 7 eq_refl) as [[H|(_ & H & _)] _].
  - discriminate H.
  - split; [reflexivity|exact H].
Defined.

End PhysicalDeviceChoice.

(** ** Queue families and device features of the logical device *)

Module DeviceFeaturesFacts.
Import LogicalDevice DeviceFeatures.

Lemma assign_same member value features : assign member value features member = value.
Proof. unfold assign. now rewrite bool_decide_eq_true_2. Qed.

Lemma assign_other member value features m :
  m ≠ member → assign member value features m = features m.
Proof. intros H. unfold assign. now rewrite bool_decide_eq_false_2. Qed.

Lemma sound_assign available member value requested :
  (truthy value = true → truthy (available member) = true) →
  sound available requested → sound available (assign member value requested).
Proof.
  intros Hv Hs m. unfold assign. case_bool_decide as Hm; [subst; exact Hv|apply Hs].
Qed.

Lemma sound_enable available member st :
  sound available (fst st) → sound available (fst (enable available member st)).
Proof.
  intros Hs. unfold enable. destruct (truthy (available member)) eqn:Ha; [|assumption].
  cbn [fst]. now apply sound_assign.
Qed.

Lemma sound_enable_or_warn available member text st :
  sound available (fst st) → sound available (fst (enable_or_warn available member text st)).
Proof.
  intros Hs. unfold enable_or_warn. destruct (truthy (available member)) eqn:Ha; [|assumption].
  cbn [fst]. now apply sound_assign.
Qed.

Lemma sound_enable_and_log available member text st :
  sound available (fst st) → sound available (fst (enable_and_log available member text st)).
Proof.
  intros Hs. unfold enable_and_log. destruct (truthy (available member)) eqn:Ha; [|assumption].
  cbn [fst]. now apply sound_assign.
Qed.

Lemma sound_copy available member st :
  sound available (fst st) → sound available (fst (copy available member st)).
Proof. intros Hs. unfold copy. cbn [fst]. now apply sound_assign. Qed.

Lemma sound_request_wireframe available st :
  sound available (fst st) → sound available (fst (request_wireframe available st)).
Proof.
  intros Hs. unfold request_wireframe.
  destruct (truthy (available fillModeNonSolid)) eqn:Ha; [|assumption]. cbv zeta.
  apply sound_enable. cbn [fst]. now apply sound_assign.
Qed.

Lemma sound_request_textureCompression available st :
  sound available (fst st) → sound available (fst (request_textureCompression available st)).
Proof.
  intros Hs. unfold request_textureCompression.
  destruct (truthy (available textureCompressionBC)) eqn:H1;
    [cbn [fst]; now apply sound_assign|].
  destruct (truthy (available textureCompressionASTC_LDR)) eqn:H2;
    [cbn [fst]; now apply sound_assign|].
  destruct (truthy (available textureCompressionETC2)) eqn:H3;
    [cbn [fst]; now apply sound_assign|assumption].
Qed.

Lemma sound_request_descriptorIndexing available st :
  sound available (fst st) → sound available (fst (request_descriptorIndexing available st)).
Proof.
  intros Hs. unfold request_descriptorIndexing.
  destruct (truthy (available descriptorIndexing)) eqn:Ha; [|assumption]. cbv zeta.
  unfold copy. cbn [fst snd]. repeat (apply sound_assign; [auto|]). assumption.
Qed.

(** X13. The negotiation never requests a feature the device did not
    report, in any of the four feature structures. *)
Theorem requested_features_are_available (available : Features) (m : Feature) :
  truthy (fst (requestedFeatures available) m) = true → truthy (available m) = true.
Proof.
  revert m. change (sound available (fst (requestedFeatures available))).
  unfold requestedFeatures. cbv zeta.
  repeat first [ apply sound_enable | apply sound_enable_or_warn | apply sound_enable_and_log
               | apply sound_request_wireframe | apply sound_request_textureCompression
               | apply sound_request_descriptorIndexing ].
  intros m. cbn. discriminate.
Qed.

Lemma requested_features_are_available_witness :
  truthy (mobile textureCompressionASTC_LDR) = true.
Proof.
  apply (requested_features_are_available mobile textureCompressionASTC_LDR). reflexivity.
Defined.

Lemma frame_enable available member st m :
  m ≠ member → fst (enable available member st) m = fst st m.
Proof. intros H. unfold enable. case_match; [cbn; now apply assign_other|reflexivity]. Qed.

Lemma frame_enable_or_warn available member text st m :
  m ≠ member → fst (enable_or_warn available member text st) m = fst st m.
Proof.
  intros H. unfold enable_or_warn. case_match; [cbn; now apply assign_other|reflexivity].
Qed.

Lemma frame_enable_and_log available member text st m :
  m ≠ member → fst (enable_and_log available member text st) m = fst st m.
Proof.
  intros H. unfold enable_and_log. case_match; [cbn; now apply assign_other|reflexivity].
Qed.

Lemma frame_request_wireframe available st m :
  m ≠ fillModeNonSolid → m ≠ wideLines → fst (request_wireframe available st) m = fst st m.
Proof.
  intros H1 H2. unfold request_wireframe. case_match; [|reflexivity]. cbv zeta.
  rewrite frame_enable by assumption. cbn. now apply assign_other.
Qed.

Lemma frame_request_textureCompression available st m :
  m ∉ textureCompression → fst (request_textureCompression available st) m = fst st m.
Proof.
  intros H. unfold request_textureCompression, textureCompression in *.
  repeat case_match; cbn; try reflexivity; apply assign_other; set_solver.
Qed.

Lemma frame_request_descriptorIndexing available st m :
  m ≠ descriptorIndexing → m ∉ descriptorIndexing_members →
  fst (request_descriptorIndexing available st) m = fst st m.
Proof.
  intros H1 H2. unfold request_descriptorIndexing, descriptorIndexing_members, copy in *.
  case_match; [|reflexivity]. cbn.
  rewrite !assign_other; [reflexivity|assumption|set_solver..].
Qed.

Ltac frame :=
  repeat first
    [ rewrite frame_enable by discriminate
    | rewrite frame_enable_or_warn by discriminate
    | rewrite frame_enable_and_log by discriminate
    | rewrite frame_request_wireframe by discriminate
    | rewrite frame_request_textureCompression
        by (unfold textureCompression; rewrite !not_elem_of_cons; repeat split;
            first [discriminate | apply not_elem_of_nil])
    | rewrite frame_request_descriptorIndexing
        by first [ discriminate
                 | unfold descriptorIndexing_members; rewrite !not_elem_of_cons;
                   repeat split; first [discriminate | apply not_elem_of_nil] ] ].

Lemma requested_textureCompression available :
  let r := fst (requestedFeatures available) in
  r textureCompressionBC
    = (if truthy (available textureCompressionBC) then VK_TRUE else VK_FALSE) ∧
  r textureCompressionASTC_LDR
    = (if truthy (available textureCompressionBC) then VK_FALSE
       else if truthy (available textureCompressionASTC_LDR) then VK_TRUE else VK_FALSE) ∧
  r textureCompressionETC2
    = (if truthy (available textureCompressionBC) then VK_FALSE
       else if truthy (available textureCompressionASTC_LDR) then VK_FALSE
       else if truthy (available textureCompressionETC2) then VK_TRUE else VK_FALSE).
Proof.
  cbv zeta. unfold requestedFeatures. cbv zeta. repeat split; frame;
    unfold request_textureCompression;
    destruct (truthy (available textureCompressionBC)),
      (truthy (available textureCompressionASTC_LDR)),
      (truthy (available textureCompressionETC2)); cbn [fst snd];
    rewrite ?assign_same, ?assign_other by discriminate; frame; reflexivity.
Qed.

(** X14. Of the three texture-compression formats the negotiation
    requests exactly the first one the device reports, trying BC, then
    ASTC LDR, then ETC2, and none when the device reports none. *)
Theorem one_textureCompression_is_requested (available : Features) :
  List.filter (λ m, truthy (fst (requestedFeatures available) m)) textureCompression =
    match List.find (λ m, truthy (available m)) textureCompression with
    | Some m => [m]
    | None => []
    end.
Proof.
  destruct (requested_textureCompression available) as (H1 & H2 & H3).
  cbv zeta in H1, H2, H3. unfold textureCompression. cbn [List.filter List.find].
  rewrite H1, H2, H3.
  destruct (truthy (available textureCompressionBC)),
    (truthy (available textureCompressionASTC_LDR)),
    (truthy (available textureCompressionETC2)); reflexivity.
Qed.

(** X15. Wide lines are requested only together with non-solid fill,
    and the sub-features of descriptor indexing only together with
    [descriptorIndexing] itself, whatever the device reports for them;
    with [descriptorIndexing] reported, each sub-feature is requested
    with the value the device reported. *)
Theorem dependent_features (available : Features) :
  let r := fst (requestedFeatures available) in
  (truthy (available fillModeNonSolid) = false → r wideLines = VK_FALSE) ∧
  (truthy (available descriptorIndexing) = false →
   ∀ m, m ∈ descriptorIndexing_members → r m = VK_FALSE) ∧
  (truthy (available descriptorIndexing) = true →
   ∀ m, m ∈ descriptorIndexing_members → r m = available m).
Proof.
  cbv zeta. unfold requestedFeatures. cbv zeta. repeat split.
  - intros Hf. frame. unfold request_wireframe. rewrite Hf. cbn [fst]. frame. reflexivity.
  - intros Hd m Hm. unfold descriptorIndexing_members in Hm.
    apply list_elem_of_In in Hm. cbn in Hm.
    destruct Hm as [<-|[<-|[<-|[<-|[]]]]]; frame; unfold request_descriptorIndexing;
      rewrite Hd; frame; reflexivity.
  - intros Hd m Hm. unfold descriptorIndexing_members in Hm.
    apply list_elem_of_In in Hm. cbn in Hm.
    destruct Hm as [<-|[<-|[<-|[<-|[]]]]]; frame; unfold request_descriptorIndexing, copy;
      rewrite Hd; cbn [fst snd];
      rewrite ?assign_same, ?assign_other by discriminate;
      rewrite ?assign_same; reflexivity.
Qed.

Lemma dependent_features_witness :
  fst (requestedFeatures mobile) wideLines = VK_FALSE ∧
  fst (requestedFeatures mobile) runtimeDescriptorArray = VK_FALSE.
Proof.
  destruct (dependent_features mobile) as (H1 & H2 & _). split.
  - apply H1. reflexivity.
  - apply H2; [reflexivity|]. unfold descriptorIndexing_members. set_solver.
Defined.

End DeviceFeaturesFacts.

(** ** Graphics, present and transfer families; the queues requested *)

Module QueueFamilyFacts.
Import LogicalDevice LogicalDeviceFacts.

Lemma scan_GraphicsFamily families : ∀ i this loc,
  GraphicsFamily (fst (scan i families (this, loc))) =
    match l_graphics loc with
    | Some _ => GraphicsFamily this
    | None => default (GraphicsFamily this) (first_from is_graphics i families None)
    end.
Proof.
  induction families as [|q rest IH]; intros i this loc; cbn [scan first_from].
  - now destruct (l_graphics loc).
  - destruct (visit i q (this, loc)) as [this' loc'] eqn:Hv.
    pose proof (visit_members i q this loc) as (Hc & _).
    pose proof (visit_locals i q this loc) as Hl.
    rewrite Hv in Hc, Hl. cbn in Hc, Hl. subst loc'. rewrite IH. cbn.
    unfold pick in Hc. unfold upd.
    destruct (l_graphics loc); [assumption|].
    destruct (is_graphics q); [|now rewrite Hc].
    rewrite first_from_Some. cbn. assumption.
Qed.

Lemma scan_presentFamily families : ∀ i this loc,
  presentFamily (fst (scan i families (this, loc))) =
    match l_present loc with
    | Some _ => presentFamily this
    | None => default (presentFamily this) (first_from is_present i families None)
    end.
Proof.
  induction families as [|q rest IH]; intros i this loc; cbn [scan first_from].
  - now destruct (l_present loc).
  - destruct (visit i q (this, loc)) as [this' loc'] eqn:Hv.
    pose proof (visit_members i q this loc) as (_ & Hc & _).
    pose proof (visit_locals i q this loc) as Hl.
    rewrite Hv in Hc, Hl. cbn in Hc, Hl. subst loc'. rewrite IH. cbn.
    unfold pick in Hc. unfold upd.
    destruct (l_present loc); [assumption|].
    destruct (is_present q); [|now rewrite Hc].
    rewrite first_from_Some. cbn. assumption.
Qed.

Lemma CreateQueueIndices_graphics_present families this :
  GraphicsFamily (fst (CreateQueueIndices families this)) =
    default (GraphicsFamily this) (first_from is_graphics 0 families None) ∧
  presentFamily (fst (CreateQueueIndices families this)) =
    default (presentFamily this) (first_from is_present 0 families None).
Proof.
  unfold CreateQueueIndices.
  pose proof (scan_GraphicsFamily families 0 this no_locals) as Hg.
  pose proof (scan_presentFamily families 0 this no_locals) as Hp.
  destruct (scan 0 families (this, no_locals)) as [this' loc']. cbn in Hg, Hp.
  destruct (l_dedicatedCompute loc'), (l_dedicatedTransfer loc'); cbn; auto.
Qed.

(** X16. When some graphics-capable family has a queue,
    [CreateQueueIndices] returns; the graphics family is then the first
    family with the graphics bit and the present family the first
    graphics-capable family whose queue count is positive, which is the
    same family or a later one. *)
Theorem graphics_and_present_family (families : list VkQueueFamilyProperties)
    (this : LogicalDevice.LogicalDevice) :
  (∃ q, q ∈ families ∧ is_graphics q = true ∧ 0 < queueCount q) →
  let r := CreateQueueIndices families this in
  fst (snd r) = Return () ∧
  ∃ (kg kp : nat) qg qp,
    GetGraphicsFamily (fst r) = Z.of_nat kg ∧ GetPresentFamily (fst r) = Z.of_nat kp ∧
    families !! kg = Some qg ∧ is_graphics qg = true ∧
    (∀ (k : nat) q, (k < kg)%nat → families !! k = Some q → is_graphics q = false) ∧
    families !! kp = Some qp ∧ is_graphics qp = true ∧ 0 < queueCount qp ∧
    (∀ (k : nat) q, (k < kp)%nat → families !! k = Some q →
       is_graphics q = false ∨ queueCount q ≤ 0) ∧
    (kg ≤ kp)%nat.
Proof.
  intros (q0 & Hin & Hg0 & Hc0). cbv zeta.
  assert (Hp0 : is_present q0 = true).
  { unfold is_present. unfold is_graphics in Hg0. rewrite Hg0.
    apply Z.ltb_lt in Hc0. now rewrite Hc0. }
  split; [apply CreateQueueIndices_returns; eauto|].
  destruct (first_from_found is_graphics families 0) as (kg & qg & Hfg & Hlg & HPg & Hming);
    [eauto|].
  destruct (first_from_found is_present families 0) as (kp & qp & Hfp & Hlp & HPp & Hminp);
    [eauto|].
  destruct (CreateQueueIndices_graphics_present families this) as [HG HP].
  exists kg, kp, qg, qp. unfold GetGraphicsFamily, GetPresentFamily.
  rewrite HG, HP, Hfg, Hfp. cbn [default].
  pose proof (present_is_graphics qp HPp) as Hgp.
  assert (Hqp : 0 < queueCount qp).
  { unfold is_present in HPp. apply andb_true_iff in HPp as [HPp _]. now apply Z.ltb_lt. }
  repeat split; auto.
  - intros k q Hlt Hq. specialize (Hminp k q Hlt Hq). unfold is_present in Hminp.
    unfold is_graphics. apply andb_false_iff in Hminp as [H|H]; [right|now left].
    now apply Z.ltb_ge.
  - destruct (le_lt_dec kg kp) as [|Hlt]; [assumption|].
    specialize (Hming kp qp Hlt Hlp). congruence.
Qed.

Lemma graphics_and_present_family_witness :
  let r := CreateQueueIndices [transfer_only; mkFamily 1 0; graphics_compute] initial in
  fst (snd r) = Return () ∧ GetGraphicsFamily (fst r) = 1 ∧ GetPresentFamily (fst r) = 2.
Proof.
  cbv zeta.
  destruct (graphics_and_present_family [transfer_only; mkFamily 1 0; graphics_compute] initial)
    as (Hr & _).
  - exists graphics_compute. split; [set_solver|]. split; [reflexivity|]. cbn. lia.
  - split; [exact Hr|]. split; reflexivity.
Defined.

(** X17. A family whose flags are exactly the transfer bit is preferred
    for transfers: when one exists the transfer family is the first such
    family, and a family that offers transfer together with anything else
    does not count as dedicated.  Without one, the transfer family is
    the first family with the transfer bit. *)
Theorem dedicated_transfer_family_preferred (families : list VkQueueFamilyProperties)
    (this : LogicalDevice.LogicalDevice) :
  let t := GetTransferFamily (fst (CreateQueueIndices families this)) in
  ((∃ q, q ∈ families ∧ queueFlags q = VK_QUEUE_TRANSFER_BIT) →
   ∃ (k : nat) q, t = Z.of_nat k ∧ families !! k = Some q ∧
     queueFlags q = VK_QUEUE_TRANSFER_BIT ∧
     ∀ (k' : nat) q', (k' < k)%nat → families !! k' = Some q' →
       queueFlags q' ≠ VK_QUEUE_TRANSFER_BIT) ∧
  ((∀ q, q ∈ families → queueFlags q ≠ VK_QUEUE_TRANSFER_BIT) →
   (∃ q, q ∈ families ∧ is_transfer q = true) →
   ∃ (k : nat) q, t = Z.of_nat k ∧ families !! k = Some q ∧ is_transfer q = true ∧
     ∀ (k' : nat) q', (k' < k)%nat → families !! k' = Some q' → is_transfer q' = false).
Proof.
  cbv zeta. unfold GetTransferFamily. rewrite CreateQueueIndices_transferFamily.
  assert (Hded : ∀ q, is_dedicated_transfer q = true ↔ queueFlags q = VK_QUEUE_TRANSFER_BIT).
  { intros q. unfold is_dedicated_transfer, has_flag. split.
    - intros H. apply andb_true_iff in H as [_ H]. now apply Z.eqb_eq.
    - intros ->. reflexivity. }
  split.
  - intros (q0 & Hin & Hq0).
    destruct (first_from_found is_dedicated_transfer families 0)
      as (k & q & Hf & Hl & HP & Hmin); [exists q0; split; [assumption|now apply Hded]|].
    exists k, q. rewrite Hf. repeat split; auto; [now apply Hded|].
    intros k' q' Hlt Hq' Heq. apply Hded in Heq. specialize (Hmin k' q' Hlt Hq'). congruence.
  - intros Hnone Hex.
    rewrite first_from_absent.
    + destruct (first_from_found is_transfer families 0 Hex) as (k & q & Hf & Hl & HP & Hmin).
      exists k, q. rewrite Hf. auto.
    + intros q Hq. destruct (is_dedicated_transfer q) eqn:Hd; [|reflexivity].
      apply Hded in Hd. now apply Hnone in Hd.
Qed.

Lemma dedicated_transfer_family_preferred_witness :
  ∃ (k : nat) q,
    GetTransferFamily
      (fst (CreateQueueIndices [graphics_compute; compute_transfer; transfer_only] initial))
      = Z.of_nat k ∧
    [graphics_compute; compute_transfer; transfer_only] !! k = Some q ∧
    queueFlags q = VK_QUEUE_TRANSFER_BIT.
Proof.
  destruct (dedicated_transfer_family_preferred
              [graphics_compute; compute_transfer; transfer_only] initial) as [H _].
  destruct H as (k & q & H1 & H2 & H3 & _).
  - exists transfer_only. split; [set_solver|reflexivity].
  - exists k, q. auto.
Defined.

(** X18. [CreateQueueIndices] throws for the missing graphics family
    exactly when no family has the graphics bit, and for the missing
    present family exactly when some family has the graphics bit but none
    of those has a queue. *)
Theorem CreateQueueIndices_errors (families : list VkQueueFamilyProperties)
    (this : LogicalDevice.LogicalDevice) :
  let r := fst (snd (CreateQueueIndices families this)) in
  (r = Throw "Failed to find queue family supporting VK_QUEUE_GRAPHICS_BIT" ↔
   ∀ q, q ∈ families → is_graphics q = false) ∧
  (r = Throw "Failed to find queue family supporting present" ↔
   (∃ q, q ∈ families ∧ is_graphics q = true) ∧
   ∀ q, q ∈ families → is_graphics q = true → queueCount q ≤ 0).
Proof.
  cbv zeta. rewrite CreateQueueIndices_outcome. cbv zeta.
  pose proof (first_from_is_Some is_graphics families 0) as Hg.
  pose proof (first_from_is_Some is_present families 0) as Hp.
  assert (Hnog : (∀ q, q ∈ families → is_graphics q = false) ↔
                 ¬ ∃ q, q ∈ families ∧ is_graphics q = true).
  { split.
    - intros Hall (q & Hin & Hq). rewrite (Hall q Hin) in Hq. discriminate.
    - intros Hno q Hin. destruct (is_graphics q) eqn:Hq; [|reflexivity].
      exfalso. eauto. }
  assert (Hnop : (∀ q, q ∈ families → is_graphics q = true → queueCount q ≤ 0) ↔
                 ¬ ∃ q, q ∈ families ∧ is_present q = true).
  { unfold is_present, is_graphics. split.
    - intros Hall (q & Hin & Hq). apply andb_true_iff in Hq as [Hc Hq].
      apply Z.ltb_lt in Hc. specialize (Hall q Hin Hq). lia.
    - intros Hno q Hin Hq. destruct (Z.ltb_spec 0 (queueCount q)) as [Hc|]; [|assumption].
      exfalso. apply Hno. exists q. split; [assumption|].
      apply Z.ltb_lt in Hc. now rewrite Hc, Hq. }
  rewrite Hnog, Hnop, <- Hg, <- Hp. clear Hg Hp Hnog Hnop.
  destruct (has_value (first_from is_graphics 0 families None)),
    (has_value (first_from is_present 0 families None)); cbn;
    split; split; intros H; try reflexivity; try congruence;
    try (split; congruence); destruct H; congruence.
Qed.

Lemma CreateQueueIndices_errors_witness :
  fst (snd (CreateQueueIndices [transfer_only; mkFamily 1 0] initial))
  = Throw "Failed to find queue family supporting present".
Proof.
  apply (proj2 (CreateQueueIndices_errors [transfer_only; mkFamily 1 0] initial)). split.
  - exists (mkFamily 1 0). split; [|reflexivity]. apply list_elem_of_In. cbn. auto.
  - intros q Hq Hg. apply list_elem_of_In in Hq. cbn in Hq.
    destruct Hq as [<-|[<-|[]]]; [discriminate Hg|cbn; lia].
Defined.

(** X19. [CreateLogicalDevice] asks for one queue of every family that
    serves as graphics, present, compute or transfer family, and for no
    other; no family index occurs twice in the request, so between one
    and four queues are created. *)
Theorem queueCreateInfos_unique (this : LogicalDevice.LogicalDevice) :
  let families := queueFamilyIndex <$> queueCreateInfos this in
  NoDup families ∧
  (∀ f, f ∈ families ↔
     f = GraphicsFamily this ∨ f = presentFamily this ∨ f = computeFamily this
     ∨ f = transferFamily this) ∧
  (∀ info, info ∈ queueCreateInfos this → queueCreateCount info = 1) ∧
  (1 ≤ length (queueCreateInfos this) ≤ 4)%nat.
Proof.
  cbv zeta. unfold queueCreateInfos. rewrite <- list_fmap_compose.
  assert (Hid : (queueFamilyIndex ∘ (λ f, mkQueueInfo f 1) <$> elements (uniqueQueueFamilies this))
                = elements (uniqueQueueFamilies this)).
  { rewrite <- (list_fmap_id (elements _)) at 2. now apply list_fmap_ext. }
  rewrite Hid, length_fmap.
  assert (Hmem : ∀ f, f ∈ elements (uniqueQueueFamilies this) ↔
            f = GraphicsFamily this ∨ f = presentFamily this ∨ f = computeFamily this
            ∨ f = transferFamily this).
  { intros f. rewrite elem_of_elements. unfold uniqueQueueFamilies.
    rewrite !elem_of_union, !elem_of_singleton. tauto. }
  repeat split.
  - apply NoDup_elements.
  - apply Hmem.
  - apply Hmem.
  - intros info Hin. apply list_elem_of_fmap in Hin as (f & -> & _). reflexivity.
  - destruct (elements (uniqueQueueFamilies this)) as [|x l] eqn:He; [|cbn; lia].
    exfalso. pose proof (proj2 (Hmem (GraphicsFamily this)) (or_introl eq_refl)) as H.
    inversion H.
  - assert (Hsub : elements (uniqueQueueFamilies this) ⊆+
                   [GraphicsFamily this; presentFamily this; computeFamily this;
                    transferFamily this]).
    { apply NoDup_submseteq; [apply NoDup_elements|].
      intros f Hf. apply Hmem in Hf. apply list_elem_of_In. cbn.
      destruct Hf as [->|[->|[->| ->]]]; auto. }
    apply submseteq_length in Hsub. exact Hsub.
Qed.

Lemma queueCreateInfos_unique_witness :
  NoDup (queueFamilyIndex <$> queueCreateInfos (mk 7 0 0 2 1)) ∧
  queueCreateCount (mkQueueInfo 2 1) = 1.
Proof.
  destruct (queueCreateInfos_unique (mk 7 0 0 2 1)) as (H1 & _ & H3 & _).
  split; [exact H1|]. apply H3.
  unfold queueCreateInfos. apply list_elem_of_fmap. exists 2. split; [reflexivity|].
  apply elem_of_elements. unfold uniqueQueueFamilies. cbn.
  rewrite !elem_of_union, !elem_of_singleton. auto.
Defined.

End QueueFamilyFacts.

(** ** Lookups in a shader bundle and the size of its file *)

Module ShaderBundleLookup.
Import ShaderBundle ShaderBundleFacts.

(** Only the low eight bits of the stage reach the key: the shift by 24
    pushes the others out of the 32-bit word. *)
Lemma makeKey_low_bits nameHash stage :
  makeKey nameHash stage = Z.lxor nameHash (stage mod 256 * 16777216).
Proof.
  unfold makeKey, u32. f_equal. rewrite Z.shiftl_mul_pow2 by lia.
  change UINT32_MOD with (256 * 2 ^ 24). change 16777216 with (2 ^ 24).
  rewrite Z.mul_mod_distr_r by lia. f_equal.
  apply Z.mod_mod_divide. exists (2 ^ 24). reflexivity.
Qed.

(** X20. A shader that was just added is found under its name and
    stage, with the words it was added with, whatever the bundle held
    before; since only the low eight bits of the stage enter the key, it
    is found under every stage that agrees with its own in those bits. *)
Theorem getShader_addShader (b : ShaderBundle.ShaderBundle) (name entryPoint : string)
    (stage stage' : Z) (spirv : list Z) :
  Z.of_nat (length (data_ b)) + Z.of_nat (length spirv) * 4 < UINT32_MOD →
  Forall (λ w, 0 ≤ w < UINT32_MOD) spirv →
  stage' mod 256 = stage mod 256 →
  getShader name stage' (addShader name stage spirv entryPoint b) = Found spirv.
Proof.
  intros Hfit Hwords Hstage.
  pose proof (add_exact b (mkShader name stage spirv entryPoint) Hfit) as Hadd.
  unfold add in Hadd. cbn [s_name s_stage s_spirv s_entryPoint] in Hadd. rewrite Hadd.
  unfold getShader, getShaderByHash. cbn [hashToIndex_ entries_ data_].
  replace (makeKey (hashString name) stage')
    with (key_of (mkShader name stage spirv entryPoint))
    by (unfold key_of; cbn; now rewrite !makeKey_low_bits, Hstage).
  rewrite lookup_insert_eq, list_lookup_middle by reflexivity.
  unfold entry_at. cbn [size offset s_spirv].
  rewrite Z.div_mul by lia. rewrite !Nat2Z.id.
  replace (Z.to_nat (Z.of_nat (length spirv) * 4)) with (4 * length spirv)%nat by lia.
  rewrite length_app, length_bytes_of_words.
  rewrite drop_app_length.
  rewrite take_ge by (rewrite length_bytes_of_words; lia).
  destruct (Nat.leb_spec (length (data_ b) + 4 * length spirv)
                         (length (data_ b) + 4 * length spirv)) as [_|]; [|lia].
  destruct (Nat.leb_spec (4 * length spirv) (4 * length spirv)) as [_|]; [|lia].
  cbn [andb]. f_equal.
  rewrite <- (app_nil_r (bytes_of_words spirv)). now apply words_of_bytes_of_words.
Qed.

Lemma getShader_addShader_witness :
  getShader "rt" 2048 (addShader "rt" 256 [119734787; 66816] "main" (build [vs_main]))
  = Found [119734787; 66816].
Proof.
  apply getShader_addShader.
  - vm_compute. reflexivity.
  - repeat constructor; vm_compute; discriminate.
  - reflexivity.
Defined.

(** X21. Adding a shader leaves every lookup under a different key as
    it was: what was found is found unchanged, what was absent stays
    absent. *)
Theorem addShader_keeps_other_lookups (b : ShaderBundle.ShaderBundle)
    (name entryPoint : string) (stage : Z) (spirv : list Z) (nameHash' stage' : Z) :
  makeKey nameHash' stage' ≠ makeKey (hashString name) stage →
  getShaderByHash nameHash' stage' b ≠ Undefined →
  getShaderByHash nameHash' stage' (addShader name stage spirv entryPoint b)
  = getShaderByHash nameHash' stage' b.
Proof.
  intros Hkey Hdef. unfold getShaderByHash in *. unfold addShader.
  cbn [hashToIndex_ entries_ data_ ShaderBundle.nameHash].
  rewrite lookup_insert_ne by congruence.
  destruct (hashToIndex_ b !! makeKey nameHash' stage') as [index|]; [|reflexivity].
  destruct (entries_ b !! index) as [entry|] eqn:He; [|congruence].
  rewrite (lookup_app_l_Some _ _ _ _ He).
  match goal with |- context [data_ b ++ ?x] => generalize x; intros extra end.
  set (bytes := Z.to_nat (size entry)) in *.
  set (off := Z.to_nat (offset entry)) in *.
  set (count := Z.to_nat (size entry / 4)) in *.
  rewrite length_app.
  destruct (Nat.leb_spec (off + bytes) (length (data_ b))) as [Hin|];
    [|cbn [andb] in Hdef; congruence].
  destruct (Nat.leb_spec (off + bytes) (length (data_ b) + length extra)) as [_|]; [|lia].
  cbn [andb] in *. destruct (bytes <=? 4 * count)%nat; [|congruence].
  f_equal. f_equal.
  rewrite drop_app_le by lia. rewrite take_app_le; [reflexivity|].
  rewrite length_drop. lia.
Qed.

Lemma addShader_keeps_other_lookups_witness :
  getShaderByHash (hashString "vs_main") VK_SHADER_STAGE_VERTEX_BIT
    (addShader "fs_main" VK_SHADER_STAGE_FRAGMENT_BIT [119734787; 66816] "main"
       (build [vs_main]))
  = getShaderByHash (hashString "vs_main") VK_SHADER_STAGE_VERTEX_BIT (build [vs_main]).
Proof.
  apply addShader_keeps_other_lookups.
  - vm_compute. discriminate.
  - vm_compute. discriminate.
Defined.

Lemma fold_add_index shaders k : ∀ b,
  (∀ s, s ∈ shaders → key_of s ≠ k) →
  hashToIndex_ (fold_left add shaders b) !! k = hashToIndex_ b !! k.
Proof.
  induction shaders as [|s rest IH]; intros b Hall; cbn [fold_left]; [reflexivity|].
  rewrite IH by (intros s' Hs'; apply Hall; now constructor).
  unfold add, addShader. cbn [hashToIndex_ nameHash].
  apply lookup_insert_ne. apply (Hall s). constructor.
Qed.

(** X22. A bundle holds nothing under a key that no added shader has:
    [getShader] answers [std::nullopt] and [hasShader] false for every
    name and stage whose key differs from the keys of all shaders
    added. *)
Theorem absent_shader_is_nullopt (shaders : list Shader) (name : string) (stage : Z) :
  (∀ s, s ∈ shaders → key_of s ≠ makeKey (hashString name) stage) →
  getShader name stage (build shaders) = nullopt ∧
  hasShader name stage (build shaders) = false.
Proof.
  intros Hall.
  assert (H : hashToIndex_ (build shaders) !! makeKey (hashString name) stage = None).
  { unfold build. now rewrite fold_add_index. }
  unfold getShader, getShaderByHash, hasShader. rewrite H. split; reflexivity.
Qed.

Lemma absent_shader_is_nullopt_witness :
  getShader "vs_main" VK_SHADER_STAGE_FRAGMENT_BIT (build [vs_main; fs_main]) = nullopt.
Proof.
  apply (absent_shader_is_nullopt [vs_main; fs_main] "vs_main" VK_SHADER_STAGE_FRAGMENT_BIT).
  intros s Hs. apply list_elem_of_In in Hs. cbn in Hs.
  destruct Hs as [<-|[<-|[]]]; vm_compute; discriminate.
Defined.

Lemma length_read n buffer stream :
  length buffer = n → length (fst (read n buffer stream)) = n.
Proof.
  intros Hb. unfold read. cbn [fst]. rewrite length_app, length_drop, !length_take. lia.
Qed.

Lemma length_load_entries uninit count : ∀ i stream entries index,
  length (fst (fst (load_entries count i uninit stream entries index)))
  = (length entries + count)%nat.
Proof.
  induction count as [|count IH]; intros i stream entries index; cbn [load_entries].
  - cbn. lia.
  - destruct (read sizeof_entry _ stream) as [diskEntry stream'].
    rewrite IH, length_app. cbn. lia.
Qed.

(** X23. [save] to a file that opens writes 32 bytes of header, 336
    bytes for every entry and then the data: the file is
    [32 + 336 * count + size of data] bytes long and starts with the
    magic number and the version. *)
Theorem save_layout (reserved : list byte) (b : ShaderBundle.ShaderBundle) :
  ∃ file, save true reserved b = (true, Some file) ∧
    length file = (32 + 336 * getShaderCount b + length (data_ b))%nat ∧
    field32 0 file = BUNDLE_MAGIC ∧ field32 4 file = BUNDLE_VERSION ∧
    drop (32 + 336 * getShaderCount b) file = data_ b.
Proof.
  unfold save. cbn [negb]. eexists. split; [reflexivity|].
  assert (Hentries : length (concat (diskEntry_of <$> entries_ b))
                     = (336 * getShaderCount b)%nat).
  { unfold getShaderCount. induction (entries_ b) as [|e rest IH]; [reflexivity|].
    cbn [fmap list_fmap concat length]. rewrite length_app, length_diskEntry_of.
    change (list_fmap _ _ diskEntry_of rest) with (diskEntry_of <$> rest).
    rewrite IH. unfold sizeof_entry. lia. }
  split; [|split; [|split]].
  - rewrite !length_app, Hentries, length_fit. cbn. lia.
  - reflexivity.
  - reflexivity.
  - rewrite <- !app_assoc.
    rewrite (app_assoc (le32 BUNDLE_MAGIC)), (app_assoc _ (le32 (u32 _))),
      (app_assoc _ (le32 (u32 _))), (app_assoc _ (fit 16 reserved)), app_assoc.
    apply drop_app_length'. rewrite !length_app, Hentries, length_fit. cbn. lia.
Qed.

(** X24. [load] does not look at the state of the stream after the
    header: once magic number and version match it reports success with
    as many entries as the header announces and as many data bytes,
    however short the file is. *)
Theorem load_trusts_header (stream : list byte) (uninit : nat → list byte)
    (b : ShaderBundle.ShaderBundle) :
  let header := fst (read sizeof_header (fit sizeof_header (uninit 0%nat)) stream) in
  field32 0 header = BUNDLE_MAGIC → field32 4 header = BUNDLE_VERSION →
  ∃ b', load (Some stream) uninit b = (true, b') ∧
        getShaderCount b' = Z.to_nat (field32 8 header) ∧
        length (data_ b') = Z.to_nat (field32 12 header).
Proof.
  cbv zeta. intros Hmagic Hversion. unfold load.
  destruct (read sizeof_header (fit sizeof_header (uninit 0%nat)) stream)
    as [header rest] eqn:Hread.
  cbn [fst] in Hmagic, Hversion. rewrite Hmagic, Hversion, !Z.eqb_refl. cbn [negb orb].
  pose proof (length_load_entries uninit (Z.to_nat (field32 8 header)) 0 rest [] ∅) as Hlen.
  destruct (load_entries _ 0 uninit rest [] ∅) as [[entries index] rest'].
  cbn [fst length] in Hlen.
  pose proof (length_read (Z.to_nat (field32 12 header))
                (resize (Z.to_nat (field32 12 header)) (data_ b)) rest'
                (length_resize _ _)) as Hdata.
  destruct (read (Z.to_nat (field32 12 header)) _ rest') as [data rest''].
  cbn [fst] in Hdata. eexists. split; [reflexivity|].
  unfold getShaderCount. cbn [entries_ data_ fst]. split; [lia|assumption].
Qed.

Lemma load_trusts_header_witness :
  ∃ b', load (Some (le32 BUNDLE_MAGIC ++ le32 BUNDLE_VERSION ++ le32 2 ++ le32 64))
             (λ _, []) empty = (true, b') ∧
        getShaderCount b' = 2%nat ∧ length (data_ b') = 64%nat.
Proof.
  destruct (load_trusts_header (le32 BUNDLE_MAGIC ++ le32 BUNDLE_VERSION ++ le32 2 ++ le32 64)
              (λ _, []) empty) as (b' & H1 & H2 & H3); [reflexivity|reflexivity|].
  exists b'. split; [exact H1|]. split; [exact H2|exact H3].
Defined.

End ShaderBundleLookup.

(** ** The update cycle of the storage handler *)

Module HandlerUpdate.
Import Buffer StorageHandler.

Lemma Buffer_ctor_no_data vma queueFamily size usage memoryUsage allocationFlags tr :
  let host := host_access memoryUsage allocationFlags in
  let create :=
    vmaCreateBuffer size usage queueFamily
      (if host then Z.lor allocationFlags VMA_ALLOCATION_CREATE_MAPPED_BIT else allocationFlags)
      memoryUsage in
  Buffer_ctor vma queueFamily size usage memoryUsage allocationFlags [] tr =
    if create_result vma =? VK_SUCCESS then
      (Return (Buffer.mk size (created_buffer vma) (created_allocation vma)
                 (if host then pMappedData (created_info vma) else nullptr) host),
       tr ++ [create])
    else (Throw "Vulkan error", tr ++ [create]).
Proof.
  cbv zeta. unfold Buffer_ctor, host_access. cbv zeta.
  unfold bind, emit, ret, raise, RenderSystem.CheckVkResult.
  destruct (create_result vma =? VK_SUCCESS); reflexivity.
Qed.

Lemma Buffer_dtor_calls old tr :
  ∃ b, Buffer_dtor (base old) tr = (Return b, tr ++ destruction (Some old)).
Proof.
  unfold Buffer_dtor, destruction, UnmapMemory, bind, emit, ret. cbv zeta.
  destruct (buffer_ (base old) =? VK_NULL_HANDLE); cbn [negb].
  - rewrite app_nil_r. eauto.
  - destruct (truthy (mappedData_ (base old))) eqn:Hm, (persistentlyMapped_ (base old)) eqn:Hp;
      cbn; rewrite ?Hm, ?Hp; cbn; rewrite <- ?app_assoc; eauto.
Qed.

(** Replacing the buffer: one [vmaCreateBuffer] call, then the calls of
    the replaced buffer's destructor; a failed creation throws before
    anything is destroyed. *)
Lemma replace_buffer_calls env size replaced tr :
  replace_buffer env size replaced tr =
    if create_result (vma env) =? VK_SUCCESS then
      (Return (created env size), tr ++ creation_call env size :: destruction replaced)
    else (Throw "Vulkan error", tr ++ [creation_call env size]).
Proof.
  unfold replace_buffer, StorageBuffer_ctor, bind.
  rewrite Buffer_ctor_no_data. cbv zeta. fold (creation_call env size).
  destruct (create_result (vma env) =? VK_SUCCESS); [|reflexivity].
  unfold ret at 1. fold (created env size).
  destruct replaced as [old|].
  - destruct (Buffer_dtor_calls old (tr ++ [creation_call env size])) as [b ->].
    unfold ret. rewrite <- app_assoc. reflexivity.
  - unfold ret. cbn [destruction]. reflexivity.
Qed.

(** X25. A storage handler constructed without a block and then updated
    with one is rebuilt around that block: [Update] creates one buffer
    of the size of the block, answers false and leaves the handler that
    the constructor taking the block builds around that buffer.  If the
    creation of the buffer fails, [Update] throws. *)
Theorem Update_of_blockless_handler (env : Creation) (block : Shader.UniformBlock)
    (multipipeline : bool) (tr : list Call) :
  let size := u32 (Shader.GetSize block) in
  (create_result (vma env) = VK_SUCCESS →
   Update env (Some block) (StorageHandler_ctor multipipeline) tr
   = (Return (false, StorageHandler_ctor_block (created env size) block multipipeline),
      tr ++ [creation_call env size])) ∧
  (create_result (vma env) ≠ VK_SUCCESS →
   Update env (Some block) (StorageHandler_ctor multipipeline) tr
   = (Throw "Vulkan error", tr ++ [creation_call env size])).
Proof.
  cbv zeta.
  assert (H : Update env (Some block) (StorageHandler_ctor multipipeline) tr =
              (let! fresh := replace_buffer env (u32 (Shader.GetSize block)) None in
               ret (false, mk multipipeline (Some block) (u32 (Shader.GetSize block)) nullptr
                              false (Some fresh) Changed)) tr).
  { unfold Update, StorageHandler_ctor. cbn. unfold bind at 1. reflexivity. }
  rewrite H. unfold bind. rewrite replace_buffer_calls. split; intros Hc.
  - rewrite Hc. reflexivity.
  - apply Z.eqb_neq in Hc. rewrite Hc. reflexivity.
Qed.

Lemma Update_of_blockless_handler_witness :
  Update (creation 1) (Some lights) (StorageHandler_ctor false) []
  = (Return (false,
             mk false (Some lights) 16 nullptr false
                (Some (mkHostBuffer (Buffer.mk 16 11 31 nullptr false) [x00; x00; x00; x00]))
                Changed),
     [vmaCreateBuffer 16 34 [0; 0; 0] 0 6]).
Proof.
  apply (proj1 (Update_of_blockless_handler (creation 1) lights false [])). reflexivity.
Defined.



(** X27. A [Push] whose length differs from the handler's size stores
    nothing: it records the new size and sets the status to [Reset]
    without touching the buffer.  The next [Update] with the handler's
    own block creates a new buffer of the pushed size and destroys the
    old one; nothing is copied, so the pushed bytes are lost. *)
Theorem Push_of_new_size_is_dropped (env : Creation) (own : Shader.UniformBlock)
    (data : list byte) (map_result map_pointer : Z) (h : StorageHandler.StorageHandler) :
  size_ h ≠ Z.of_nat (length data) →
  uniformBlock_ h = Some own →
  create_result (vma env) = VK_SUCCESS →
  let size := u32 (Z.of_nat (length data)) in
  let calls := creation_call env size :: destruction (storageBuffer_ h) in
  run (let! h := Push map_result map_pointer data h in Update env (Some own) h)
  = (Return (false,
             mk (multipipeline_ h) (Some own) size (data_ h) false (Some (created env size))
                Changed),
     calls) ∧
  memory (created env size) = uninit env ∧
  copies calls = 0%nat.
Proof.
  intros Hsize Hown Hcreate. cbv zeta. apply Z.eqb_neq in Hsize.
  split; [|split; [reflexivity|]].
  - unfold run, Push. rewrite Hsize. cbn [negb]. unfold bind at 1. unfold ret at 1.
    unfold Update. cbn [handlerStatus_ multipipeline_ uniformBlock_ size_ data_ bound_
      storageBuffer_].
    rewrite Hown.
    rewrite (bool_decide_eq_true_2 (Reset = Reset)) by reflexivity.
    rewrite (bool_decide_eq_true_2 (Some own = Some own)) by reflexivity.
    rewrite (bool_decide_eq_true_2 (is_Some (Some own))) by eauto.
    cbn [orb andb negb]. rewrite andb_false_r. cbn [orb].
    unfold bind at 1. unfold ret at 1. unfold bind.
    rewrite replace_buffer_calls, Hcreate. reflexivity.
  - unfold copies, destruction. cbn.
    destruct (storageBuffer_ h) as [old|]; [|reflexivity].
    destruct (buffer_ (base old) =? VK_NULL_HANDLE); [reflexivity|].
    destruct (truthy (mappedData_ (base old)) && negb (persistentlyMapped_ (base old)));
      reflexivity.
Qed.

Lemma Push_of_new_size_is_dropped_witness :
  run (let! h := Push VK_SUCCESS 4096 [x01; x02]
                   (StorageHandler_ctor_block four_bytes lights false) in
       Update (creation 2) (Some lights) h)
  = (Return (false,
             mk false (Some lights) 2 nullptr false
                (Some (mkHostBuffer (Buffer.mk 2 12 32 nullptr false) [x00; x00; x00; x00]))
                Changed),
     [vmaCreateBuffer 2 34 [0; 0; 0] 0 6; vmaDestroyBuffer 11 22]).
Proof.
  apply (Push_of_new_size_is_dropped (creation 2) lights [x01; x02] VK_SUCCESS 4096
           (StorageHandler_ctor_block four_bytes lights false)).
  - vm_compute. discriminate.
  - reflexivity.
  - reflexivity.
Defined.

End HandlerUpdate.

(** ** What reflection keeps true of a shader *)

Module ShaderInvariants.
Import Shader ShaderFacts.

Lemma merge_layout_stage_keys k stage l : ∀ l',
  merge_layout_stage k stage l = Some l' → lb_binding <$> l' = lb_binding <$> l.
Proof.
  induction l as [|x rest IH]; intros l'; cbn; [discriminate|].
  destruct (lb_binding x =? k); [now intros [= <-]|].
  destruct (merge_layout_stage k stage rest) as [m|]; cbn; [|discriminate].
  intros [= <-]. cbn. now rewrite (IH m).
Qed.

Lemma merge_layout_stage_absent k stage l :
  merge_layout_stage k stage l = None → k ∉ lb_binding <$> l.
Proof.
  induction l as [|x rest IH]; cbn; [intros _; apply not_elem_of_nil|].
  destruct (Z.eqb_spec (lb_binding x) k) as [|Hne]; [discriminate|].
  destruct (merge_layout_stage k stage rest); cbn; [discriminate|].
  intros _. apply not_elem_of_cons. split; [congruence|]. now apply IH.
Qed.

(** The members that one binding leaves alone or sets plainly. *)
Lemma reflect_binding_frame stage st b :
  pushConstants (fst (reflect_binding stage st b)) = pushConstants (fst st) ∧
  attributeDescriptions (fst (reflect_binding stage st b)) = attributeDescriptions (fst st) ∧
  lastDescriptorBinding (fst (reflect_binding stage st b))
    = Z.max (lastDescriptorBinding (fst st)) (b_binding b).
Proof.
  destruct st as [s counts]. unfold reflect_binding. cbn [fst].
  destruct (uniforms s !! b_name b); cbn;
    destruct (merge_layout_stage (b_binding b) stage (descriptorBindings s)); cbn;
    case_match; auto.
Qed.

Lemma reflect_binding_uniformBlocks stage st b :
  uniformBlocks (fst (reflect_binding stage st b)) =
    if (b_descriptor_type b =? VK_DESCRIPTOR_TYPE_UNIFORM_BUFFER)
       || (b_descriptor_type b =? VK_DESCRIPTOR_TYPE_STORAGE_BUFFER)
    then uniformBlocks (LoadUniformBlock (b_block b) stage (fst st))
    else uniformBlocks (fst st).
Proof.
  destruct st as [s counts]. unfold reflect_binding. cbn [fst].
  destruct (uniforms s !! b_name b); cbn;
    destruct (merge_layout_stage (b_binding b) stage (descriptorBindings s)); cbn;
    case_match; reflexivity.
Qed.

Lemma reflect_binding_layout_keys stage st b :
  layout_keys (fst (reflect_binding stage st b)) =
    if bool_decide (b_binding b ∈ layout_keys (fst st)) then layout_keys (fst st)
    else layout_keys (fst st) ++ [b_binding b].
Proof.
  unfold layout_keys. rewrite reflect_binding_descriptorBindings.
  destruct (merge_layout_stage (b_binding b) stage (descriptorBindings (fst st)))
    as [merged|] eqn:Hm.
  - rewrite (merge_layout_stage_keys _ _ _ _ Hm).
    rewrite bool_decide_eq_true_2; [reflexivity|].
    pose proof (merge_layout_stage_spec (b_binding b) stage (descriptorBindings (fst st)))
      as Hspec.
    rewrite Hm in Hspec. destruct Hspec as ((e & r & He & _) & _).
    assert (Hin : e ∈ bindings_at (b_binding b) (descriptorBindings (fst st)))
      by (rewrite He; constructor).
    unfold bindings_at in Hin. apply list_elem_of_In, filter_In in Hin as [Hin Hk].
    apply Z.eqb_eq in Hk. rewrite <- Hk. apply list_elem_of_fmap.
    exists e. split; [reflexivity|now apply list_elem_of_In].
  - rewrite bool_decide_eq_false_2 by now apply merge_layout_stage_absent in Hm.
    now rewrite fmap_app.
Qed.

Lemma fold_reflect_binding_frame stage bindings : ∀ st,
  pushConstants (fst (fold_left (reflect_binding stage) bindings st)) = pushConstants (fst st) ∧
  attributeDescriptions (fst (fold_left (reflect_binding stage) bindings st))
    = attributeDescriptions (fst st).
Proof.
  induction bindings as [|b rest IH]; intros st; cbn [fold_left]; [auto|].
  destruct (IH (reflect_binding stage st b)) as [-> ->].
  destruct (reflect_binding_frame stage st b) as (-> & -> & _). auto.
Qed.

Lemma fold_reflect_binding_layout stage bindings : ∀ st,
  NoDup (layout_keys (fst st)) →
  (∀ k, k ∈ layout_keys (fst st) → k ≤ lastDescriptorBinding (fst st)) →
  let st' := fold_left (reflect_binding stage) bindings st in
  NoDup (layout_keys (fst st')) ∧
  (∀ k, k ∈ layout_keys (fst st') → k ≤ lastDescriptorBinding (fst st')).
Proof.
  induction bindings as [|b rest IH]; intros st Hnd Hle; cbn [fold_left]; [auto|].
  apply IH.
  - rewrite reflect_binding_layout_keys. case_bool_decide as Hin; [assumption|].
    apply NoDup_app. split; [assumption|]. split.
    + intros k Hk Hk'. apply list_elem_of_singleton in Hk'. now subst.
    + apply NoDup_singleton.
  - intros k. destruct (reflect_binding_frame stage st b) as (_ & _ & ->).
    rewrite reflect_binding_layout_keys. case_bool_decide as Hin.
    + intros Hk. specialize (Hle k Hk). lia.
    + intros Hk. apply elem_of_app in Hk as [Hk|Hk].
      * specialize (Hle k Hk). lia.
      * apply list_elem_of_singleton in Hk. lia.
Qed.

Lemma merge_push_constant_keys block stage ranges :
  range_keys (merge_push_constant block stage ranges) =
    if bool_decide ((blk_offset block, blk_size block) ∈ range_keys ranges)
    then range_keys ranges
    else range_keys ranges ++ [(blk_offset block, blk_size block)].
Proof.
  unfold range_keys. induction ranges as [|r rest IH]; cbn.
  - rewrite bool_decide_eq_false_2 by apply not_elem_of_nil. reflexivity.
  - set (key := (blk_offset block, blk_size block)) in *.
    set (keys := (λ r, (pc_offset r, pc_size r)) <$> rest) in *.
    assert (Hother : (pc_offset r, pc_size r) ≠ key →
              bool_decide (key ∈ (pc_offset r, pc_size r) :: keys) = bool_decide (key ∈ keys)).
    { intros Hne. apply bool_decide_ext. rewrite elem_of_cons. split; [|auto].
      intros [H|H]; [congruence|assumption]. }
    destruct (Z.eqb_spec (pc_offset r) (blk_offset block)) as [Ho|Ho];
      [destruct (Z.eqb_spec (pc_size r) (blk_size block)) as [Hs|Hs]|]; cbn.
    + rewrite bool_decide_eq_true_2; [reflexivity|]. rewrite Ho, Hs. constructor.
    + fold keys. rewrite IH, Hother by (unfold key; congruence).
      now destruct (bool_decide (key ∈ keys)).
    + fold keys. rewrite IH, Hother by (unfold key; congruence).
      now destruct (bool_decide (key ∈ keys)).
Qed.

Lemma fold_merge_push_constant stage blocks : ∀ ranges,
  NoDup (range_keys ranges) →
  NoDup (range_keys (fold_left (λ ranges block, merge_push_constant block stage ranges)
                               blocks ranges)).
Proof.
  induction blocks as [|block rest IH]; intros ranges Hnd; cbn [fold_left]; [assumption|].
  apply IH. rewrite merge_push_constant_keys. case_bool_decide as Hin; [assumption|].
  apply NoDup_app. split; [assumption|]. split.
  - intros k Hk Hk'. apply list_elem_of_singleton in Hk'. now subst.
  - apply NoDup_singleton.
Qed.

Lemma reflect_input_frame vars : ∀ s,
  pushConstants (fold_left reflect_input vars s) = pushConstants s ∧
  lastDescriptorBinding (fold_left reflect_input vars s) = lastDescriptorBinding s ∧
  uniformBlocks (fold_left reflect_input vars s) = uniformBlocks s ∧
  attributeDescriptions (fold_left reflect_input vars s) =
    attributeDescriptions s
    ++ (description_of <$> List.filter (λ var, v_built_in var =? -1) vars).
Proof.
  induction vars as [|v rest IH]; intros s; cbn [fold_left List.filter].
  - cbn. rewrite app_nil_r. auto.
  - destruct (IH (reflect_input s v)) as (-> & -> & -> & ->).
    unfold reflect_input. destruct (v_built_in v =? -1); cbn; [|auto].
    rewrite <- app_assoc. auto.
Qed.

Lemma ReflectFromSPIRV_members m stage s :
  let s' := fst (fold_left (reflect_binding stage) (descriptor_bindings m) (s, [])) in
  layout_keys (ReflectFromSPIRV (Some m) stage s) = layout_keys s' ∧
  lastDescriptorBinding (ReflectFromSPIRV (Some m) stage s) = lastDescriptorBinding s' ∧
  pushConstants (ReflectFromSPIRV (Some m) stage s) =
    fold_left (λ ranges block, merge_push_constant block stage ranges)
              (push_constant_blocks m) (pushConstants s').
Proof.
  cbv zeta. destruct (ReflectFromSPIRV_bindings m stage s) as [Hb _]. cbv zeta in Hb.
  unfold layout_keys. rewrite Hb. split; [reflexivity|]. clear Hb.
  unfold ReflectFromSPIRV.
  destruct (fold_left (reflect_binding stage) (descriptor_bindings m) (s, [])) as [s' counts].
  cbn [fst].
  destruct (stage =? VK_SHADER_STAGE_VERTEX_BIT).
  - match goal with |- context [fold_left reflect_input ?vars ?s0] =>
      destruct (reflect_input_frame vars s0) as (-> & -> & _) end.
    cbn. auto.
  - cbn. auto.
Qed.

Lemma ReflectFromSPIRV_layout_ok reflected stage s :
  layout_ok s → layout_ok (ReflectFromSPIRV reflected stage s).
Proof.
  intros (Hkeys & Hranges & Hlast). destruct reflected as [m|]; [|now repeat split].
  unfold layout_ok.
  destruct (ReflectFromSPIRV_members m stage s) as (-> & -> & ->).
  pose proof (fold_reflect_binding_layout stage (descriptor_bindings m) (s, []) Hkeys Hlast)
    as [Hk' Hl'].
  cbv zeta in Hk', Hl'.
  pose proof (fold_reflect_binding_frame stage (descriptor_bindings m) (s, [])) as [Hpc _].
  split; [assumption|]. split; [|assumption].
  apply fold_merge_push_constant. now rewrite Hpc.
Qed.

(** X28. Whatever modules are reflected and in whatever order, the set
    layout of a shader stays well formed: no two layout bindings share a
    binding number, no two push-constant ranges share offset and size,
    and [lastDescriptorBinding] is at least every binding number. *)
Theorem reflection_keeps_layout_well_formed
    (stages : list (option SpvReflectShaderModule * Z)) :
  layout_ok (reflect_stages stages new_Shader).
Proof.
  assert (H : ∀ s, layout_ok s → layout_ok (reflect_stages stages s)).
  { unfold reflect_stages. induction stages as [|[m stage] rest IH]; intros s Hs;
      cbn [fold_left]; [assumption|].
    apply IH. now apply ReflectFromSPIRV_layout_ok. }
  apply H. unfold layout_ok, layout_keys, range_keys. cbn.
  repeat split; try apply NoDup_nil_2. intros k Hk. inversion Hk.
Qed.

Lemma loaded_in_LoadUniformBlock stage block s :
  loaded_in stage (blk_name block) (LoadUniformBlock block stage s).
Proof.
  unfold loaded_in, LoadUniformBlock. cbn. rewrite lookup_insert_eq. eauto.
Qed.

Lemma loaded_in_step stage n st b :
  loaded_in stage n (fst st) → loaded_in stage n (fst (reflect_binding stage st b)).
Proof.
  intros Hl. unfold loaded_in. rewrite reflect_binding_uniformBlocks.
  destruct (_ || _); [|assumption].
  destruct (decide (blk_name (b_block b) = n)) as [<-|Hne].
  - apply loaded_in_LoadUniformBlock.
  - unfold LoadUniformBlock. cbn. now rewrite lookup_insert_ne.
Qed.

Lemma loaded_in_fold stage n bindings : ∀ st,
  loaded_in stage n (fst st) ∨
  (∃ b, b ∈ bindings ∧ blk_name (b_block b) = n ∧
        ((b_descriptor_type b =? VK_DESCRIPTOR_TYPE_UNIFORM_BUFFER)
         || (b_descriptor_type b =? VK_DESCRIPTOR_TYPE_STORAGE_BUFFER)) = true) →
  loaded_in stage n (fst (fold_left (reflect_binding stage) bindings st)).
Proof.
  induction bindings as [|b rest IH]; intros st; cbn [fold_left].
  - intros [H|(b & Hin & _)]; [assumption|inversion Hin].
  - intros [H|(b0 & Hin & Hn & Ht)]; apply IH.
    + left. now apply loaded_in_step.
    + apply elem_of_cons in Hin as [->|Hin]; [left|right; eauto].
      unfold loaded_in. rewrite reflect_binding_uniformBlocks, Ht, <- Hn.
      apply loaded_in_LoadUniformBlock.
Qed.

(** X29. After a stage is reflected, the uniform block of each of its
    uniform-buffer and storage-buffer bindings carries the flags of that
    stage alone, whatever stages declared the block before; the stage
    flags of blocks are replaced, not merged.  The block is typed
    [Uniform] also for a storage buffer, and its binding stays -1. *)
Theorem uniform_block_belongs_to_last_stage (m : SpvReflectShaderModule) (stage : Z)
    (s : Shader.Shader) (b : SpvReflectDescriptorBinding) :
  b ∈ descriptor_bindings m →
  b_descriptor_type b = VK_DESCRIPTOR_TYPE_UNIFORM_BUFFER
    ∨ b_descriptor_type b = VK_DESCRIPTOR_TYPE_STORAGE_BUFFER →
  ∃ ub, uniformBlocks (ReflectFromSPIRV (Some m) stage s) !! blk_name (b_block b) = Some ub ∧
        ub_stageFlags ub = stage ∧ ub_type ub = TypeUniform ∧ ub_binding ub = -1.
Proof.
  intros Hin Htype.
  assert (Hl : loaded_in stage (blk_name (b_block b))
                 (fst (fold_left (reflect_binding stage) (descriptor_bindings m) (s, [])))).
  { apply loaded_in_fold. right. exists b. split; [assumption|]. split; [reflexivity|].
    destruct Htype as [-> | ->]; reflexivity. }
  unfold ReflectFromSPIRV.
  destruct (fold_left (reflect_binding stage) (descriptor_bindings m) (s, [])) as [s' counts].
  cbn [fst] in Hl.
  destruct (stage =? VK_SHADER_STAGE_VERTEX_BIT).
  - match goal with |- context [fold_left reflect_input ?vars ?s0] =>
      destruct (reflect_input_frame vars s0) as (_ & _ & -> & _) end.
    exact Hl.
  - exact Hl.
Qed.

Lemma uniform_block_belongs_to_last_stage_witness :
  ∃ ub,
    uniformBlocks
      (ReflectFromSPIRV (Some (mkModule [CameraUBO; ParticleSSBO] [] []))
         VK_SHADER_STAGE_COMPUTE_BIT
         (ReflectFromSPIRV (Some (mkModule [CameraUBO] [] [])) VK_SHADER_STAGE_VERTEX_BIT
            new_Shader))
      !! "CameraUBO" = Some ub ∧
    ub_stageFlags ub = VK_SHADER_STAGE_COMPUTE_BIT.
Proof.
  destruct (uniform_block_belongs_to_last_stage
              (mkModule [CameraUBO; ParticleSSBO] [] []) VK_SHADER_STAGE_COMPUTE_BIT
              (ReflectFromSPIRV (Some (mkModule [CameraUBO] [] [])) VK_SHADER_STAGE_VERTEX_BIT
                 new_Shader) CameraUBO) as (ub & H1 & H2 & _).
  - constructor.
  - now left.
  - exists ub. split; [exact H1|exact H2].
Defined.

(** X30. Reflecting a vertex stage appends one attribute description
    per input variable that is not a built-in, in the order reported,
    each at binding 0 and offset 0; the descriptions already there are
    kept, so reflecting the same vertex module again lists its inputs
    twice.  Any other stage leaves the descriptions as they are. *)
Theorem attributeDescriptions_after_stage (m : SpvReflectShaderModule) (stage : Z)
    (s : Shader.Shader) :
  attributeDescriptions (ReflectFromSPIRV (Some m) stage s) =
    attributeDescriptions s
    ++ (if stage =? VK_SHADER_STAGE_VERTEX_BIT
        then description_of <$> List.filter (λ var, v_built_in var =? -1) (input_variables m)
        else []).
Proof.
  pose proof (fold_reflect_binding_frame stage (descriptor_bindings m) (s, [])) as [_ Ha].
  unfold ReflectFromSPIRV.
  destruct (fold_left (reflect_binding stage) (descriptor_bindings m) (s, [])) as [s' counts].
  cbn [fst] in Ha.
  destruct (stage =? VK_SHADER_STAGE_VERTEX_BIT).
  - match goal with |- context [fold_left reflect_input ?vars ?s0] =>
      destruct (reflect_input_frame vars s0) as (_ & _ & _ & ->) end.
    cbn. now rewrite Ha.
  - cbn. now rewrite Ha, app_nil_r.
Qed.

End ShaderInvariants.
